(** * docker-monitor-manager: the monitoring loop, the auto-scaler, the
    bounded task runner and the observer fan-out of the data controller.

    A shallow embedding of
      - [docker_monitor/utils/docker_utils.py]  (modules [Stats], [Scaler], [Events],
                                                 [Queues], [Cleanup], [Listener]),
      - [docker_monitor/utils/observer.py]      (module [Observer]),
      - [docker_monitor/utils/docker_controller.py] (modules [Controller], [Queries]),
      - [docker_monitor/utils/worker.py]        (module [Worker]),
    followed by the properties of the specification, stated over it, and by
    further properties of the code.

    Conventions.  Python floats are modelled by exact rationals ([Q]), so
    the rounding of a float and the [OverflowError] of an integer beyond
    the range of floats are outside the model; exceptions by the sum type
    [result]; the container runtime by an oracle that answers every API
    call; logging and API calls by an explicit trace. *)

From Stdlib Require Import ZArith QArith Qabs Qround Lia Ascii String.
From stdpp Require Import base decidable option list strings pretty gmap.


(* ------------------------------------------------------------------ *)
(** ** Python values, exceptions, and the operators the code uses      *)
(* ------------------------------------------------------------------ *)
Module Py.

(** The exception classes that occur in the modelled code.  All of them
    derive from [Exception]; [NotFound] derives from [APIError] as in
    [docker.errors]. *)
Inductive exn :=
| KeyError | TypeError | AttributeError | ZeroDivisionError | ValueError
| RuntimeError
| NotFound | APIError
| TaskQueueFull (msg : string)
| OtherError (cls : string).

#[global] Instance exn_eq_dec : EqDecision exn.
Proof. solve_decision. Defined.

Definition exn_str (e : exn) : string :=
  match e with
  | KeyError => "KeyError" | TypeError => "TypeError"
  | AttributeError => "AttributeError"
  | ZeroDivisionError => "division by zero"
  | ValueError => "ValueError" | RuntimeError => "RuntimeError"
  | NotFound => "404 Not Found" | APIError => "APIError"
  | TaskQueueFull msg => msg
  | OtherError cls => cls
  end.

(** [isinstance(e, docker.errors.APIError)] *)
Definition is_APIError (e : exn) : bool :=
  match e with NotFound | APIError => true | _ => false end.

(** A computation that returns or raises. *)
Inductive result (A : Type) :=
| Ok (a : A)
| Raise (e : exn).
Arguments Ok {A} a.
Arguments Raise {A} e.

#[global] Instance result_ret : MRet result := fun _ a => Ok a.
#[global] Instance result_bind : MBind result := fun _ _ f m =>
  match m with Ok a => f a | Raise e => Raise e end.

(** [try: c  except <classes>: h] *)
Definition try_except {A} (c : result A) (classes : exn -> bool)
    (h : exn -> result A) : result A :=
  match c with
  | Ok a => Ok a
  | Raise e => if classes e then h e else Raise e
  end.

(** Decoded JSON, as the Docker SDK hands it to the code. *)
#[warnings="-register-all"]
Inductive pyval :=
| PNone
| PBool (b : bool)
| PInt (z : Z)
| PFloat (q : Q)
| PStr (s : string)
| PList (items : list pyval)
| PDict (kvs : list (string * pyval)).

Fixpoint assoc {V} (k : string) (kvs : list (string * V)) : option V :=
  match kvs with
  | [] => None
  | (k', v) :: rest => if String.eqb k k' then Some v else assoc k rest
  end.

(** [v[k]] for a string key [k]. *)
Definition subscript (v : pyval) (k : string) : result pyval :=
  match v with
  | PDict kvs => match assoc k kvs with Some x => Ok x | None => Raise KeyError end
  | _ => Raise TypeError
  end.

(** [v.get(k, default)]: only dictionaries have the method. *)
Definition get (v : pyval) (k : string) (dflt : pyval) : result pyval :=
  match v with
  | PDict kvs => Ok (default dflt (assoc k kvs))
  | _ => Raise AttributeError
  end.

(** The numeric view of a value: [bool] is a subclass of [int]. *)
Definition as_number (v : pyval) : option Q :=
  match v with
  | PBool b => Some (if b then 1 else 0)%Q
  | PInt z => Some (inject_Z z)
  | PFloat q => Some q
  | _ => None
  end.

Definition as_int (v : pyval) : option Z :=
  match v with
  | PBool b => Some (if b then 1 else 0)%Z
  | PInt z => Some z
  | _ => None
  end.

(** [a - b] *)
Definition sub (a b : pyval) : result pyval :=
  match as_int a, as_int b with
  | Some x, Some y => Ok (PInt (x - y))
  | _, _ =>
    match as_number a, as_number b with
    | Some x, Some y => Ok (PFloat (x - y))
    | _, _ => Raise TypeError
    end
  end.

Definition Qeqb0 (q : Q) : bool := Z.eqb (Qnum q) 0.

(** [a / b]: true division, always a float; exact, for numbers within the
    range of floats. *)
Definition truediv (a b : pyval) : result Q :=
  match as_number a, as_number b with
  | Some x, Some y => if Qeqb0 y then Raise ZeroDivisionError else Ok (x / y)%Q
  | _, _ => Raise TypeError
  end.

(** [x * b] for a float [x]. *)
Definition fmul (x : Q) (b : pyval) : result Q :=
  match as_number b with
  | Some y => Ok (x * y)%Q
  | None => Raise TypeError
  end.

Definition Qltb (x y : Q) : bool := negb (Qle_bool y x).

(** [a > 0] *)
Definition gt0 (a : pyval) : result bool :=
  match as_number a with
  | Some x => Ok (Qltb 0 x)
  | None => Raise TypeError
  end.

(** Truth value of an object. *)
Definition truthy (v : pyval) : bool :=
  match v with
  | PNone => false
  | PBool b => b
  | PInt z => negb (Z.eqb z 0)
  | PFloat q => negb (Qeqb0 q)
  | PStr s => negb (String.eqb s "")
  | PList l => match l with [] => false | _ => true end
  | PDict kvs => match kvs with [] => false | _ => true end
  end.

(** [round(q)] to the nearest integer, ties to even. *)
Definition round_half_even (q : Q) : Z :=
  let fl := Qfloor q in
  let r := (q - inject_Z fl)%Q in
  if Qltb r (1#2) then fl
  else if Qltb (1#2) r then (fl + 1)%Z
  else if Z.even fl then fl else (fl + 1)%Z.

(** [f"{q:.2f}"], on the exact rational; the code formats the float next
    to it, which may fall on the other side of a tie. *)
Definition format_2f (q : Q) : string :=
  let n := Z.to_N (round_half_even (Qabs q * 100)) in
  let frac := (n mod 100)%N in
  (if Qltb q 0 then "-" else "") +:+
  pretty (n / 100)%N +:+ "." +:+
  (if (frac <? 10)%N then "0" else "") +:+ pretty frac.

Definition digit_of (a : Ascii.ascii) : option N :=
  let n := Ascii.N_of_ascii a in
  if ((48 <=? n) && (n <=? 57))%N then Some (n - 48)%N else None.

Fixpoint digits (s : string) (acc : N) : option N :=
  match s with
  | EmptyString => Some acc
  | String a rest =>
    match digit_of a with
    | Some d => digits rest (acc * 10 + d)%N
    | None => None
    end
  end.

Fixpoint split_dot (s : string) : string * option string :=
  match s with
  | EmptyString => (EmptyString, None)
  | String a rest =>
    if Ascii.eqb a "."%char then (EmptyString, Some rest)
    else let '(i, f) := split_dot rest in (String a i, f)
  end.

(** [float(s)] on the plain decimal literals [[-]ddd[.ddd]], which are the
    strings [format_2f] produces; every other string raises [ValueError]. *)
Definition float_of_str (s : string) : result Q :=
  let '(neg, body) :=
    match s with
    | String "-"%char rest => (true, rest)
    | _ => (false, s)
    end in
  let '(ip, fp) := split_dot body in
  let fp := match fp with Some f => f | None => EmptyString end in
  if (String.eqb ip "" && String.eqb fp "")%bool then Raise ValueError else
  match digits ip 0, digits fp 0 with
  | Some i, Some f =>
    let q := (inject_Z (Z.of_N i)
              + inject_Z (Z.of_N f) / inject_Z (10 ^ Z.of_nat (String.length fp)))%Q in
    Ok (if neg then (- q)%Q else q)
  | _, _ => Raise ValueError
  end.

End Py.


(* ------------------------------------------------------------------ *)
(** ** The container runtime, as the code sees it                      *)
(* ------------------------------------------------------------------ *)
Module Docker.
Import Py.

Record Image := { tags : list string; image_id : string }.

(** A container handle of the Docker SDK, with the attributes the code
    reads.  They are the values cached when the container was listed. *)
Record Container := {
  short_id : string;
  name : string;
  status : string;
  labels : gmap string string;
  image : option Image;
  attrs : pyval }.

Record Snapshot := {
  snap_id : string;
  snap_name : string;
  snap_status : string;
  cpu : string;
  ram : string }.

(** The runtime answers every call of the client facade: it returns or
    raises.  The code never inspects more of the runtime than this. *)
Record Runtime := {
  rt_stats : Container -> result pyval;     (* container.stats(stream=False) *)
  rt_pause : Container -> result unit;      (* container.pause() *)
  rt_stop : Container -> result unit;       (* clone.stop(timeout=10) *)
  rt_remove : Container -> result unit;     (* clone.remove() *)
  rt_run : option string -> pyval -> string -> gmap string string
           -> result Container }.           (* client.containers.run(...) *)

Inductive api_call :=
| StatsOnce (c : Container)
| Pause (c : Container)
| Stop (c : Container) (timeout : Z)
| Remove (c : Container)
| Run (image : option string) (command : pyval) (name : string)
      (labels : gmap string string).

Inductive level := DEBUG | INFO | WARNING | ERROR | CRITICAL.

(** What one run of the code does to the outside, in order. *)
Inductive effect :=
| Call (a : api_call)
| Log (lv : level) (msg : string)
| UpdateContainers (payload : list Snapshot)     (* controller.update_containers *)
| Offer (queue : string) (payload : list Snapshot) (* _offer_latest *)
| Sleep (seconds : Q).                           (* time.sleep *)

End Docker.

(* ------------------------------------------------------------------ *)
(** ** docker_utils.py: the stats sampler                              *)
(* ------------------------------------------------------------------ *)
Module Stats.
Import Py Docker.

Definition KeyError_or_TypeError (e : exn) : bool :=
  match e with KeyError | TypeError => true | _ => false end.

Definition calculate_cpu_percent (stats : pyval) : result Q :=
  try_except
    (cpu_stats ← subscript stats "cpu_stats";
     cpu_usage ← subscript cpu_stats "cpu_usage";
     cpu_current ← subscript cpu_usage "total_usage";
     precpu_stats ← subscript stats "precpu_stats";
     precpu_usage ← subscript precpu_stats "cpu_usage";
     cpu_prev ← subscript precpu_usage "total_usage";
     cpu_stats' ← subscript stats "cpu_stats";
     system_current ← subscript cpu_stats' "system_cpu_usage";
     precpu_stats' ← subscript stats "precpu_stats";
     system_prev ← subscript precpu_stats' "system_cpu_usage";
     cpu_delta ← sub cpu_current cpu_prev;
     system_delta ← sub system_current system_prev;
     cpu_stats'' ← subscript stats "cpu_stats";
     num_cpus ← get cpu_stats'' "online_cpus" (PInt 1);
     sys_pos ← gt0 system_delta;
     cpu_pos ← (if (sys_pos : bool) then gt0 cpu_delta else Ok false);
     if (cpu_pos : bool) then
       r ← truediv cpu_delta system_delta;
       r' ← fmul r num_cpus;
       Ok (r' * 100)%Q
     else Ok 0%Q)
    KeyError_or_TypeError
    (fun _ => Ok 0%Q).

Definition calculate_ram_percent (stats : pyval) : result Q :=
  try_except
    (memory_stats ← subscript stats "memory_stats";
     mem_usage ← get memory_stats "usage" (PInt 0);
     memory_stats' ← subscript stats "memory_stats";
     mem_limit ← get memory_stats' "limit" (PInt 1);
     r ← truediv mem_usage mem_limit;
     Ok (r * 100)%Q)
    KeyError_or_TypeError
    (fun _ => Ok 0%Q).

Definition unknown_snapshot : Snapshot :=
  {| snap_id := "unknown"; snap_name := "unknown"; snap_status := "error";
     cpu := "0.00"; ram := "0.00" |}.

Definition basic_snapshot (c : Container) : Snapshot :=
  {| snap_id := short_id c; snap_name := name c; snap_status := status c;
     cpu := "0.00"; ram := "0.00" |}.

(** The body of the [try] block of [get_container_stats]. *)
Definition sample (rt : Runtime) (c : Container) : result Snapshot * list effect :=
  if negb (bool_decide (status c = "running")) then
    (Ok (basic_snapshot c), [])
  else
    (stats ← rt_stats rt c;
     cpu_v ← calculate_cpu_percent stats;
     ram_v ← calculate_ram_percent stats;
     Ok {| snap_id := short_id c; snap_name := name c; snap_status := status c;
           cpu := format_2f cpu_v; ram := format_2f ram_v |},
     [Call (StatsOnce c)]).

(** [get_container_stats(container)]: the snapshot, or [None] when the
    container is gone, and what was done to obtain it.  Reading the
    attributes of a handle does not fail in this model, so the innermost
    [except:] of the source is not reachable. *)
Definition get_container_stats (rt : Runtime) (container : option Container)
    : option Snapshot * list effect :=
  match container with
  | None =>
    (Some unknown_snapshot,
     [Log WARNING "get_container_stats called with None container"])
  | Some c =>
    match sample rt c with
    | (Ok s, tr) => (Some s, tr)
    | (Raise NotFound, tr) =>
      (None,
       tr ++ [Log DEBUG ("Container " +:+ name c +:+ " not found (likely removed)")])
    | (Raise e, tr) =>
      (Some (basic_snapshot c),
       tr ++ [Log DEBUG ("Error getting stats for container " +:+ name c +:+ ": "
                         +:+ exn_str e)])
    end
  end.

End Stats.

(* ------------------------------------------------------------------ *)
(** ** docker_utils.py: the auto-scaler and the polling loop           *)
(* ------------------------------------------------------------------ *)
Module Scaler.
Import Py Docker Stats.

(** The module-level configuration, which the GUI may rewrite at any time. *)
Record Globals := {
  CPU_LIMIT : Q;
  RAM_LIMIT : Q;
  CLONE_NUM : Z;
  SLEEP_TIME : Q;
  AUTO_SCALE_ENABLED : bool;
  CONFIG_VERSION : Z }.

Definition initial_globals : Globals :=
  {| CPU_LIMIT := 50; RAM_LIMIT := 5; CLONE_NUM := 2; SLEEP_TIME := 1;
     AUTO_SCALE_ENABLED := true; CONFIG_VERSION := 0 |}.

Definition APP_CONTAINER_NAME_PREFIX : string := "dmm-".
Definition APP_CREATED_BY_LABEL : string := "docker-monitor-manager".

Definition is_clone_container (container : option Container) : bool :=
  match container with
  | None => false
  | Some c =>
    bool_decide (labels c !! "dmm.is_clone" = Some "true")
    && bool_decide (is_Some (labels c !! "dmm.parent_container"))
  end.

Definition get_parent_container_name (container : option Container) : string :=
  match container with
  | None => ""
  | Some c => default "" (labels c !! "dmm.parent_container")
  end.

(** [[c for c in all_containers if is_clone_container(c) and
      get_parent_container_name(c) == container_name]] *)
Definition existing_clones (container_name : string) (all_containers : list Container)
    : list Container :=
  List.filter
    (fun c => is_clone_container (Some c)
              && bool_decide (get_parent_container_name (Some c) = container_name))
    all_containers.

(** The local function [delete_clone] of [delete_clones]. *)
Definition delete_clone (rt : Runtime) (clone : Container) : list effect :=
  let failed (e : exn) :=
    match e with
    | NotFound => Log DEBUG ("Clone container " +:+ name clone +:+ " already removed")
    | _ => Log ERROR ("Failed to delete clone container " +:+ name clone +:+ ": "
                      +:+ exn_str e)
    end in
  Call (Stop clone 10) ::
  match rt_stop rt clone with
  | Raise e => [failed e]
  | Ok _ =>
    Call (Remove clone) ::
    match rt_remove rt clone with
    | Raise e => [failed e]
    | Ok _ => [Log INFO ("Deleted clone container " +:+ name clone +:+ ".")]
    end
  end.

Definition delete_clones (rt : Runtime) (container : option Container)
    (all_containers : option (list Container)) : list effect :=
  match container, all_containers with
  | Some c, Some all =>
    flat_map (delete_clone rt) (existing_clones (name c) all)
  | _, _ => [Log WARNING "delete_clones called with None parameter"]
  end.

(** The image a clone is started from: the first tag, else the image id. *)
Definition clone_image (c : Container) : option string :=
  match image c with
  | Some i => match tags i with t :: _ => Some t | [] => Some (image_id i) end
  | None => None
  end.

(** [container.attrs.get('Config', {}).get('Cmd')], [None] on any error. *)
Definition clone_cmd (c : Container) : pyval :=
  match (config ← get (attrs c) "Config" (PDict []); get config "Cmd" PNone) with
  | Ok v => v
  | Raise _ => PNone
  end.

Definition clone_labels (container_name : string) : gmap string string :=
  list_to_map [("dmm.is_clone", "true");
               ("dmm.parent_container", container_name);
               ("dmm.created_by", APP_CREATED_BY_LABEL)].

(** [scale_container(container, all_containers)].  [g] is what the globals
    hold while it runs, [uuid] the eight hex digits of the fresh name. *)
Definition scale_container (rt : Runtime) (g : Globals) (uuid : string)
    (container : option Container) (all_containers : option (list Container))
    : list effect :=
  match container, all_containers with
  | Some c, Some all =>
    let container_name := name c in
    let clones := existing_clones container_name all in
    if (CLONE_NUM g <=? Z.of_nat (length clones))%Z then
      [Log INFO ("Max clones reached for '" +:+ container_name
                 +:+ "'. Pausing original and deleting clones.");
       Call (Pause c);
       match rt_pause rt c with
       | Ok _ => Log INFO ("Paused original container '" +:+ container_name +:+ "'.")
       | Raise e =>
         if is_APIError e
         then Log ERROR ("Failed to pause original container '" +:+ container_name
                         +:+ "': " +:+ exn_str e)
         else Log ERROR ("Unexpected error pausing container '" +:+ container_name
                         +:+ "': " +:+ exn_str e)
       end]
      ++ delete_clones rt container all_containers
    else if negb (AUTO_SCALE_ENABLED g) then
      [Log INFO ("Auto-scaling is disabled; skipping clone creation for '"
                 +:+ container_name +:+ "'")]
    else
      let clones_to_create := Z.max 0 (CLONE_NUM g - Z.of_nat (length clones)) in
      if (clones_to_create <=? 0)%Z then
        [Log INFO ("No clones needed for '" +:+ container_name
                   +:+ "' (already at max).")]
      else
        let clone_name := container_name +:+ "-clone-" +:+ uuid in
        let labels := clone_labels container_name in
        [Call (Run (clone_image c) (clone_cmd c) clone_name labels);
         match rt_run rt (clone_image c) (clone_cmd c) clone_name labels with
         | Ok new_container =>
           Log INFO ("Created clone container '" +:+ name new_container
                     +:+ "' for parent '" +:+ container_name +:+ "'.")
         | Raise e =>
           if is_APIError e
           then Log ERROR ("Docker API error creating clone for '" +:+ container_name
                           +:+ "': " +:+ exn_str e)
           else Log ERROR ("Failed to create clone for '" +:+ container_name
                           +:+ "': " +:+ exn_str e)
         end]
  | _, _ => [Log WARNING "scale_container called with None parameter"]
  end.

(** One pass over [all_containers]: [(container, stats)] pairs and the trace. *)
Definition sample_all (rt : Runtime) (all_containers : list Container)
    : list (Container * option Snapshot) * list effect :=
  (map (fun c => (c, (get_container_stats rt (Some c)).1)) all_containers,
   flat_map (fun c => (get_container_stats rt (Some c)).2) all_containers).

(** [cpu_val > CPU_LIMIT or ram_val > RAM_LIMIT] on the sampled strings;
    [None] when [float()] raises. *)
Definition overloaded (g : Globals) (stats : Snapshot) : option bool :=
  match float_of_str (cpu stats), float_of_str (ram stats) with
  | Ok cpu_val, Ok ram_val =>
    Some (Qltb (CPU_LIMIT g) cpu_val || Qltb (RAM_LIMIT g) ram_val)
  | _, _ => None
  end.

(** The body of the first loop of the auto-scaling block: whether the pair
    is appended to [running_overloaded]. *)
Definition select_overloaded (g : Globals) (p : Container * option Snapshot)
    : option (Container * Snapshot) :=
  match p with
  | (_, None) => None
  | (c, Some stats) =>
    if negb (bool_decide (status c = "running")) || is_clone_container (Some c)
    then None
    else match overloaded g stats with
         | Some true => Some (c, stats)
         | _ => None
         end
  end.

(** The second loop.  [observed] is the configuration version captured
    before the first loop; [gk k] is what the globals hold while the [k]-th
    overloaded container is handled. *)
Fixpoint handle_overloaded (rt : Runtime) (observed_config_version : Z)
    (gk : nat -> Globals) (uuid : nat -> string) (all_containers : list Container)
    (k : nat) (running_overloaded : list (Container * Snapshot)) : list effect :=
  match running_overloaded with
  | [] => []
  | (c, stats) :: rest =>
    (if negb (AUTO_SCALE_ENABLED (gk k)) then
       [Log INFO ("Auto-scaling disabled during handling; skipping scaling for '"
                  +:+ name c +:+ "'")]
     else
       Log INFO ("Container " +:+ name c +:+ " overloaded (CPU: " +:+ cpu stats
                 +:+ "%, RAM: " +:+ ram stats +:+ "%). Scaling...") ::
       (if negb (CONFIG_VERSION (gk k) =? observed_config_version)%Z then
          [Log INFO ("Configuration changed during handling; skipping scaling for '"
                     +:+ name c +:+ "'")]
        else scale_container rt (gk k) (uuid k) (Some c) (Some all_containers)))
    ++ handle_overloaded rt observed_config_version gk uuid all_containers (S k) rest
  end.

(** The block [# --- Auto-scaling logic ---] of [monitor_thread].  [g0] is
    what the globals hold during the detection pass. *)
Definition auto_scaling (rt : Runtime) (g0 : Globals) (gk : nat -> Globals)
    (uuid : nat -> string) (all_containers : list Container)
    (container_stats_pairs : list (Container * option Snapshot)) : list effect :=
  if AUTO_SCALE_ENABLED g0 then
    let observed_config_version := CONFIG_VERSION g0 in
    let running_overloaded := omap (select_overloaded g0) container_stats_pairs in
    handle_overloaded rt observed_config_version gk uuid all_containers 0
      running_overloaded
  else [].

(** One iteration of the [while True] loop of [monitor_thread];
    [listing] is the answer of [client.containers.list(all=True)]. *)
Definition monitor_iteration (rt : Runtime) (g0 : Globals) (gk : nat -> Globals)
    (uuid : nat -> string) (listing : result (list Container)) : list effect :=
  match listing with
  | Raise e => [Log ERROR ("Error in monitor loop: " +:+ exn_str e)]
  | Ok all_containers =>
    let '(container_stats_pairs, sampling) := sample_all rt all_containers in
    let stats_payload := omap snd container_stats_pairs in
    sampling
    ++ auto_scaling rt g0 gk uuid all_containers container_stats_pairs
    ++ [UpdateContainers stats_payload; Offer "stats" stats_payload]
  end
  ++ [Sleep (SLEEP_TIME g0)].

End Scaler.

(* ------------------------------------------------------------------ *)
(** ** observer.py: the subject and its observers                      *)
(* ------------------------------------------------------------------ *)
Module Observer.
Import Py Docker.

(** Observers are compared by identity. *)
Definition obs := nat.

Section Subject.
Context {D : Type}.

(** [notification_data] *)
Record Notification := {
  event_type : string;
  data : D;
  kwargs : list (string * D) }.

(** What a subject does, in order: a call of [observer.update], a record
    of the logging module, or the debug record
    ["<class> notifying <count> observers of '<event_type>'"] that opens
    every notification pass. *)
Inductive event :=
| Update (o : obs) (n : Notification)
| Logged (lv : level) (msg : string)
| Notifying (count : nat) (event_type : string).

Record Subject := {
  _observers : list obs;
  trace : list event }.

Definition init : Subject := {| _observers := []; trace := [] |}.

Definition logging (lv : level) (msg : string) (s : Subject) : Subject :=
  {| _observers := _observers s; trace := trace s ++ [Logged lv msg] |}.

Definition attach (s : Subject) (observer : obs) : Subject :=
  if bool_decide (observer ∈ _observers s) then s
  else logging DEBUG "Observer attached"
         {| _observers := _observers s ++ [observer]; trace := trace s |}.

(** [list.remove(x)]: the first occurrence. *)
Fixpoint list_remove (x : obs) (l : list obs) : list obs :=
  match l with
  | [] => []
  | y :: rest => if bool_decide (x = y) then rest else y :: list_remove x rest
  end.

Definition detach (s : Subject) (observer : obs) : Subject :=
  if bool_decide (observer ∈ _observers s) then
    logging DEBUG "Observer detached"
      {| _observers := list_remove observer (_observers s); trace := trace s |}
  else s.

(** The notifications an observer was sent so far. *)
Definition received (o : obs) (tr : list event) : list Notification :=
  omap (fun e => match e with
                 | Update o' n => if bool_decide (o = o') then Some n else None
                 | _ => None
                 end) tr.

(** The event types of the notification passes recorded in a trace. *)
Definition emitted (tr : list event) : list string :=
  omap (fun e => match e with Notifying _ et => Some et | _ => None end) tr.

(** The observers' code: [update o earlier n] is what [o.update(subject, n)]
    does after [o] was sent [earlier]: it returns or raises. *)
Variable update : obs -> list Notification -> Notification -> result unit.

(** The local function [notify_observer]: [None] on success, the observer
    on failure; [except Exception] catches every class of [exn]. *)
Definition notify_observer (n : Notification) (tr : list event) (observer : obs)
    : result (option obs) * list event :=
  let r := update observer (received observer tr) n in
  (try_except (_ ← r; Ok None) (fun _ => true) (fun _ => Ok (Some observer)),
   tr ++ Update observer n ::
     match r with
     | Ok _ => []
     | Raise e => [Logged ERROR ("Error notifying observer: " +:+ exn_str e)]
     end).

(** [[obs for obs in (notify_observer(o) for o in observers) if obs is not None]] *)
Fixpoint notify_each (n : Notification) (tr : list event) (observers : list obs)
    : result (list obs) * list event :=
  match observers with
  | [] => (Ok [], tr)
  | o :: rest =>
    match notify_observer n tr o with
    | (Raise e, tr1) => (Raise e, tr1)
    | (Ok r, tr1) =>
      let '(failed, tr2) := notify_each n tr1 rest in
      (failed ← failed; Ok (option_list r ++ failed), tr2)
    end
  end.

(** [hash(o)]: an observer can be hashed unless its class sets [__hash__]
    to [None], as a class that defines [__eq__] alone does; hashing such an
    observer raises [TypeError]. *)
Variable hashable : obs -> bool.

(** [set(l)] hashes the elements of [l], in order. *)
Definition set (l : list obs) : result (list obs) :=
  if forallb hashable l then Ok (remove_dups l) else Raise TypeError.

(** [[o for o in l if o not in failed_set]]: the membership test hashes
    each [o]. *)
Definition not_in_set (failed_set : list obs) (l : list obs) : result (list obs) :=
  if forallb hashable l then Ok (filter (fun o => o ∉ failed_set) l)
  else Raise TypeError.

(** [notifyObservers].  The [update] calls sit in a [try]; the removal of
    the failed observers does not, so an exception of [set] or of the
    membership test leaves the method, with the observer list as it was. *)
Definition notifyObservers (s : Subject) (event_type : string) (data : D)
    (kwargs : list (string * D)) : result unit * Subject :=
  let observers := _observers s in
  let notification_data :=
    {| event_type := event_type; data := data; kwargs := kwargs |} in
  let tr := trace s ++ [Notifying (length observers) event_type] in
  match notify_each notification_data tr observers with
  | (Raise e, tr1) => (Raise e, {| _observers := _observers s; trace := tr1 |})
  | (Ok failed_observers, tr1) =>
    match failed_observers with
    | [] => (Ok (), {| _observers := _observers s; trace := tr1 |})
    | _ =>
      match (failed_set ← set failed_observers;
             kept ← not_in_set failed_set (_observers s);
             Ok (failed_set, kept)) with
      | Raise e => (Raise e, {| _observers := _observers s; trace := tr1 |})
      | Ok (failed_set, kept) =>
        (Ok (),
         {| _observers := kept;
            trace :=
              tr1 ++ map (fun _ => Logged WARNING
                                     "Removed failing observer after update error")
                         failed_set |})
      end
    end
  end.

Definition get_observer_count (s : Subject) : nat := length (_observers s).

End Subject.
Arguments Notification D : clear implicits.
Arguments event D : clear implicits.
Arguments Subject D : clear implicits.

End Observer.

(* ------------------------------------------------------------------ *)
(** ** docker_controller.py: the data controller                       *)
(* ------------------------------------------------------------------ *)
Module Controller.
Import Py Docker Observer.

(** Python objects live in a store; lists and dictionaries are reached
    through references, so that two names may denote the same object. *)
Inductive val :=
| VNone
| VBool (b : bool)
| VInt (z : Z)
| VStr (s : string)
| VRef (l : nat).

Inductive obj :=
| OList (items : list val)
| ODict (kvs : list (string * val)).

Abbreviation heap := (list obj).

(** A new object gets the next free address. *)
Definition alloc (h : heap) (o : obj) : nat * heap := (length h, h ++ [o]).

(** [isinstance(v, list)] *)
Definition is_list (h : heap) (v : val) : bool :=
  match v with
  | VRef l => match h !! l with Some (OList _) => true | _ => false end
  | _ => false
  end.

(** [len(v)] *)
Definition len (h : heap) (v : val) : result nat :=
  match v with
  | VStr s => Ok (String.length s)
  | VRef l =>
    match h !! l with
    | Some (OList items) => Ok (length items)
    | Some (ODict kvs) => Ok (length kvs)
    | None => Raise TypeError
    end
  | _ => Raise TypeError
  end.

(** [v.copy()]: a new object with the same elements (a shallow copy). *)
Definition copy (h : heap) (v : val) : result val * heap :=
  match v with
  | VRef l =>
    match h !! l with
    | Some o => let '(l', h') := alloc h o in (Ok (VRef l'), h')
    | None => (Raise AttributeError, h)
    end
  | _ => (Raise AttributeError, h)
  end.

(** The value an object denotes, read through the store down to [fuel]
    levels of nesting; [None] on a dangling reference or deeper nesting. *)
Fixpoint value (fuel : nat) (h : heap) (v : val) : option pyval :=
  match v with
  | VNone => Some PNone
  | VBool b => Some (PBool b)
  | VInt z => Some (PInt z)
  | VStr s => Some (PStr s)
  | VRef l =>
    match fuel with
    | O => None
    | S fuel' =>
      match h !! l with
      | Some (OList items) => PList <$> mapM (value fuel' h) items
      | Some (ODict kvs) =>
        PDict <$> mapM (fun kv => pair kv.1 <$> value fuel' h kv.2) kvs
      | None => None
      end
    end
  end.

Inductive Resource := Containers | Networks | Images | Volumes.

#[global] Instance Resource_eq_dec : EqDecision Resource.
Proof. solve_decision. Defined.

Definition resource_name (r : Resource) : string :=
  match r with
  | Containers => "containers" | Networks => "networks"
  | Images => "images" | Volumes => "volumes"
  end.

Definition Resource_title (r : Resource) : string :=
  match r with
  | Containers => "Container" | Networks => "Network"
  | Images => "Image" | Volumes => "Volume"
  end.

(** The controller is a [Subject] with one cache per resource type. *)
Record DockerDataController := {
  subject : Subject val;
  store : heap;
  _containers_cache : val;
  _networks_cache : val;
  _images_cache : val;
  _volumes_cache : val }.

(** [__init__]: four empty lists, no observer. *)
Definition new : DockerDataController :=
  {| subject := logging INFO "DockerDataController initialized" init;
     store := [OList []; OList []; OList []; OList []];
     _containers_cache := VRef 0; _networks_cache := VRef 1;
     _images_cache := VRef 2; _volumes_cache := VRef 3 |}.

Definition cache (r : Resource) (c : DockerDataController) : val :=
  match r with
  | Containers => _containers_cache c | Networks => _networks_cache c
  | Images => _images_cache c | Volumes => _volumes_cache c
  end.

Definition set_cache (r : Resource) (v : val) (c : DockerDataController)
    : DockerDataController :=
  {| subject := subject c; store := store c;
     _containers_cache := if r is Containers then v else _containers_cache c;
     _networks_cache := if r is Networks then v else _networks_cache c;
     _images_cache := if r is Images then v else _images_cache c;
     _volumes_cache := if r is Volumes then v else _volumes_cache c |}.

Definition with_subject (s : Subject val) (c : DockerDataController)
    : DockerDataController :=
  {| subject := s; store := store c;
     _containers_cache := _containers_cache c; _networks_cache := _networks_cache c;
     _images_cache := _images_cache c; _volumes_cache := _volumes_cache c |}.

Definition with_store (h : heap) (c : DockerDataController) : DockerDataController :=
  {| subject := subject c; store := h;
     _containers_cache := _containers_cache c; _networks_cache := _networks_cache c;
     _images_cache := _images_cache c; _volumes_cache := _volumes_cache c |}.

Definition log (lv : level) (msg : string) (c : DockerDataController)
    : DockerDataController :=
  with_subject (logging lv msg (subject c)) c.

Section Methods.
Variable update : obs -> list (Notification val) -> Notification val -> result unit.
Variable hashable : obs -> bool.

(** [update_containers], [update_networks], [update_images] and
    [update_volumes]: the four methods differ in the cache and in the names. *)
Definition update_resource (r : Resource) (c : DockerDataController) (new_data : val)
    : result unit * DockerDataController :=
  match new_data with
  | VNone =>
    (Ok (), log WARNING ("update_" +:+ resource_name r +:+ " called with None") c)
  | _ =>
    if negb (is_list (store c) new_data) then
      (Ok (), log ERROR ("update_" +:+ resource_name r +:+ " expected list") c)
    else
      let c1 := set_cache r new_data c in
      match notifyObservers update hashable (subject c1)
              (resource_name r +:+ "_updated") new_data [] with
      | (Raise e, s) => (Raise e, with_subject s c1)
      | (Ok _, s) =>
        match len (store c1) new_data with
        | Raise e => (Raise e, with_subject s c1)
        | Ok k =>
          (Ok (),
           log DEBUG (Resource_title r +:+ " data updated: " +:+ pretty k +:+ " "
                      +:+ resource_name r)
             (with_subject s c1))
        end
      end
  end.

Definition update_containers := update_resource Containers.
Definition update_networks := update_resource Networks.
Definition update_images := update_resource Images.
Definition update_volumes := update_resource Volumes.

(** [get_containers], [get_networks], [get_images], [get_volumes]:
    [return self._<resource>_cache.copy()] *)
Definition get_resource (r : Resource) (c : DockerDataController)
    : result val * DockerDataController :=
  let '(v, h) := copy (store c) (cache r c) in (v, with_store h c).

Definition get_containers := get_resource Containers.
Definition get_networks := get_resource Networks.
Definition get_images := get_resource Images.
Definition get_volumes := get_resource Volumes.

(** One [if <resource> is not None:] block of [update_all_resources]. *)
Definition batch_one (r : Resource) (v : val)
    (st : DockerDataController * list string)
    : result (DockerDataController * list string) :=
  let '(c, updated_types) := st in
  match v with
  | VNone => Ok (c, updated_types)
  | _ =>
    let c1 := set_cache r v c in
    match len (store c1) v with
    | Raise e => Raise e
    | Ok k => Ok (c1, updated_types ++ [pretty k +:+ " " +:+ resource_name r])
    end
  end.

(** The state a raising [batch_one] leaves behind: the cache is already set. *)
Definition batch_one_state (r : Resource) (v : val) (c : DockerDataController)
    : DockerDataController :=
  match v with VNone => c | _ => set_cache r v c end.

Definition update_all_resources (c : DockerDataController)
    (containers networks images volumes : val)
    : result unit * DockerDataController :=
  match batch_one Containers containers (c, []) with
  | Raise e => (Raise e, batch_one_state Containers containers c)
  | Ok (c1, u1) =>
  match batch_one Networks networks (c1, u1) with
  | Raise e => (Raise e, batch_one_state Networks networks c1)
  | Ok (c2, u2) =>
  match batch_one Images images (c2, u2) with
  | Raise e => (Raise e, batch_one_state Images images c2)
  | Ok (c3, u3) =>
  match batch_one Volumes volumes (c3, u3) with
  | Raise e => (Raise e, batch_one_state Volumes volumes c3)
  | Ok (c4, updated_types) =>
    match updated_types with
    | [] => (Ok (), c4)
    | _ =>
      let '(d, h) :=
        alloc (store c4)
          (ODict [("containers", containers); ("networks", networks);
                  ("images", images); ("volumes", volumes)]) in
      let c5 := with_store h c4 in
      match notifyObservers update hashable (subject c5) "batch_updated" (VRef d) [] with
      | (Raise e, s) => (Raise e, with_subject s c5)
      | (Ok _, s) =>
        (Ok (),
         log DEBUG ("Batch update: " +:+ String.concat ", " updated_types)
           (with_subject s c5))
      end
    end
  end end end end.

End Methods.

End Controller.

(* ------------------------------------------------------------------ *)
(** ** worker.py: the bounded task runner                              *)
(* ------------------------------------------------------------------ *)
Module Worker.
Import Py Docker.

Definition _MAX_WORKERS : Z := 16.
Definition _MAX_PENDING : Z := 128.

(** [threading.BoundedSemaphore]: the counter and its initial value. *)
Record BoundedSemaphore := { _value : Z; _initial_value : Z }.

(** [acquire(blocking=False)] *)
Definition acquire_nowait (s : BoundedSemaphore) : bool * BoundedSemaphore :=
  if (0 <? _value s)%Z
  then (true, {| _value := _value s - 1; _initial_value := _initial_value s |})
  else (false, s).

(** [acquire()]: [None] while the caller has to wait. *)
Definition acquire (s : BoundedSemaphore) : option BoundedSemaphore :=
  if (0 <? _value s)%Z
  then Some {| _value := _value s - 1; _initial_value := _initial_value s |}
  else None.

(** [release()]: a bounded semaphore raises when released too often. *)
Definition release (s : BoundedSemaphore) : result unit * BoundedSemaphore :=
  if (_initial_value s <=? _value s)%Z then (Raise ValueError, s)
  else (Ok (), {| _value := _value s + 1; _initial_value := _initial_value s |}).

(** The Tk root: what [tk_root.after(0, f)] does. *)
Record Tk := { after : result unit }.

(** A callback of the caller: what calling it does. *)
Record Callback := { invoke : result unit }.

(** The closures of one call of [run_in_thread]; [fn] is what [fn()] does
    and [tid] names the task in the trace. *)
Record Task := {
  tid : nat;
  fn : result pyval;
  on_done : option Callback;
  on_error : option Callback;
  tk_root : option Tk }.

Inductive which := OnDone | OnError.
Inductive delivery :=
| Direct   (* cb(arg), on the calling thread *)
| After.   (* tk_root.after(0, lambda: cb(arg)) *)

Inductive event :=
| Ran (tid : nat)                                   (* fn() was called *)
| Invoked (w : which) (d : delivery) (arg : option (pyval + exn))
| Logged (lv : level) (msg : string).

(** The argument as [_schedule_callback] tests it: [arg is None]. *)
Definition arg_of_result (v : pyval) : option (pyval + exn) :=
  match v with PNone => None | _ => Some (inl v) end.

Definition _schedule_callback (tk_root : option Tk) (w : which) (cb : Callback)
    (arg : option (pyval + exn)) : list event :=
  match tk_root with
  | Some tk =>
    match after tk with
    | Ok _ => [Invoked w After arg]
    | Raise RuntimeError =>
      Logged WARNING "Tk mainloop not available; invoking callback synchronously" ::
      Invoked w Direct arg ::
      match invoke cb with
      | Ok _ => []
      | Raise _ =>
        [Logged ERROR
           "Error invoking callback synchronously after tk mainloop unavailable"]
      end
    | Raise _ => [Logged ERROR "Error scheduling callback"]
    end
  | None =>
    Invoked w Direct arg ::
    match invoke cb with
    | Ok _ => []
    | Raise _ => [Logged ERROR "Error scheduling callback"]
    end
  end.

(** The runner: the semaphore, the tasks the executor accepted and did not
    finish yet, and what happened so far. *)
Record Runner := {
  _pending_semaphore : BoundedSemaphore;
  accepted : list Task;
  trace : list event }.

Definition start : Runner :=
  {| _pending_semaphore := {| _value := _MAX_PENDING; _initial_value := _MAX_PENDING |};
     accepted := []; trace := [] |}.

(** The pending-task count: the permits that are taken. *)
Definition pending (r : Runner) : Z :=
  _initial_value (_pending_semaphore r) - _value (_pending_semaphore r).

Inductive returned := Future | ReturnedNone | Waits.

(** Releasing the permit, as both [finally:] and the submission failure
    path do it, with the message logged when [release] raises. *)
Definition release_permit (s : BoundedSemaphore) (msg : option string)
    : BoundedSemaphore * list event :=
  match release s with
  | (Ok _, s') => (s', [])
  | (Raise _, s') => (s', match msg with Some m => [Logged ERROR m] | None => [] end)
  end.

(** [run_in_thread(fn, on_done, on_error, tk_root, block)]; [submit] is what
    [_executor.submit(_task)] does. *)
Definition run_in_thread (submit : result unit) (r : Runner) (t : Task) (block : bool)
    : returned * Runner :=
  let acquisition :=
    if block then
      match acquire (_pending_semaphore r) with
      | Some s => Some (true, s)
      | None => None
      end
    else Some (acquire_nowait (_pending_semaphore r)) in
  match acquisition with
  | None => (Waits, r)
  | Some (false, s) =>
    (ReturnedNone,
     {| _pending_semaphore := s; accepted := accepted r;
        trace := trace r
          ++ Logged WARNING "Background task queue is full; dropping task"
          :: match on_error t with
             | Some cb =>
               _schedule_callback (tk_root t) OnError cb
                 (Some (inr (TaskQueueFull "task queue full")))
             | None => []
             end |})
  | Some (true, s) =>
    match submit with
    | Ok _ =>
      (Future,
       {| _pending_semaphore := s; accepted := accepted r ++ [t]; trace := trace r |})
    | Raise e =>
      let '(s', _) := release_permit s None in
      (ReturnedNone,
       {| _pending_semaphore := s'; accepted := accepted r;
          trace := trace r
            ++ Logged ERROR "Failed to submit background task"
            :: match on_error t with
               | Some cb => _schedule_callback (tk_root t) OnError cb (Some (inr e))
               | None => []
               end |})
    end
  end.

(** The closure [_task], run by a worker of the pool. *)
Definition _task (t : Task) (s : BoundedSemaphore) : BoundedSemaphore * list event :=
  let body :=
    Ran (tid t) ::
    match fn t with
    | Ok result =>
      match on_done t with
      | Some cb => _schedule_callback (tk_root t) OnDone cb (arg_of_result result)
      | None => []
      end
    | Raise e =>
      Logged ERROR "Error in background task" ::
      match on_error t with
      | Some cb => _schedule_callback (tk_root t) OnError cb (Some (inr e))
      | None => []
      end
    end in
  let '(s', released) :=
    release_permit s (Some "Error releasing pending semaphore") in
  (s', body ++ released).

(** A worker takes the [i]-th accepted task and runs it to its end. *)
Definition run_task (i : nat) (r : Runner) : Runner :=
  match accepted r !! i with
  | None => r
  | Some t =>
    let '(s, evs) := _task t (_pending_semaphore r) in
    {| _pending_semaphore := s; accepted := delete i (accepted r);
       trace := trace r ++ evs |}
  end.

(** What can happen to the runner: a submission or the end of a task. *)
Inductive step : Runner -> Runner -> Prop :=
| step_submit submit r t block :
    step r (run_in_thread submit r t block).2
| step_run i r :
    step r (run_task i r).

Inductive reachable : Runner -> Prop :=
| reachable_start : reachable start
| reachable_step r r' : reachable r -> step r r' -> reachable r'.

End Worker.

(* ------------------------------------------------------------------ *)
(** ** docker_utils.py: the event listener                             *)
(* ------------------------------------------------------------------ *)
Module Events.
Import Py Docker Scaler.

Definition relevant_events : list string :=
  ["create"; "start"; "stop"; "die"; "destroy"; "pause"; "unpause"; "kill"; "restart"].

Definition MIN_REFRESH_INTERVAL : Q := 1 # 2.

Inductive effect :=
| Logged (lv : level) (msg : string)
| NotifyDockerEvent (event : pyval)      (* controller.notify_docker_event(event) *)
| Sleep (seconds : Q)                    (* time.sleep(0.1) *)
| RunInThread (event_action : string).   (* run_in_thread(_fetch_and_notify, ...,
                                             tk_root=None, block=False) *)

(** [str(v)], as the log messages need it. *)
Definition str (v : pyval) : string :=
  match v with
  | PStr s => s
  | PNone => "None"
  | PBool b => if b then "True" else "False"
  | PInt z => pretty z
  | PFloat _ => "<float>"
  | PList _ => "<list>"
  | PDict _ => "<dict>"
  end.

(** [v in l] for a list of strings [l]. *)
Definition str_in (v : pyval) (l : list string) : bool :=
  match v with PStr s => bool_decide (s ∈ l) | _ => false end.

(** [v == s] for a string [s]. *)
Definition str_eq (v : pyval) (s : string) : bool :=
  match v with PStr s' => bool_decide (s' = s) | _ => false end.

(** [isinstance(v, str) and v.startswith(prefix)] *)
Definition str_startswith (v : pyval) (p : string) : bool :=
  match v with PStr s => String.prefix p s | _ => false end.

(** The filters at the head of the loop body: the action and the container
    name of an event that is to be handled, [None] where the code says
    [continue]. *)
Definition app_event (event : pyval)
    : result (option (string * pyval)) * list effect :=
  match (ty ← get event "Type" PNone;
         action ← get event "Action" PNone;
         Ok (ty, action)) with
  | Raise e => (Raise e, [])
  | Ok (ty, action) =>
    if negb (str_eq ty "container") || negb (str_in action relevant_events)
    then (Ok None, [])
    else
      let event_action := str action in
      match (actor ← get event "Actor" (PDict []);
             a ← get actor "Attributes" (PDict []);
             let attrs := if truthy a then a else PDict [] in
             container_name ← get attrs "name" (PStr "unknown");
             created_by ← get attrs "dmm.created_by" PNone;
             Ok (container_name, created_by)) with
      | Raise e => (Raise e, [])
      | Ok (container_name, created_by) =>
        let is_app_container :=
          str_eq created_by APP_CREATED_BY_LABEL
          || str_startswith container_name APP_CONTAINER_NAME_PREFIX in
        if negb is_app_container then
          (Ok None,
           [Logged DEBUG ("External Docker event ignored: " +:+ event_action
                          +:+ " on '" +:+ str container_name +:+ "'")])
        else
          (Ok (Some (event_action, container_name)),
           [Logged INFO ("Docker event detected: " +:+ event_action
                         +:+ " on container '" +:+ str container_name +:+ "'")])
      end
  end.

(** The body of [for event in client.events(decode=True)], for an event
    read when [time.time()] is [current_time]: the new [last_refresh_time]
    and what was done. *)
Definition handle_event (last_refresh_time : Q) (current_time : Q) (event : pyval)
    : Q * list effect :=
  match app_event event with
  | (Raise e, tr) =>
    (last_refresh_time, tr ++ [Logged ERROR ("Error handling event: " +:+ exn_str e)])
  | (Ok None, tr) => (last_refresh_time, tr)
  | (Ok (Some (event_action, _)), tr) =>
    let tr := tr ++ [NotifyDockerEvent event] in
    if Qltb (current_time - last_refresh_time) MIN_REFRESH_INTERVAL then
      (last_refresh_time,
       tr ++ [Logged DEBUG ("Skipping refresh due to debounce (last refresh "
                            +:+ format_2f (current_time - last_refresh_time)
                            +:+ "s ago)")])
    else
      (current_time,
       tr ++ (if bool_decide (event_action ∈ ["create"; "start"])
              then [Sleep (1 # 10)] else [])
          ++ [RunInThread event_action])
  end.

(** The loop over the event stream, each event with the time it is read at. *)
Fixpoint listen (last_refresh_time : Q) (stream : list (Q * pyval))
    : Q * list effect :=
  match stream with
  | [] => (last_refresh_time, [])
  | (current_time, event) :: rest =>
    let '(t, tr) := handle_event last_refresh_time current_time event in
    let '(t', tr') := listen t rest in
    (t', tr ++ tr')
  end.

(** [docker_events_listener] starts with [last_refresh_time = 0]. *)
Definition docker_events_listener (stream : list (Q * pyval)) : Q * list effect :=
  let '(t, tr) := listen 0 stream in
  (t, Logged INFO "Docker events listener started" :: tr).

End Events.

(* ------------------------------------------------------------------ *)
(** ** docker_utils.py: the bounded queues and the cleanup             *)
(* ------------------------------------------------------------------ *)
Module Queues.
Import Py Docker.

(** [queue.Full] and [queue.Empty] *)
Definition Full : exn := OtherError "queue.Full".
Definition Empty : exn := OtherError "queue.Empty".

(** [queue.Queue(maxsize)]: the entries, oldest first; a [maxsize] of zero
    or less means no bound. *)
Record Queue (A : Type) := { maxsize : Z; entries : list A }.
Arguments maxsize {A} q.
Arguments entries {A} q.

Section Ops.
Context {A : Type}.

Definition full (q : Queue A) : bool :=
  (0 <? maxsize q)%Z && (maxsize q <=? Z.of_nat (length (entries q)))%Z.

Definition put_nowait (q : Queue A) (item : A) : result (Queue A) :=
  if full q then Raise Full
  else Ok {| maxsize := maxsize q; entries := entries q ++ [item] |}.

Definition get_nowait (q : Queue A) : result (A * Queue A) :=
  match entries q with
  | [] => Raise Empty
  | x :: rest => Ok (x, {| maxsize := maxsize q; entries := rest |})
  end.

(** [_offer_latest(q, item, queue_name)]: the queue afterwards and the
    records logged. *)
Definition _offer_latest (q : Queue A) (item : A) (queue_name : string)
    : Queue A * list effect :=
  match put_nowait q item with
  | Ok q' => (q', [])
  | Raise _ =>
    let q1 := match get_nowait q with
              | Ok (_, q1) => q1
              | Raise _ => q
              end in
    match put_nowait q1 item with
    | Ok q2 => (q2, [])
    | Raise _ =>
      (q1, [Log DEBUG (queue_name +:+ " queue saturated; dropping update")])
    end
  end.

End Ops.

(** [stats_queue = queue.Queue(maxsize=5)] and
    [manual_refresh_queue = queue.Queue()] *)
Definition stats_queue : Queue (list Snapshot) := {| maxsize := 5; entries := [] |}.
Definition manual_refresh_queue : Queue (list Snapshot) :=
  {| maxsize := 0; entries := [] |}.

End Queues.

Module Cleanup.
Import Py Docker.
Import Events (str).

Inductive prune_call :=
| PruneContainers                 (* client.containers.prune() *)
| PruneImages (dangling : bool)   (* client.images.prune(filters={'dangling': True}) *)
| PruneVolumes                    (* client.volumes.prune() *)
| PruneNetworks.                  (* client.networks.prune() *)

Inductive effect :=
| Pruned (c : prune_call)
| Logged (lv : level) (msg : string).

(** One [try:] block: the call, then the record built from the report
    with [.get]; any exception ends in the debug record. *)
Definition prune_step (rt : prune_call -> result pyval) (c : prune_call)
    (info : pyval -> result string) (failed : string) : list effect :=
  Pruned c ::
  match (report ← rt c; info report) with
  | Ok msg => [Logged INFO msg]
  | Raise _ => [Logged DEBUG failed]
  end.

(** [docker_cleanup()]; [rt] is what each prune call does.  The outer
    [try:] has nothing left to catch: every call sits in a [try:] of its
    own. *)
Definition docker_cleanup (rt : prune_call -> result pyval) : list effect :=
  prune_step rt PruneContainers
    (fun r => d ← get r "ContainersDeleted" PNone;
              Ok ("Pruned containers: " +:+ str d))
    "No stopped containers to prune or prune failed"
  ++ prune_step rt (PruneImages true)
    (fun r => d ← get r "ImagesDeleted" PNone;
              s ← get r "SpaceReclaimed" PNone;
              Ok ("Pruned images: " +:+ str d +:+ ", reclaimed=" +:+ str s))
    "Image prune failed"
  ++ prune_step rt PruneVolumes
    (fun r => d ← get r "VolumesDeleted" PNone;
              Ok ("Pruned volumes: " +:+ str d))
    "Volume prune failed"
  ++ prune_step rt PruneNetworks
    (fun r => d ← get r "NetworksDeleted" PNone;
              Ok ("Pruned networks: " +:+ str d))
    "Network prune failed".

End Cleanup.

(* ------------------------------------------------------------------ *)
(** ** docker_utils.py: the restarts of the event listener             *)
(* ------------------------------------------------------------------ *)
Module Listener.
Import Py Docker Events.

(** One subscription to [client.events(decode=True)]: the events it
    yields, each with the time it is read at, and the exception that ends
    it ([None]: the stream ends without one). *)
Record Session := { events : list (Q * pyval); failure : option exn }.

Definition max_restarts : nat := 5.

(** [docker_events_listener()] with its [except] clause.
    [_restart_count] is the attribute of that name on the function, [None]
    while it is not set; [sessions] are the subscriptions that the
    successive calls obtain. *)
Fixpoint docker_events_listener (_restart_count : option nat)
    (sessions : list Session) : option nat * list effect :=
  match sessions with
  | [] => (_restart_count, [])
  | s :: rest =>
    let tr := (Events.docker_events_listener (events s)).2 in
    match failure s with
    | None => (_restart_count, tr)
    | Some e =>
      let count := S (default 0 _restart_count) in
      let tr := tr ++ [Logged ERROR ("Docker events listener error: " +:+ exn_str e)] in
      if count <? max_restarts then
        let '(c, tr') := docker_events_listener (Some count) rest in
        (c,
         tr ++ [Sleep 5;
                Logged INFO ("Restarting Docker events listener (attempt "
                             +:+ pretty count +:+ "/" +:+ pretty max_restarts
                             +:+ ")...")]
            ++ tr')
      else
        (Some count,
         tr ++ [Logged CRITICAL ("Docker events listener failed "
                                 +:+ pretty max_restarts
                                 +:+ " times. Stopping automatic restarts.");
                Logged CRITICAL
                  "Please check Docker daemon status and restart the application."])
    end
  end.

End Listener.

(* ------------------------------------------------------------------ *)
(** ** docker_controller.py: clearing, counting and searching          *)
(* ------------------------------------------------------------------ *)
Module Queries.
Import Py Docker Observer Controller.

(** [for c in v]: the elements a value yields when iterated. *)
Definition iter (h : heap) (v : val) : result (list val) :=
  match v with
  | VStr s => Ok (map (fun a => VStr (String a EmptyString)) (list_ascii_of_string s))
  | VRef l =>
    match h !! l with
    | Some (OList items) => Ok items
    | Some (ODict kvs) => Ok (map (fun kv => VStr kv.1) kvs)
    | None => Raise TypeError
    end
  | _ => Raise TypeError
  end.

(** [c.get(key, dflt)]: only dictionaries have the method. *)
Definition dict_get (h : heap) (c : val) (key : string) (dflt : val) : result val :=
  match c with
  | VRef l =>
    match h !! l with
    | Some (ODict kvs) => Ok (default dflt (assoc key kvs))
    | _ => Raise AttributeError
    end
  | _ => Raise AttributeError
  end.

(** [v.startswith(p)]: only strings have the method. *)
Definition startswith (v : val) (p : string) : result bool :=
  match v with
  | VStr s => Ok (String.prefix p s)
  | _ => Raise AttributeError
  end.

(** [v == s] for a string [s] *)
Definition eq_str (v : val) (s : string) : bool :=
  match v with VStr s' => bool_decide (s' = s) | _ => false end.

(** [next((c for c in l if pred(c)), None)]: the first element on which
    the test holds; the elements after it are not looked at. *)
Fixpoint next_match (pred : val -> result bool) (l : list val) : result val :=
  match l with
  | [] => Ok VNone
  | c :: rest =>
    b ← pred c;
    if (b : bool) then Ok c else next_match pred rest
  end.

(** [[c for c in l if pred(c)]] *)
Fixpoint comprehension (pred : val -> result bool) (l : list val)
    : result (list val) :=
  match l with
  | [] => Ok []
  | c :: rest =>
    b ← pred c;
    kept ← comprehension pred rest;
    Ok (if (b : bool) then c :: kept else kept)
  end.

Definition find_container_by_id (c : DockerDataController) (container_id : string)
    : result val :=
  l ← iter (store c) (_containers_cache c);
  next_match
    (fun x =>
       i ← dict_get (store c) x "id" (VStr "");
       starts ← startswith i container_id;
       if (starts : bool) then Ok true
       else nm ← dict_get (store c) x "name" VNone; Ok (eq_str nm container_id))
    l.

Definition find_containers_by_status (c : DockerDataController) (status : string)
    : result (list val) :=
  l ← iter (store c) (_containers_cache c);
  comprehension
    (fun x => s ← dict_get (store c) x "status" VNone; Ok (eq_str s status)) l.

(** [clear_all_caches()]: four new empty lists, and no notification. *)
Definition clear_all_caches (c : DockerDataController) : DockerDataController :=
  let h := store c in
  log INFO "All Docker data caches cleared"
    {| subject := subject c;
       store := h ++ [OList []; OList []; OList []; OList []];
       _containers_cache := VRef (length h);
       _networks_cache := VRef (length h + 1);
       _images_cache := VRef (length h + 2);
       _volumes_cache := VRef (length h + 3) |}.

(** The dictionary [get_stats()] returns. *)
Record CacheStats := {
  containers : nat; networks : nat; images : nat; volumes : nat; observers : nat }.

Definition get_stats (c : DockerDataController) : result CacheStats :=
  nc ← len (store c) (_containers_cache c);
  nn ← len (store c) (_networks_cache c);
  ni ← len (store c) (_images_cache c);
  nv ← len (store c) (_volumes_cache c);
  Ok {| containers := nc; networks := nn; images := ni; volumes := nv;
        observers := get_observer_count (subject c) |}.

(** The dictionary [get_resource_counts()] returns. *)
Record Counts := {
  total_containers : nat; running_containers : nat; stopped_containers : nat;
  total_networks : nat; total_images : nat; total_volumes : nat;
  total_observers : nat }.

(** [sum(1 for c in l if pred(c))] *)
Definition count_if (pred : val -> result bool) (l : list val) : result nat :=
  kept ← comprehension pred l; Ok (length kept).

Definition get_resource_counts (c : DockerDataController) : result Counts :=
  total ← len (store c) (_containers_cache c);
  l ← iter (store c) (_containers_cache c);
  running ← count_if
    (fun x => s ← dict_get (store c) x "status" VNone; Ok (eq_str s "running")) l;
  l' ← iter (store c) (_containers_cache c);
  stopped ← count_if
    (fun x => s ← dict_get (store c) x "status" VNone;
              Ok (eq_str s "exited" || eq_str s "stopped")) l';
  nn ← len (store c) (_networks_cache c);
  ni ← len (store c) (_images_cache c);
  nv ← len (store c) (_volumes_cache c);
  Ok {| total_containers := total; running_containers := running;
        stopped_containers := stopped; total_networks := nn; total_images := ni;
        total_volumes := nv; total_observers := get_observer_count (subject c) |}.

(** [float(v)] *)
Definition to_float (v : val) : result Q :=
  match v with
  | VBool b => Ok (if b then 1 else 0)%Q
  | VInt z => Ok (inject_Z z)
  | VStr s => float_of_str s
  | _ => Raise TypeError
  end.

(** [[float(c.get(key, 0)) for c in l]] *)
Fixpoint float_values (h : heap) (key : string) (l : list val) : result (list Q) :=
  match l with
  | [] => Ok []
  | c :: rest =>
    v ← dict_get h c key (VInt 0);
    x ← to_float v;
    xs ← float_values h key rest;
    Ok (x :: xs)
  end.

(** [sum(l)] and [max(l)] on floats; [max] is only called on a list that
    is not empty. *)
Definition sum (l : list Q) : Q := foldl Qplus 0%Q l.

Definition max (l : list Q) : Q :=
  match l with
  | [] => 0%Q
  | x :: rest => foldl (fun m y => if Qltb m y then y else m) x rest
  end.

(** The dictionary [compute_resource_metrics()] returns. *)
Record Metrics := {
  avg_cpu : Q; avg_ram : Q; max_cpu : Q; max_ram : Q;
  metrics_total_containers : nat; metrics_running_containers : nat }.

Definition compute_resource_metrics (c : DockerDataController)
    : result Metrics * DockerDataController :=
  match copy (store c) (_containers_cache c) with
  | (Raise e, h) => (Raise e, with_store h c)
  | (Ok containers, h) =>
    let c' := with_store h c in
    (match len h containers with
     | Raise e => Raise e
     | Ok O =>
       Ok {| avg_cpu := 0; avg_ram := 0; max_cpu := 0; max_ram := 0;
             metrics_total_containers := 0; metrics_running_containers := 0 |}
     | Ok total =>
       l ← iter h containers;
       running ← comprehension
         (fun x => s ← dict_get h x "status" VNone; Ok (eq_str s "running")) l;
       cpu_values ← float_values h "cpu" running;
       ram_values ← float_values h "ram" running;
       let n := inject_Z (Z.of_nat (length cpu_values)) in
       let m := inject_Z (Z.of_nat (length ram_values)) in
       Ok {| avg_cpu := match cpu_values with [] => 0 | _ => sum cpu_values / n end;
             avg_ram := match ram_values with [] => 0 | _ => sum ram_values / m end;
             max_cpu := match cpu_values with [] => 0 | _ => max cpu_values end;
             max_ram := match ram_values with [] => 0 | _ => max ram_values end;
             metrics_total_containers := total;
             metrics_running_containers := length running |}
     end, c')
  end.

End Queries.

(* ================================================================== *)
(** * Properties                                                       *)
(* ================================================================== *)

Import Py Docker.

Lemma Qltb_lt (x y : Q) : Qltb x y = true <-> (x < y)%Q.
Proof.
  unfold Qltb. rewrite negb_true_iff, <- not_true_iff_false, Qle_bool_iff.
  split; [apply Qnot_le_lt | apply Qlt_not_le].
Qed.


(* ------------------------------------------------------------------ *)
(** ** The stats sampler                                               *)
(* ------------------------------------------------------------------ *)
Section StatsProperties.
Import Stats.

(** On a [memory_stats] dictionary with a numeric [usage] and a numeric
    non-zero [limit], the result is [usage / limit * 100]. *)
Lemma calculate_ram_percent_numeric (others : list (string * pyval))
    (mem : list (string * pyval)) (usage limit : pyval) (u l : Q) :
  assoc "memory_stats" others = Some (PDict mem) ->
  assoc "usage" mem = Some usage -> assoc "limit" mem = Some limit ->
  as_number usage = Some u -> as_number limit = Some l ->
  Qeqb0 l = false ->
  calculate_ram_percent (PDict others) = Ok (u / l * 100)%Q.
Proof.
  intros Hm Hu Hl Hnu Hnl Hz.
  unfold calculate_ram_percent, subscript, get, truediv.
  rewrite Hm; cbn [mbind result_bind]. rewrite Hu, Hl.
  cbn [default from_option Datatypes.id mbind result_bind].
  rewrite Hnu, Hnl, Hz. reflexivity.
Qed.

(** A [stats] object that is no dictionary, or has no [memory_stats] key,
    yields [0.0]. *)
Lemma calculate_ram_percent_missing (stats : pyval) :
  (forall kvs, stats = PDict kvs -> assoc "memory_stats" kvs = None) ->
  calculate_ram_percent stats = Ok 0%Q.
Proof.
  intros H. unfold calculate_ram_percent.
  destruct stats; try reflexivity.
  cbn [subscript]. rewrite (H kvs eq_refl). reflexivity.
Qed.

(** The defaults stand in for absent [usage] and [limit] fields. *)
Lemma calculate_ram_percent_empty :
  calculate_ram_percent (PDict [("memory_stats", PDict [])]) = Ok (0 / 1 * 100)%Q.
Proof. reflexivity. Qed.

(** C5.  The RAM percentage is not total: a [limit] of zero makes the
    division raise [ZeroDivisionError], and a [memory_stats] field that is
    no dictionary makes [.get] raise [AttributeError]; the handler catches
    [KeyError] and [TypeError] only, so both leave the function. *)
Theorem calculate_ram_percent_raises :
  calculate_ram_percent
    (PDict [("memory_stats", PDict [("usage", PInt 100); ("limit", PInt 0)])])
  = Raise ZeroDivisionError
  /\ calculate_ram_percent (PDict [("memory_stats", PNone)]) = Raise AttributeError.
Proof. split; reflexivity. Qed.

(** The sampler itself absorbs the failure: the snapshot of a running
    container whose stats carry a zero limit has both figures zeroed. *)
Lemma get_container_stats_absorbs (rt : Runtime) (c : Container) (stats : pyval) e :
  status c = "running" ->
  rt_stats rt c = Ok stats ->
  calculate_cpu_percent stats = Raise e \/
  (exists q, calculate_cpu_percent stats = Ok q) /\ calculate_ram_percent stats = Raise e ->
  e <> NotFound ->
  (get_container_stats rt (Some c)).1 = Some (basic_snapshot c).
Proof.
  intros Hs Hst He Hnf. unfold get_container_stats, sample.
  rewrite bool_decide_true by done. cbn [negb]. rewrite Hst. cbn [mbind result_bind].
  destruct He as [He | [[q He] Hr]]; rewrite He; cbn [mbind result_bind];
    [| rewrite Hr; cbn [mbind result_bind]];
    destruct e; try congruence; reflexivity.
Qed.

(** C9.  A container whose status is not ['running'] is sampled without
    any call to the runtime: the trace is empty, the snapshot carries the
    container's own status, and its cpu and ram are the string ['0.00'],
    which reads as the number zero. *)
Theorem get_container_stats_not_running (rt : Runtime) (c : Container) :
  status c <> "running" ->
  get_container_stats rt (Some c)
  = (Some {| snap_id := short_id c; snap_name := name c; snap_status := status c;
             cpu := "0.00"; ram := "0.00" |}, [])
  /\ exists q, float_of_str "0.00" = Ok q /\ (q == 0)%Q.
Proof.
  intros Hs. split.
  - unfold get_container_stats, sample.
    rewrite bool_decide_false by done. reflexivity.
  - eexists. split; [reflexivity | reflexivity].
Qed.

Definition exited_container : Container :=
  {| short_id := "0f3a9c1d2b4e"; name := "db"; status := "exited";
     labels := ∅; image := None; attrs := PDict [] |}.

(** A runtime on which every call succeeds and stats are empty. *)
Definition quiet_runtime : Runtime :=
  {| rt_stats := fun _ => Ok (PDict []);
     rt_pause := fun _ => Ok ();
     rt_stop := fun _ => Ok ();
     rt_remove := fun _ => Ok ();
     rt_run := fun _ _ n l =>
       Ok {| short_id := "new"; name := n; status := "created"; labels := l;
             image := None; attrs := PDict [] |} |}.

Lemma get_container_stats_not_running_witness :
  get_container_stats quiet_runtime (Some exited_container)
  = (Some {| snap_id := "0f3a9c1d2b4e"; snap_name := "db"; snap_status := "exited";
             cpu := "0.00"; ram := "0.00" |}, [])
  /\ exists q, float_of_str "0.00" = Ok q /\ (q == 0)%Q.
Proof.
  apply (get_container_stats_not_running quiet_runtime exited_container).
  discriminate.
Defined.

End StatsProperties.

(* ------------------------------------------------------------------ *)
(** ** The auto-scaler                                                 *)
(* ------------------------------------------------------------------ *)
Section ScalerProperties.
Import Stats Scaler.

(** The calls through which the scaler acts on the runtime. *)
Definition is_scaling_call (e : effect) : bool :=
  match e with
  | Call (Pause _) | Call (Stop _ _) | Call (Remove _) | Call (Run _ _ _ _) => true
  | _ => false
  end.

(** What the at-capacity branch of [scale_container] does. *)
Definition at_capacity (rt : Runtime) (c : Container) (all : list Container)
    : list effect :=
  [Log INFO ("Max clones reached for '" +:+ name c
             +:+ "'. Pausing original and deleting clones.");
   Call (Pause c);
   match rt_pause rt c with
   | Ok _ => Log INFO ("Paused original container '" +:+ name c +:+ "'.")
   | Raise e =>
     if is_APIError e
     then Log ERROR ("Failed to pause original container '" +:+ name c
                     +:+ "': " +:+ exn_str e)
     else Log ERROR ("Unexpected error pausing container '" +:+ name c
                     +:+ "': " +:+ exn_str e)
   end]
  ++ flat_map (delete_clone rt) (existing_clones (name c) all).

Lemma scale_container_at_capacity rt g uuid c all :
  (CLONE_NUM g <= Z.of_nat (length (existing_clones (name c) all)))%Z ->
  scale_container rt g uuid (Some c) (Some all) = at_capacity rt c all.
Proof.
  intros H. unfold scale_container, at_capacity, delete_clones.
  apply Z.leb_le in H. rewrite H. reflexivity.
Qed.

Lemma at_capacity_pauses rt c all : Call (Pause c) ∈ at_capacity rt c all.
Proof. unfold at_capacity. set_solver. Qed.

Lemma delete_clone_stops rt clone : Call (Stop clone 10) ∈ delete_clone rt clone.
Proof. unfold delete_clone. set_solver. Qed.

Lemma delete_clone_removes rt clone :
  rt_stop rt clone = Ok () -> Call (Remove clone) ∈ delete_clone rt clone.
Proof. intros H. unfold delete_clone. rewrite H. set_solver. Qed.

Lemma at_capacity_deletes rt c all clone :
  clone ∈ existing_clones (name c) all ->
  Call (Stop clone 10) ∈ at_capacity rt c all
  /\ (rt_stop rt clone = Ok () -> Call (Remove clone) ∈ at_capacity rt c all).
Proof.
  intros Hin. unfold at_capacity. split; [|intros Hok];
    rewrite elem_of_app; right; apply list_elem_of_In, in_flat_map;
    exists clone; (split; [by apply list_elem_of_In|]); apply list_elem_of_In.
  - apply delete_clone_stops.
  - by apply delete_clone_removes.
Qed.

(** Sampling issues no call but [stats]. *)
Lemma sampling_no_scaling_call rt all :
  List.filter is_scaling_call (sample_all rt all).2 = [].
Proof.
  unfold sample_all; cbn [snd]. induction all as [|c all IH]; [done|].
  cbn [flat_map]. rewrite List.filter_app, IH, app_nil_r.
  unfold get_container_stats, sample.
  destruct (negb _); [done|].
  destruct (_ ≫= _) as [s|[]]; reflexivity.
Qed.

(** While the flag stays set, the version stays what it was and the clone
    bound is not edited, every pair of [running_overloaded] whose parent is
    at capacity gets the at-capacity branch. *)
Lemma handle_overloaded_at_capacity rt g0 gk uuid all c s e l :
  (forall k, AUTO_SCALE_ENABLED (gk k) = true
             /\ CONFIG_VERSION (gk k) = CONFIG_VERSION g0
             /\ CLONE_NUM (gk k) = CLONE_NUM g0) ->
  (CLONE_NUM g0 <= Z.of_nat (length (existing_clones (name c) all)))%Z ->
  e ∈ at_capacity rt c all ->
  (c, s) ∈ l ->
  forall k, e ∈ handle_overloaded rt (CONFIG_VERSION g0) gk uuid all k l.
Proof.
  intros Hg Hcap He. induction l as [|[c' s'] l IH]; intros Hin k.
  - by apply elem_of_nil in Hin.
  - cbn [handle_overloaded]. rewrite elem_of_app.
    apply elem_of_cons in Hin as [Heq | Hin]; [left | right; by apply IH].
    inversion Heq; subst c' s'.
    destruct (Hg k) as (Hen & Hv & Hn). rewrite Hen, Hv, Z.eqb_refl. cbn [negb].
    rewrite scale_container_at_capacity by (rewrite Hn; exact Hcap).
    by apply list_elem_of_further.
Qed.

Lemma in_monitor_iteration rt g0 gk uuid all e :
  e ∈ auto_scaling rt g0 gk uuid all (sample_all rt all).1 ->
  e ∈ monitor_iteration rt g0 gk uuid (Ok all).
Proof.
  intros H. unfold monitor_iteration.
  destruct (sample_all rt all) as [pairs sampling] eqn:E. cbn [fst] in H.
  set_solver.
Qed.

(** Closes a goal whose hypothesis [H] places an effect in a literal trace
    none of whose entries it can be. *)
Ltac not_in_trace H :=
  repeat (apply elem_of_cons in H as [H|H]; [by repeat case_match|]);
  by apply elem_of_nil in H.

Lemma pause_in_delete_clone rt clone c : Call (Pause c) ∉ delete_clone rt clone.
Proof.
  unfold delete_clone. intros H.
  destruct (rt_stop rt clone); [destruct (rt_remove rt clone)|]; not_in_trace H.
Qed.

(** [scale_container] pauses no container but its own. *)
Lemma pause_in_scale_container rt g uuid c' all c :
  Call (Pause c) ∈ scale_container rt g uuid (Some c') (Some all) -> c = c'.
Proof.
  unfold scale_container, delete_clones.
  destruct (CLONE_NUM g <=? _)%Z.
  - rewrite elem_of_app. intros [H|H].
    + apply elem_of_cons in H as [H|H]; [discriminate|].
      apply elem_of_cons in H as [H|H]; [congruence|].
      not_in_trace H.
    + apply list_elem_of_In, in_flat_map in H as (clone & _ & H).
      apply list_elem_of_In in H. by apply pause_in_delete_clone in H.
  - destruct (negb _); [|destruct (_ <=? _)%Z]; intros H; not_in_trace H.
Qed.

Lemma pause_in_handle_overloaded rt v gk uuid all c l : forall k,
  Call (Pause c) ∈ handle_overloaded rt v gk uuid all k l ->
  exists s, (c, s) ∈ l.
Proof.
  induction l as [|[c' s'] l IH]; intros k H; cbn [handle_overloaded] in H.
  - by apply elem_of_nil in H.
  - apply elem_of_app in H as [H|H].
    + exists s'. destruct (negb (AUTO_SCALE_ENABLED (gk k))); [not_in_trace H|].
      apply elem_of_cons in H as [H|H]; [discriminate|].
      destruct (negb (CONFIG_VERSION (gk k) =? v)%Z); [not_in_trace H|].
      apply pause_in_scale_container in H as ->. apply list_elem_of_here.
    + destruct (IH _ H) as [s Hs]. exists s. by apply list_elem_of_further.
Qed.

Lemma pause_in_sampling rt all c : Call (Pause c) ∉ (sample_all rt all).2.
Proof.
  unfold sample_all; cbn [snd]. intros H.
  apply list_elem_of_In, in_flat_map in H as (c' & _ & H). apply list_elem_of_In in H.
  unfold get_container_stats, sample in H.
  destruct (negb _); [by apply elem_of_nil in H|].
  destruct (_ ≫= _) as [s|[]]; cbn in H; not_in_trace H.
Qed.

Lemma sample_all_pairs rt all c os :
  (c, os) ∈ (sample_all rt all).1 ->
  c ∈ all /\ os = (get_container_stats rt (Some c)).1.
Proof.
  unfold sample_all; cbn [fst]. intros H.
  apply list_elem_of_fmap in H as (c' & Heq & Hin).
  assert (c = c') by congruence. subst c'. split; [done | congruence].
Qed.

(** The polling cycle pauses overloaded containers only: a container that
    is paused is running, is no clone, and was sampled above a limit while
    auto-scaling was enabled. *)
Lemma paused_only_if_overloaded rt g0 gk uuid all c :
  Call (Pause c) ∈ monitor_iteration rt g0 gk uuid (Ok all) ->
  AUTO_SCALE_ENABLED g0 = true
  /\ status c = "running"
  /\ is_clone_container (Some c) = false
  /\ exists s, (get_container_stats rt (Some c)).1 = Some s
               /\ overloaded g0 s = Some true.
Proof.
  unfold monitor_iteration. pose proof (pause_in_sampling rt all c) as Hs.
  pose proof (sample_all_pairs rt all) as Hp.
  destruct (sample_all rt all) as [pairs sampling]. cbn [fst snd] in *. intros H.
  rewrite !elem_of_app in H. destruct H as [[H|[H|H]]|H].
  - done.
  - unfold auto_scaling in H. destruct (AUTO_SCALE_ENABLED g0); [|by apply elem_of_nil in H].
    split; [done|].
    apply pause_in_handle_overloaded in H as [s H].
    apply list_elem_of_omap in H as ([c' os] & Hin & Hsel).
    destruct (Hp _ _ Hin) as [_ ->]. unfold select_overloaded in Hsel.
    destruct (get_container_stats rt (Some c')).1 as [s'|] eqn:Hst; [|discriminate].
    destruct (bool_decide (status c' = "running")) eqn:Hrun;
      cbn [negb orb] in Hsel; [|discriminate].
    destruct (is_clone_container (Some c')) eqn:Hcl; [discriminate|].
    destruct (overloaded g0 s') as [[]|] eqn:Hov; try discriminate.
    injection Hsel as -> ->. apply bool_decide_eq_true in Hrun.
    split; [done|]. split; [done|]. by exists s.
  - not_in_trace H.
  - not_in_trace H.
Qed.

Definition web : Container :=
  {| short_id := "4c01db0b339c"; name := "web"; status := "running";
     labels := ∅; image := Some {| tags := ["nginx:latest"]; image_id := "sha256:605c" |};
     attrs := PDict [("Config", PDict [("Cmd", PList [PStr "nginx"])])] |}.

Definition clone_of_web (n : string) : Container :=
  {| short_id := n; name := "web-clone-" +:+ n; status := "running";
     labels := clone_labels "web";
     image := Some {| tags := ["nginx:latest"]; image_id := "sha256:605c" |};
     attrs := PDict [] |}.

Definition web_family : list Container :=
  [web; clone_of_web "0a1b2c3d"; clone_of_web "4e5f6a7b"].

(** A runtime on which [web] uses 80% of its memory. *)
Definition busy_runtime : Runtime :=
  {| rt_stats := fun _ =>
       Ok (PDict [("memory_stats", PDict [("usage", PInt 80); ("limit", PInt 100)])]);
     rt_pause := fun _ => Ok ();
     rt_stop := fun _ => Ok ();
     rt_remove := fun _ => Ok ();
     rt_run := rt_run quiet_runtime |}.

Definition disabled_globals : Globals :=
  {| CPU_LIMIT := 50; RAM_LIMIT := 5; CLONE_NUM := 2; SLEEP_TIME := 1;
     AUTO_SCALE_ENABLED := false; CONFIG_VERSION := 0 |}.

(** C1, as stated, fails: [web] is running, is no clone, has two clones
    (the bound), and idles; one polling cycle with the initial
    configuration neither pauses it nor stops or removes a clone. *)
Lemma idle_parent_at_capacity_untouched :
  status web = "running"
  /\ is_clone_container (Some web) = false
  /\ (CLONE_NUM initial_globals
      <= Z.of_nat (length (existing_clones (name web) web_family)))%Z
  /\ (get_container_stats quiet_runtime (Some web)).1
     = Some {| snap_id := "4c01db0b339c"; snap_name := "web";
               snap_status := "running"; cpu := "0.00"; ram := "0.00" |}
  /\ List.filter is_scaling_call
       (monitor_iteration quiet_runtime initial_globals (fun _ => initial_globals)
          (fun _ => "9f8e7d6c") (Ok web_family)) = [].
Proof. vm_compute. repeat split; discriminate. Qed.

(** C1, amended.  In a polling cycle, a running container that is no clone,
    whose sample is overloaded ([cpu > CPU_LIMIT] or [ram > RAM_LIMIT]) and
    whose clones number at least [CLONE_NUM] is paused, and each of its
    clones is stopped and, when the stop succeeded, removed -- provided
    auto-scaling is enabled and the configuration is not edited during the
    cycle.  The cycle pauses overloaded containers only: whatever container
    it pauses is running, is no clone and was sampled above a limit. *)
Theorem overloaded_parent_at_capacity rt g0 gk uuid all c s :
  c ∈ all ->
  status c = "running" ->
  is_clone_container (Some c) = false ->
  (get_container_stats rt (Some c)).1 = Some s ->
  overloaded g0 s = Some true ->
  AUTO_SCALE_ENABLED g0 = true ->
  (forall k, AUTO_SCALE_ENABLED (gk k) = true
             /\ CONFIG_VERSION (gk k) = CONFIG_VERSION g0
             /\ CLONE_NUM (gk k) = CLONE_NUM g0) ->
  (CLONE_NUM g0 <= Z.of_nat (length (existing_clones (name c) all)))%Z ->
  Call (Pause c) ∈ monitor_iteration rt g0 gk uuid (Ok all)
  /\ (forall clone, clone ∈ existing_clones (name c) all ->
        Call (Stop clone 10) ∈ monitor_iteration rt g0 gk uuid (Ok all)
        /\ (rt_stop rt clone = Ok () ->
            Call (Remove clone) ∈ monitor_iteration rt g0 gk uuid (Ok all)))
  /\ (forall c', Call (Pause c') ∈ monitor_iteration rt g0 gk uuid (Ok all) ->
        status c' = "running"
        /\ is_clone_container (Some c') = false
        /\ exists s', (get_container_stats rt (Some c')).1 = Some s'
                      /\ overloaded g0 s' = Some true).
Proof.
  intros Hin Hrun Hnc Hs Hov Hen Hg Hcap.
  assert (Hsel : (c, s) ∈ omap (select_overloaded g0) (sample_all rt all).1).
  { apply list_elem_of_omap. exists (c, Some s). split.
    - unfold sample_all; cbn [fst]. apply list_elem_of_fmap.
      exists c. by rewrite Hs.
    - unfold select_overloaded. rewrite bool_decide_true, Hnc, Hov by done.
      reflexivity. }
  assert (Hall : forall e, e ∈ at_capacity rt c all ->
                           e ∈ monitor_iteration rt g0 gk uuid (Ok all)).
  { intros e He. apply in_monitor_iteration. unfold auto_scaling. rewrite Hen.
    by eapply handle_overloaded_at_capacity. }
  split; [|split].
  - apply Hall, at_capacity_pauses.
  - intros clone Hc. destruct (at_capacity_deletes rt c all clone Hc) as [H1 H2].
    split; [by apply Hall | intros Hok; by apply Hall, H2].
  - intros c' Hp. by apply paused_only_if_overloaded in Hp as (_ & ? & ? & ?).
Qed.

Lemma overloaded_parent_at_capacity_witness :
  Call (Pause web)
    ∈ monitor_iteration busy_runtime initial_globals (fun _ => initial_globals)
        (fun _ => "9f8e7d6c") (Ok web_family)
  /\ Call (Stop (clone_of_web "0a1b2c3d") 10)
       ∈ monitor_iteration busy_runtime initial_globals (fun _ => initial_globals)
           (fun _ => "9f8e7d6c") (Ok web_family)
  /\ Call (Remove (clone_of_web "4e5f6a7b"))
       ∈ monitor_iteration busy_runtime initial_globals (fun _ => initial_globals)
           (fun _ => "9f8e7d6c") (Ok web_family).
Proof.
  destruct (overloaded_parent_at_capacity busy_runtime initial_globals
              (fun _ => initial_globals) (fun _ => "9f8e7d6c") web_family web
              {| snap_id := "4c01db0b339c"; snap_name := "web";
                 snap_status := "running"; cpu := "0.00"; ram := "80.00" |})
    as (Hpause & Hclones & _).
  - apply list_elem_of_here.
  - reflexivity.
  - reflexivity.
  - vm_compute. reflexivity.
  - vm_compute. reflexivity.
  - reflexivity.
  - intros k. repeat split.
  - vm_compute. discriminate.
  - split; [exact Hpause|]. split.
    + apply (Hclones (clone_of_web "0a1b2c3d")).
      vm_compute. apply list_elem_of_here.
    + apply (Hclones (clone_of_web "4e5f6a7b")); [|reflexivity].
      vm_compute. apply list_elem_of_further, list_elem_of_here.
Defined.

(** C2, as stated, fails: with the flag off, [web] is running, is no clone,
    has two clones (the bound) and is overloaded, and one polling cycle
    neither pauses it nor stops or removes a clone. *)
Lemma disabled_cycle_leaves_clones :
  AUTO_SCALE_ENABLED disabled_globals = false
  /\ status web = "running"
  /\ is_clone_container (Some web) = false
  /\ (CLONE_NUM disabled_globals
      <= Z.of_nat (length (existing_clones (name web) web_family)))%Z
  /\ List.filter is_scaling_call
       (monitor_iteration busy_runtime disabled_globals (fun _ => disabled_globals)
          (fun _ => "9f8e7d6c") (Ok web_family)) = [].
Proof. vm_compute. repeat split; discriminate. Qed.

Lemma monitor_iteration_disabled rt g gk uuid listing :
  AUTO_SCALE_ENABLED g = false ->
  List.filter is_scaling_call (monitor_iteration rt g gk uuid listing) = [].
Proof.
  intros Hoff. unfold monitor_iteration. destruct listing as [all|e]; [|done].
  pose proof (sampling_no_scaling_call rt all) as Hs.
  destruct (sample_all rt all) as [pairs sampling]. cbn [snd] in Hs.
  unfold auto_scaling. rewrite Hoff.
  rewrite !List.filter_app, Hs. reflexivity.
Qed.

(** C2, amended.  With the flag off, a polling cycle issues no pause, stop,
    remove or run at all: the whole auto-scaling block is skipped.  What
    stays independent of the flag is [scale_container] itself: called with
    the flag off, it pauses a parent at capacity and deletes its clones, and
    below capacity it only logs that scaling is disabled. *)
Theorem auto_scaling_disabled rt g :
  AUTO_SCALE_ENABLED g = false ->
  (forall gk uuid listing,
     List.filter is_scaling_call (monitor_iteration rt g gk uuid listing) = [])
  /\ (forall uuid c all,
        (CLONE_NUM g <= Z.of_nat (length (existing_clones (name c) all)))%Z ->
        Call (Pause c) ∈ scale_container rt g uuid (Some c) (Some all)
        /\ forall clone, clone ∈ existing_clones (name c) all ->
             Call (Stop clone 10) ∈ scale_container rt g uuid (Some c) (Some all)
             /\ (rt_stop rt clone = Ok () ->
                 Call (Remove clone) ∈ scale_container rt g uuid (Some c) (Some all)))
  /\ (forall uuid c all,
        (Z.of_nat (length (existing_clones (name c) all)) < CLONE_NUM g)%Z ->
        scale_container rt g uuid (Some c) (Some all)
        = [Log INFO ("Auto-scaling is disabled; skipping clone creation for '"
                     +:+ name c +:+ "'")]).
Proof.
  intros Hoff. split; [|split].
  - intros. by apply monitor_iteration_disabled.
  - intros uuid c all Hcap. rewrite scale_container_at_capacity by done.
    split; [apply at_capacity_pauses | intros; by apply at_capacity_deletes].
  - intros uuid c all Hlt. unfold scale_container.
    apply Z.leb_gt in Hlt. rewrite Hlt, Hoff. reflexivity.
Qed.

Lemma auto_scaling_disabled_witness :
  List.filter is_scaling_call
    (monitor_iteration busy_runtime disabled_globals (fun _ => disabled_globals)
       (fun _ => "9f8e7d6c") (Ok web_family)) = []
  /\ Call (Pause web)
       ∈ scale_container busy_runtime disabled_globals "9f8e7d6c"
           (Some web) (Some web_family)
  /\ scale_container busy_runtime disabled_globals "9f8e7d6c" (Some web) (Some [web])
     = [Log INFO "Auto-scaling is disabled; skipping clone creation for 'web'"].
Proof.
  destruct (auto_scaling_disabled busy_runtime disabled_globals eq_refl)
    as (Hcycle & Hcap & Hbelow).
  split; [apply Hcycle | split].
  - apply (Hcap "9f8e7d6c" web web_family). vm_compute. discriminate.
  - apply (Hbelow "9f8e7d6c" web [web]). vm_compute. reflexivity.
Defined.

End ScalerProperties.

(* ------------------------------------------------------------------ *)
(** ** The subject and its observers                                   *)
(* ------------------------------------------------------------------ *)
Section ObserverProperties.
Import Observer.
Context {D : Type}.
Variable update : obs -> list (Notification D) -> Notification D -> result unit.
Variable hashable : obs -> bool.

Implicit Types (s : Subject D) (n : Notification D) (tr : list (event D)) (o p : obs).

(** A run of notification passes, one after the other, while none raises. *)
Fixpoint notify_many (s : Subject D) (ns : list (Notification D))
    : result unit * Subject D :=
  match ns with
  | [] => (Ok (), s)
  | n :: rest =>
    match notifyObservers update hashable s (event_type n) (data n) (kwargs n) with
    | (Ok _, s') => notify_many s' rest
    | (Raise e, s') => (Raise e, s')
    end
  end.

(** Whether [o.update] raises on [n], given the trace so far. *)
Definition raises n tr o : bool :=
  match update o (received o tr) n with Raise _ => true | Ok _ => false end.

(** One more notification for the observers of [l], none for the others. *)
Definition once_for (l : list obs) n p : list (Notification D) :=
  if bool_decide (p ∈ l) then [n] else [].

Lemma filter_ext_elem {A} (P Q : A -> Prop) `{!forall x, Decision (P x)}
    `{!forall x, Decision (Q x)} (l : list A) :
  (forall x, x ∈ l -> P x <-> Q x) -> filter P l = filter Q l.
Proof.
  induction l as [|x l IH]; intros Hext; [done|].
  rewrite !filter_cons. rewrite IH by (intros; apply Hext; by right).
  pose proof (Hext x (list_elem_of_here _ _)) as Hx.
  destruct (decide (P x)) as [HP|HP], (decide (Q x)) as [HQ|HQ]; tauto || done.
Qed.

Lemma filter_all {A} (P : A -> Prop) `{!forall x, Decision (P x)} (l : list A) :
  (forall x, x ∈ l -> P x) -> filter P l = l.
Proof.
  induction l as [|x l IH]; intros Hall; [done|].
  rewrite filter_cons_True by (apply Hall; by left).
  f_equal. apply IH. intros; apply Hall; by right.
Qed.

Lemma received_app o tr1 tr2 :
  received o (tr1 ++ tr2) = received o tr1 ++ received o tr2.
Proof. apply omap_app. Qed.

Lemma received_update o p n :
  received p [Update o n] = if bool_decide (p = o) then [n] else [].
Proof. unfold received; cbn. by destruct (bool_decide (p = o)). Qed.

Lemma notify_observer_spec n tr o :
  exists tr1,
    notify_observer update n tr o
    = (Ok (if raises n tr o then Some o else None), tr1)
    /\ forall p, received p tr1
                 = received p tr ++ (if bool_decide (p = o) then [n] else []).
Proof.
  unfold notify_observer, raises.
  destruct (update o (received o tr) n) as [[]|e]; eexists; (split; [reflexivity|]);
    intros p; rewrite received_app; f_equal;
    unfold received; cbn; by destruct (bool_decide (p = o)).
Qed.

Lemma raises_ext n tr tr' o :
  received o tr' = received o tr -> raises n tr' o = raises n tr o.
Proof. unfold raises. by intros ->. Qed.

Lemma notify_each_spec n (l : list obs) : forall tr,
  NoDup l ->
  exists tr',
    notify_each update n tr l = (Ok (filter (fun o => raises n tr o = true) l), tr')
    /\ forall p, received p tr' = received p tr ++ once_for l n p.
Proof.
  induction l as [|o l IH]; intros tr Hnd.
  - exists tr. split; [done|]. intros p. unfold once_for.
    rewrite bool_decide_false by apply not_elem_of_nil. by rewrite app_nil_r.
  - apply NoDup_cons in Hnd as [Hnotin Hnd].
    destruct (notify_observer_spec n tr o) as (tr1 & E1 & R1).
    destruct (IH tr1 Hnd) as (tr2 & E2 & R2).
    exists tr2. cbn [notify_each]. rewrite E1, E2. cbn [mbind result_bind]. split.
    + f_equal. f_equal. rewrite filter_cons.
      rewrite (filter_ext_elem (fun o0 => raises n tr1 o0 = true)
                               (fun o0 => raises n tr o0 = true) l).
      * destruct (raises n tr o); [by rewrite decide_True | by rewrite decide_False].
      * intros p Hp. rewrite (raises_ext n tr tr1 p); [done|].
        rewrite R1, bool_decide_false, app_nil_r; [done|]. by intros ->.
    + intros p. rewrite R2, R1, <- app_assoc. f_equal. unfold once_for.
      destruct (decide (p = o)) as [->|Hne].
      * by rewrite bool_decide_true, (bool_decide_false (o ∈ l)),
             (bool_decide_true (o ∈ o :: l)) by (done || by left).
      * rewrite (bool_decide_false (p = o)) by done. cbn [app].
        rewrite (bool_decide_ext (p ∈ o :: l) (p ∈ l)); [done|].
        rewrite elem_of_cons. tauto.
Qed.

(** Whether the pass that sends [n] to the observers of [s] gets through
    the removal of the failed observers: no [update] raises, or every
    attached observer can be hashed. *)
Definition evictable s n : bool :=
  forallb (fun o => negb (raises n (trace s) o)) (_observers s)
  || forallb hashable (_observers s).

Lemma forallb_elem_of {A} (f : A -> bool) (l : list A) :
  forallb f l = true <-> forall x, x ∈ l -> f x = true.
Proof.
  rewrite forallb_forall. split; intros H x Hx; apply H; by apply list_elem_of_In.
Qed.

Lemma evictable_hashable s n :
  (forall p, p ∈ _observers s -> hashable p = true) -> evictable s n = true.
Proof.
  intros H. unfold evictable. apply orb_true_iff. right. by apply forallb_elem_of.
Qed.

(** A notification pass sends the notification once to every observer
    that was attached when it began.  When it gets through the removal it
    returns and keeps exactly the observers whose [update] returned;
    otherwise it raises [TypeError] and keeps them all. *)
Lemma notifyObservers_spec s et d kw :
  NoDup (_observers s) ->
  let n := {| event_type := et; data := d; kwargs := kw |} in
  exists s',
    notifyObservers update hashable s et d kw
    = (if evictable s n then Ok () else Raise TypeError, s')
    /\ _observers s'
       = (if evictable s n
          then filter (fun o => raises n (trace s) o = false) (_observers s)
          else _observers s)
    /\ forall p, received p (trace s')
                 = received p (trace s) ++ once_for (_observers s) n p.
Proof.
  intros Hnd n. unfold notifyObservers. fold n.
  set (tr0 := trace s ++ [Notifying (length (_observers s)) et]).
  destruct (notify_each_spec n (_observers s) tr0 Hnd) as (tr1 & E & R).
  assert (R0 : forall p, received p tr0 = received p (trace s)).
  { intros p. unfold tr0. rewrite received_app. cbn. by rewrite app_nil_r. }
  assert (Hr : forall o, raises n tr0 o = raises n (trace s) o).
  { intros o. apply raises_ext, R0. }
  rewrite E.
  destruct (filter (fun o => raises n tr0 o = true) (_observers s)) as [|f fs] eqn:F.
  - assert (Hnone : forall o, o ∈ _observers s -> raises n (trace s) o = false).
    { intros o Ho. rewrite <- Hr. destruct (raises n tr0 o) eqn:Ho'; [|done].
      exfalso. eapply (filter_nil_not_elem_of _ _ o F); done. }
    assert (Hev : evictable s n = true).
    { unfold evictable. apply orb_true_iff. left. apply forallb_elem_of.
      intros o Ho. by rewrite Hnone. }
    rewrite Hev. eexists. split; [reflexivity|]. cbn [_observers trace]. split.
    + symmetry. by apply filter_all.
    + intros p. by rewrite R, R0.
  - assert (Hf : raises n (trace s) f = true /\ f ∈ _observers s).
    { rewrite <- Hr. apply (list_elem_of_filter (fun o => raises n tr0 o = true)).
      rewrite F. by left. }
    assert (Hleft : forallb (fun o => negb (raises n (trace s) o)) (_observers s)
                    = false).
    { apply not_true_iff_false. rewrite forallb_elem_of. intros H.
      specialize (H f (proj2 Hf)). rewrite (proj1 Hf) in H. done. }
    unfold set, not_in_set.
    destruct (forallb hashable (_observers s)) eqn:Hh.
    + assert (Hhf : forallb hashable (f :: fs) = true).
      { rewrite forallb_elem_of in Hh. apply forallb_elem_of. rewrite <- F.
        intros o [_ Ho]%list_elem_of_filter. by apply Hh. }
      rewrite Hhf. cbn [mbind result_bind].
      assert (Hev : evictable s n = true)
        by (unfold evictable; rewrite Hh; apply orb_true_r).
      rewrite Hev.
      eexists. split; [reflexivity|]. cbn [_observers trace]. rewrite <- F. split.
      * apply filter_ext_elem. intros o Ho.
        rewrite elem_of_remove_dups, list_elem_of_filter, Hr.
        destruct (raises n (trace s) o); intuition congruence.
      * intros p. rewrite received_app, R, R0.
        replace (received p (map _ _)) with (@nil (Notification D));
          [by rewrite app_nil_r|].
        induction (remove_dups _) as [|x l IHl]; [done|]. exact IHl.
    + assert (Hev : evictable s n = false) by (unfold evictable; by rewrite Hleft, Hh).
      rewrite Hev.
      destruct (forallb hashable (f :: fs)); cbn [mbind result_bind];
        (eexists; split; [reflexivity|]; cbn [_observers trace]; split; [done|];
         intros p; by rewrite R, R0).
Qed.

Lemma emitted_app tr1 tr2 : emitted (tr1 ++ tr2) = emitted tr1 ++ emitted tr2.
Proof. apply omap_app. Qed.

Lemma notify_each_emitted n (l : list obs) : forall tr,
  emitted (notify_each update n tr l).2 = emitted tr.
Proof.
  induction l as [|o l IH]; intros tr; [done|].
  cbn [notify_each]. unfold notify_observer.
  destruct (update o (received o tr) n) as [[]|e]; cbn [try_except mbind result_bind];
    match goal with |- context [notify_each update n ?t l] =>
      specialize (IH t); destruct (notify_each update n t l) end;
    cbn [snd] in *; rewrite IH, emitted_app; cbn; by rewrite app_nil_r.
Qed.

Lemma emitted_logged {A} lv msg (l : list A) :
  emitted (map (fun _ => Logged lv msg : event D) l) = [].
Proof. by induction l. Qed.

(** A notification pass opens with exactly one [Notifying] record. *)
Lemma notifyObservers_emitted s et d kw :
  emitted (trace (notifyObservers update hashable s et d kw).2) = emitted (trace s) ++ [et].
Proof.
  unfold notifyObservers.
  set (n := {| event_type := et; data := d; kwargs := kw |}).
  set (tr0 := trace s ++ [Notifying (length (_observers s)) et]).
  pose proof (notify_each_emitted n (_observers s) tr0) as H.
  assert (H0 : emitted tr0 = emitted (trace s) ++ [et]).
  { unfold tr0. by rewrite emitted_app. }
  destruct (notify_each update n tr0 (_observers s)) as [[[|f failed]|e] tr1];
    cbn [snd trace] in *.
  - by rewrite H.
  - unfold set, not_in_set.
    destruct (forallb hashable (f :: failed)); cbn [mbind result_bind];
      [destruct (forallb hashable (_observers s)); cbn [mbind result_bind]|];
      cbn [snd trace].
    + by rewrite emitted_app, emitted_logged, app_nil_r, H.
    + by rewrite H.
    + by rewrite H.
  - by rewrite H.
Qed.

(** What a pass leaves attached was attached before, without duplicates. *)
Lemma notifyObservers_observers s et d kw :
  NoDup (_observers s) ->
  NoDup (_observers (notifyObservers update hashable s et d kw).2)
  /\ forall p, p ∈ _observers (notifyObservers update hashable s et d kw).2 ->
       p ∈ _observers s.
Proof.
  intros Hnd. destruct (notifyObservers_spec s et d kw Hnd) as (s' & -> & O & _).
  cbn [snd]. rewrite O. destruct (evictable s _); [|done]. split.
  - by apply NoDup_filter.
  - intros p. rewrite list_elem_of_filter. tauto.
Qed.


(** Over any run of further passes on observers that can all be hashed:
    every pass returns, no observer comes back, an observer that is not
    attached is sent nothing, and an observer whose [update] never raises
    stays attached and is sent every one. *)
Lemma notify_many_spec (ns : list (Notification D)) : forall s,
  NoDup (_observers s) ->
  (forall p, p ∈ _observers s -> hashable p = true) ->
  exists s2,
    notify_many s ns = (Ok (), s2)
    /\ NoDup (_observers s2)
    /\ (forall p, p ∈ _observers s2 -> p ∈ _observers s)
    /\ (forall p, p ∉ _observers s -> received p (trace s2) = received p (trace s))
    /\ (forall p, p ∈ _observers s -> (forall hist m, update p hist m = Ok ()) ->
          p ∈ _observers s2 /\ received p (trace s2) = received p (trace s) ++ ns).
Proof.
  induction ns as [|n ns IH]; intros s Hnd Hh.
  - exists s. cbn [notify_many]. repeat split; try done. by rewrite app_nil_r.
  - destruct (notifyObservers_spec s (event_type n) (data n) (kwargs n) Hnd)
      as (s1 & E1 & O1 & R1).
    replace {| event_type := event_type n; data := data n; kwargs := kwargs n |}
      with n in * by (by destruct n).
    rewrite (evictable_hashable s n Hh) in E1, O1.
    assert (Hnd1 : NoDup (_observers s1)) by (rewrite O1; by apply NoDup_filter).
    assert (Sub1 : forall p, p ∈ _observers s1 -> p ∈ _observers s).
    { intros p. rewrite O1, list_elem_of_filter. tauto. }
    assert (Hh1 : forall p, p ∈ _observers s1 -> hashable p = true)
      by (intros p Hp; by apply Hh, Sub1).
    destruct (IH s1 Hnd1 Hh1) as (s2 & E2 & Hnd2 & Sub & Out & Good).
    exists s2. cbn [notify_many]. rewrite E1. split; [exact E2|].
    split; [exact Hnd2|].
    split; [|split].
    + intros p Hp. by apply Sub1, Sub.
    + intros p Hp. rewrite Out by (intros H1; by apply Hp, Sub1).
      rewrite R1. unfold once_for. rewrite bool_decide_false by done.
      by rewrite app_nil_r.
    + intros p Hp Hgood.
      assert (Hp1 : p ∈ _observers s1).
      { rewrite O1, list_elem_of_filter. split; [|done].
        unfold raises. by rewrite Hgood. }
      destruct (Good p Hp1 Hgood) as [Hp2 R2]. split; [done|].
      rewrite R2, R1. unfold once_for. rewrite bool_decide_true by done.
      by rewrite <- app_assoc.
Qed.

(** On a subject whose observers can all be hashed, as objects can unless
    their class opts out: when the [update] of an attached observer [o]
    raises during a notification pass, the pass returns normally; every
    observer attached when the pass began -- those after [o] in the list
    as well -- is sent the notification once; afterwards [o] is no longer
    attached while every observer whose [update] returned still is; over
    any run of further passes [o] is sent nothing more, and an observer
    whose [update] never raises is sent every one of them. *)
Lemma failing_observer_removed s et d kw o e :
  let n := {| event_type := et; data := d; kwargs := kw |} in
  NoDup (_observers s) ->
  (forall p, p ∈ _observers s -> hashable p = true) ->
  o ∈ _observers s ->
  update o (received o (trace s)) n = Raise e ->
  exists s',
    notifyObservers update hashable s et d kw = (Ok (), s')
    /\ (o ∉ _observers s')
    /\ (forall p, p ∈ _observers s ->
          received p (trace s') = received p (trace s) ++ [n])
    /\ (forall p, p ∈ _observers s ->
          update p (received p (trace s)) n = Ok () -> p ∈ _observers s')
    /\ forall ns, exists s2,
         notify_many s' ns = (Ok (), s2)
         /\ received o (trace s2) = received o (trace s')
         /\ forall p, p ∈ _observers s -> p <> o ->
              (forall hist m, update p hist m = Ok ()) ->
              received p (trace s2) = received p (trace s) ++ (n :: ns).
Proof.
  intros n Hnd Hh Ho Hraise.
  destruct (notifyObservers_spec s et d kw Hnd) as (s' & E & O & R). fold n in E, O, R.
  rewrite (evictable_hashable s n Hh) in E, O.
  assert (Hgone : o ∉ _observers s').
  { rewrite O, list_elem_of_filter. unfold raises. rewrite Hraise. intros [? _]. done. }
  assert (Hnd' : NoDup (_observers s')) by (rewrite O; by apply NoDup_filter).
  assert (Hh' : forall p, p ∈ _observers s' -> hashable p = true).
  { intros p. rewrite O, list_elem_of_filter. intros [_ Hp]. by apply Hh. }
  exists s'. split; [exact E|]. split; [exact Hgone|]. split; [|split].
  - intros p Hp. rewrite R. unfold once_for. by rewrite bool_decide_true.
  - intros p Hp Hok. rewrite O, list_elem_of_filter. split; [|done].
    unfold raises. by rewrite Hok.
  - intros ns.
    destruct (notify_many_spec ns s' Hnd' Hh') as (s2 & E2 & _ & _ & Out & Good).
    exists s2. split; [exact E2|]. split; [by apply Out|].
    intros p Hp Hne Hgood.
    assert (Hp' : p ∈ _observers s').
    { rewrite O, list_elem_of_filter. split; [|done]. unfold raises. by rewrite Hgood. }
    destruct (Good p Hp' Hgood) as [_ ->].
    rewrite R. unfold once_for. rewrite bool_decide_true by done.
    by rewrite <- app_assoc.
Qed.

End ObserverProperties.

(** Observers with the [__hash__] of [object]. *)
Definition all_hashable (o : Observer.obs) : bool := true.

(** Three observers; the second raises on its first three notifications. *)
Definition flaky_update (o : Observer.obs)
    (earlier : list (Observer.Notification string))
    (n : Observer.Notification string) : result unit :=
  if bool_decide (o = 2) && bool_decide (length earlier < 3)
  then Raise (OtherError "ValueError") else Ok ().

Definition three_observers : Observer.Subject string :=
  Observer.attach (Observer.attach (Observer.attach Observer.init 1) 2) 3.

Lemma failing_observer_removed_witness :
  let n := {| Observer.event_type := "containers_updated"; Observer.data := "[]";
              Observer.kwargs := [] |} in
  exists s',
    Observer.notifyObservers flaky_update all_hashable three_observers "containers_updated" "[]" []
    = (Ok (), s')
    /\ (2 ∉ Observer._observers s')
    /\ (forall p, p ∈ Observer._observers three_observers ->
          Observer.received p (Observer.trace s')
          = Observer.received p (Observer.trace three_observers) ++ [n])
    /\ (forall p, p ∈ Observer._observers three_observers ->
          flaky_update p (Observer.received p (Observer.trace three_observers)) n = Ok () ->
          p ∈ Observer._observers s')
    /\ forall ns, exists s2,
         notify_many flaky_update all_hashable s' ns = (Ok (), s2)
         /\ Observer.received 2 (Observer.trace s2)
            = Observer.received 2 (Observer.trace s')
         /\ forall p, p ∈ Observer._observers three_observers -> p <> 2 ->
              (forall hist m, flaky_update p hist m = Ok ()) ->
              Observer.received p (Observer.trace s2)
              = Observer.received p (Observer.trace three_observers) ++ (n :: ns).
Proof.
  apply (failing_observer_removed flaky_update all_hashable three_observers
           "containers_updated" "[]" [] 2 (OtherError "ValueError")).
  - compute_done.
  - done.
  - compute_done.
  - reflexivity.
Defined.

(** The second observer is of a class that sets [__hash__] to [None]. *)
Definition unhashable_second (o : Observer.obs) : bool := negb (bool_decide (o = 2)).

(** C3.  The removal misses an observer that cannot be hashed.  Of three
    attached observers let the second raise in [update] and be unhashable.
    Its exception is caught and all three observers are sent the
    notification, but then [set(failed_observers)] raises [TypeError],
    which leaves [notifyObservers]; the observer list is left as it was,
    so the failing observer is still attached, and the next pass sends it
    the notification again and raises again. *)
Theorem unhashable_failing_observer_stays :
  let n := {| Observer.event_type := "containers_updated"; Observer.data := "[]";
              Observer.kwargs := [] |} in
  let pass1 :=
    Observer.notifyObservers flaky_update unhashable_second three_observers
      "containers_updated" "[]" [] in
  let pass2 :=
    Observer.notifyObservers flaky_update unhashable_second pass1.2
      "containers_updated" "[]" [] in
  flaky_update 2 (Observer.received 2 (Observer.trace three_observers)) n
  = Raise (OtherError "ValueError")
  /\ pass1.1 = Raise TypeError
  /\ Observer._observers pass1.2 = [1; 2; 3]
  /\ Observer.received 1 (Observer.trace pass1.2) = [n]
  /\ Observer.received 2 (Observer.trace pass1.2) = [n]
  /\ Observer.received 3 (Observer.trace pass1.2) = [n]
  /\ pass2.1 = Raise TypeError
  /\ Observer._observers pass2.2 = [1; 2; 3]
  /\ Observer.received 2 (Observer.trace pass2.2) = [n; n].
Proof. vm_compute. repeat split. Qed.

(* ------------------------------------------------------------------ *)
(** ** The data controller                                             *)
(* ------------------------------------------------------------------ *)
Section ControllerProperties.
Import Observer Controller.
Variable update : obs -> list (Notification val) -> Notification val -> result unit.
Variable hashable : obs -> bool.

Implicit Types (c : DockerDataController) (r : Resource) (h : heap) (v x : val).

(** The controller is well formed when no observer is attached twice,
    which [attach] maintains. *)
Definition wf c : Prop := NoDup (_observers (subject c)).

Lemma attach_NoDup {D} (s : Subject D) o :
  NoDup (_observers s) -> NoDup (_observers (attach s o)).
Proof.
  intros H. unfold attach. destruct (bool_decide (o ∈ _observers s)) eqn:E; [done|].
  cbn. apply NoDup_app. split; [done|]. split; [|apply NoDup_singleton].
  intros x Hx ->%list_elem_of_singleton. apply bool_decide_eq_false in E. done.
Qed.

Lemma cache_set_cache r r' v c :
  cache r' (set_cache r v c) = if decide (r' = r) then v else cache r' c.
Proof. by destruct r, r'. Qed.

(** The value of an object does not depend on what else the store holds. *)
Lemma value_stable fuel : forall h h' v t,
  (forall l o, h !! l = Some o -> h' !! l = Some o) ->
  value fuel h v = Some t -> value fuel h' v = Some t.
Proof.
  induction fuel as [|fuel IH]; intros h h' v t Hext Hv.
  - destruct v; cbn in *; congruence.
  - destruct v as [| | | |l]; cbn in *; try congruence.
    destruct (h !! l) as [o|] eqn:E; [|done]. rewrite (Hext _ _ E).
    destruct o as [items|kvs];
      apply fmap_Some in Hv as (ts & Hm & ->); apply fmap_Some; eexists;
      (split; [|reflexivity]); apply mapM_Some; apply mapM_Some in Hm;
      (eapply Forall2_impl; [exact Hm|]); cbn.
    + intros x y Hxy. by eapply IH.
    + intros [k x] y Hxy. cbn in *. apply fmap_Some in Hxy as (z & Hz & ->).
      apply fmap_Some. eexists. split; [|reflexivity]. by eapply IH.
Qed.

(** Two list objects with the same elements denote the same value. *)
Lemma value_same_items fuel h h' L l' items t :
  h !! L = Some (OList items) ->
  h' !! l' = Some (OList items) ->
  (forall l o, h !! l = Some o -> h' !! l = Some o) ->
  value fuel h (VRef L) = Some t -> value fuel h' (VRef l') = Some t.
Proof.
  intros HL Hl' Hext Hv. destruct fuel as [|fuel]; [done|]. cbn in *.
  rewrite HL in Hv. rewrite Hl'.
  apply fmap_Some in Hv as (ts & Hm & ->). apply fmap_Some. eexists.
  split; [|reflexivity]. apply mapM_Some. apply mapM_Some in Hm.
  eapply Forall2_impl; [exact Hm|]. intros x y Hxy. by eapply value_stable.
Qed.

Lemma notifyObservers_result {D}
    (upd : obs -> list (Notification D) -> Notification D -> result unit)
    (hsh : obs -> bool) (s : Subject D) et d kw :
  (notifyObservers upd hsh s et d kw).1 = Ok ()
  \/ (notifyObservers upd hsh s et d kw).1 = Raise TypeError.
Proof.
  unfold notifyObservers.
  set (n := {| event_type := et; data := d; kwargs := kw |}).
  generalize (trace s ++ [Notifying (length (_observers s)) et]).
  assert (H : forall l tr, exists f tr', notify_each upd n tr l = (Ok f, tr')).
  { induction l as [|o l IH]; intros tr; [by eexists _, _|].
    cbn [notify_each]. unfold notify_observer.
    destruct (upd o (received o tr) n) as [[]|e]; cbn [try_except mbind result_bind];
      match goal with |- context [notify_each upd n ?t l] =>
        destruct (IH t) as (f & tr' & ->) end; by eexists _, _. }
  intros tr. destruct (H (_observers s) tr) as (f & tr' & ->).
  destruct f as [|f fs]; [by left|]. unfold Observer.set, not_in_set.
  destruct (forallb hsh (f :: fs)); cbn [mbind result_bind]; [|by right].
  destruct (forallb hsh (_observers s)); cbn [mbind result_bind]; [by left | by right].
Qed.

Lemma update_resource_not_list r c x :
  is_list (store c) x = false ->
  exists lv msg, update_resource update hashable r c x = (Ok (), log lv msg c).
Proof.
  intros H. unfold update_resource. rewrite H.
  destruct x; cbn [negb]; by eexists _, _.
Qed.

Lemma update_resource_list r c x :
  is_list (store c) x = true ->
  exists msg,
    update_resource update hashable r c x
    = match notifyObservers update hashable (subject c)
              (resource_name r +:+ "_updated") x [] with
      | (Ok _, s') => (Ok (), log DEBUG msg (with_subject s' (set_cache r x c)))
      | (Raise e, s') => (Raise e, with_subject s' (set_cache r x c))
      end.
Proof.
  intros H. unfold update_resource. rewrite H. cbn [negb].
  destruct x as [| | | |l]; try discriminate.
  assert (Hs : subject (set_cache r (VRef l) c) = subject c) by done.
  assert (Hst : store (set_cache r (VRef l) c) = store c) by done.
  rewrite Hs, Hst.
  destruct (notifyObservers update hashable (subject c) _ (VRef l) [])
    as [[[]|e] s']; [|by exists ""].
  unfold is_list in H. unfold len.
  destruct (store c !! l) as [[items|kvs]|]; try discriminate.
  by eexists.
Qed.

Lemma update_resource_list_state r c x :
  is_list (store c) x = true ->
  store (update_resource update hashable r c x).2 = store c
  /\ cache r (update_resource update hashable r c x).2 = x.
Proof.
  intros H. destruct (update_resource_list r c x H) as (msg & ->).
  destruct (notifyObservers update hashable (subject c) _ x []) as [[[]|e] s'];
    cbn [snd]; (split; [done | by destruct r]).
Qed.

(** C6.  When [x] is [None] or no list, [update_<resource>(x)] returns
    and appends one log record and nothing else: the observers, the
    store and the four caches stay as they were, no notification pass is
    opened, no observer is called, and [get_<resource>()] answers as it did
    before.  When [x] is a list, it becomes the cached value of that
    resource, the other caches stay, exactly one notification pass is
    opened, of event type ["<resource>_updated"], and every attached
    observer is sent that event with [x] as its data.  The call returns
    normally, unless [x] is a list and the pass does not get through the
    removal of a failed observer: then the [TypeError] of the pass leaves
    the call, after the cache was replaced and the observers were sent the
    event. *)
Theorem update_resource_spec r c x :
  wf c ->
  (update_resource update hashable r c x).1
  = (if is_list (store c) x
        && negb (evictable update hashable (subject c)
                   {| event_type := resource_name r +:+ "_updated"; data := x;
                      kwargs := [] |})
     then Raise TypeError else Ok ())
  /\ (is_list (store c) x = false ->
        (exists lv msg,
           trace (subject (update_resource update hashable r c x).2)
           = trace (subject c) ++ [Logged lv msg])
        /\ _observers (subject (update_resource update hashable r c x).2) = _observers (subject c)
        /\ store (update_resource update hashable r c x).2 = store c
        /\ (forall r', cache r' (update_resource update hashable r c x).2 = cache r' c)
        /\ (get_resource r (update_resource update hashable r c x).2).1 = (get_resource r c).1
        /\ store (get_resource r (update_resource update hashable r c x).2).2
           = store (get_resource r c).2)
  /\ (is_list (store c) x = true ->
        cache r (update_resource update hashable r c x).2 = x
        /\ (forall r', r' <> r -> cache r' (update_resource update hashable r c x).2 = cache r' c)
        /\ store (update_resource update hashable r c x).2 = store c
        /\ emitted (trace (subject (update_resource update hashable r c x).2))
           = emitted (trace (subject c)) ++ [resource_name r +:+ "_updated"]
        /\ forall p, p ∈ _observers (subject c) ->
             received p (trace (subject (update_resource update hashable r c x).2))
             = received p (trace (subject c))
               ++ [{| event_type := resource_name r +:+ "_updated"; data := x;
                      kwargs := [] |}]).
Proof.
  intros Hwf. destruct (is_list (store c) x) eqn:Hl.
  - destruct (update_resource_list r c x Hl) as (msg & ->).
    destruct (notifyObservers_spec update hashable (subject c)
                (resource_name r +:+ "_updated") x [] Hwf) as (s' & E & O & R).
    pose proof (notifyObservers_emitted update hashable (subject c)
                  (resource_name r +:+ "_updated") x []) as Hem.
    rewrite E in *. cbn [snd] in Hem. cbn [andb].
    destruct (evictable update hashable (subject c) _); cbn [fst snd negb].
    + split; [done|]. split; [done|]. intros _.
      split; [by destruct r|]. split; [intros r' Hr'; by destruct r, r'|].
      split; [done|]. split.
      * change (trace (subject (log DEBUG msg (with_subject s' (set_cache r x c)))))
          with (trace s' ++ [Logged DEBUG msg]).
        rewrite emitted_app, Hem. apply app_nil_r.
      * intros p Hp.
        change (trace (subject (log DEBUG msg (with_subject s' (set_cache r x c)))))
          with (trace s' ++ [Logged DEBUG msg]).
        rewrite received_app, R. cbn [received omap]. rewrite app_nil_r.
        unfold once_for. by rewrite bool_decide_true.
    + split; [done|]. split; [done|]. intros _.
      split; [by destruct r|]. split; [intros r' Hr'; by destruct r, r'|].
      split; [done|]. split; [exact Hem|].
      intros p Hp. cbn [subject with_subject]. rewrite R.
      unfold once_for. by rewrite bool_decide_true.
  - destruct (update_resource_not_list r c x Hl) as (lv & msg & ->). cbn [fst snd andb].
    split; [done|]. split; [|done]. intros _.
    split; [by exists lv, msg|]. split; [done|]. split; [done|].
    split; [intros r'; by destruct r'|].
    unfold get_resource.
    change (store (log lv msg c)) with (store c).
    replace (cache r (log lv msg c)) with (cache r c) by (by destruct r).
    destruct (copy (store c) (cache r c)). done.
Qed.

Lemma copy_list h L items :
  h !! L = Some (OList items) ->
  copy h (VRef L) = (Ok (VRef (length h)), h ++ [OList items]).
Proof. intros H. unfold copy. by rewrite H. Qed.

Lemma get_resource_list r c L items :
  cache r c = VRef L ->
  store c !! L = Some (OList items) ->
  get_resource r c
  = (Ok (VRef (length (store c))), with_store (store c ++ [OList items]) c).
Proof.
  intros Hc HL. unfold get_resource. rewrite Hc, (copy_list _ _ _ HL). done.
Qed.

(** Whatever the store holds, [get_<resource>()] returns a fresh object
    with the elements the cached list has at that moment: the result always
    compares equal to the cached object itself. *)
Lemma get_resource_equals_cached r c L items fuel :
  cache r c = VRef L ->
  store c !! L = Some (OList items) ->
  exists l',
    (get_resource r c).1 = Ok (VRef l')
    /\ l' <> L
    /\ store (get_resource r c).2 !! l' = Some (OList items)
    /\ store (get_resource r c).2 !! L = Some (OList items)
    /\ value fuel (store (get_resource r c).2) (VRef l')
       = value fuel (store (get_resource r c).2) (VRef L).
Proof.
  intros Hc HL. rewrite (get_resource_list r c L items Hc HL). cbn [fst snd].
  pose proof (lookup_lt_Some _ _ _ HL) as Hlt.
  assert (H1 : (store c ++ [OList items]) !! length (store c) = Some (OList items))
    by (by apply list_lookup_middle).
  assert (H2 : (store c ++ [OList items]) !! L = Some (OList items))
    by (by apply lookup_app_l_Some).
  exists (length (store c)). split; [done|]. split; [lia|].
  split; [exact H1|]. split; [exact H2|].
  destruct fuel as [|fuel]; [done|].
  change (store (with_store (store c ++ [OList items]) c))
    with (store c ++ [OList items]).
  cbn [value]. by rewrite H1, H2.
Qed.

(** C7.  Let [L] be a list object of value [t].  For each resource type,
    [get_<resource>()] right after [update_<resource>(L)] returns a list
    object other than [L] whose value is [t]; and however the returned
    object is then changed in place, the next [get_<resource>()] again
    returns an object of value [t]. *)
Theorem get_after_update r c L items fuel t :
  store c !! L = Some (OList items) ->
  value fuel (store c) (VRef L) = Some t ->
  exists l',
    (get_resource r (update_resource update hashable r c (VRef L)).2).1 = Ok (VRef l')
    /\ l' <> L
    /\ value fuel
         (store (get_resource r (update_resource update hashable r c (VRef L)).2).2)
         (VRef l') = Some t
    /\ forall o' : obj,
         let c2 := (get_resource r (update_resource update hashable r c (VRef L)).2).2 in
         let c3 := with_store (<[l' := o']> (store c2)) c2 in
         exists l'',
           (get_resource r c3).1 = Ok (VRef l'')
           /\ l'' <> l'
           /\ value fuel (store (get_resource r c3).2) (VRef l'') = Some t.
Proof.
  intros HL Hv.
  assert (Hlist : is_list (store c) (VRef L) = true) by (cbn; by rewrite HL).
  destruct (update_resource_list_state r c (VRef L) Hlist) as [Hst Hca].
  set (c1 := (update_resource update hashable r c (VRef L)).2) in *.
  assert (HL1 : store c1 !! L = Some (OList items)) by (by rewrite Hst).
  rewrite (get_resource_list r c1 L items Hca HL1). cbn [fst snd].
  pose proof (lookup_lt_Some _ _ _ HL) as Hlt.
  exists (length (store c1)). rewrite Hst.
  split; [done|]. split; [lia|]. split.
  - apply (value_same_items fuel (store c) _ L _ items); try done.
    + cbn. by apply list_lookup_middle.
    + intros l o Hl. cbn. by apply lookup_app_l_Some.
  - intros o'.
    set (c2 := with_store (store c ++ [OList items]) c1).
    set (c3 := with_store (<[length (store c) := o']> (store c2)) c2).
    assert (Hext : forall l o, store c !! l = Some o -> store c3 !! l = Some o).
    { intros l o Hl. pose proof (lookup_lt_Some _ _ _ Hl).
      change (store c3) with (<[length (store c) := o']> (store c ++ [OList items])).
      rewrite list_lookup_insert_ne by lia.
      by apply lookup_app_l_Some. }
    assert (Hca3 : cache r c3 = VRef L) by (destruct r; exact Hca).
    rewrite (get_resource_list r c3 L items Hca3 (Hext _ _ HL)). cbn [fst snd].
    exists (length (store c3)). split; [done|]. split.
    + change (store c3) with (<[length (store c) := o']> (store c ++ [OList items])).
      rewrite length_insert, length_app. cbn. lia.
    + apply (value_same_items fuel (store c) _ L _ items); try done.
      * cbn. by apply list_lookup_middle.
      * intros l o Hl. cbn. apply lookup_app_l_Some. by apply Hext.
Qed.

Definition none_or_list h v : bool :=
  match v with VNone => true | _ => is_list h v end.

Lemma batch_one_ok r v c (u : list string) :
  none_or_list (store c) v = true ->
  exists w,
    batch_one r v (c, u) = Ok (batch_one_state r v c, u ++ w)
    /\ (w = [] <-> v = VNone).
Proof.
  intros H. destruct v as [| | | |l]; try discriminate.
  - exists []. rewrite app_nil_r. done.
  - unfold none_or_list, is_list in H.
    destruct (store c !! l) as [[items|]|] eqn:E; try discriminate.
    exists [pretty (length items) +:+ " " +:+ resource_name r].
    unfold batch_one, len. change (store (set_cache r (VRef l) c)) with (store c).
    rewrite E. split; [reflexivity|]. split; discriminate.
Qed.

Lemma batch_one_state_store r v c : store (batch_one_state r v c) = store c.
Proof. by destruct v. Qed.

Lemma batch_one_state_subject r v c : subject (batch_one_state r v c) = subject c.
Proof. by destruct v. Qed.

Lemma cache_batch_one_state r r' v c :
  cache r' (batch_one_state r v c)
  = if decide (r' = r) then (match v with VNone => cache r' c | _ => v end)
    else cache r' c.
Proof. destruct v, r, r'; done. Qed.

(** What [update_all_resources] leaves in the cache of [r]. *)
Definition batch_cache r (old new_data : val) : val :=
  match new_data with VNone => old | _ => new_data end.

(** [v is None] *)
Definition is_none (v : val) : bool :=
  match v with VNone => true | _ => false end.

(** C10.  Let each of the four arguments be [None] or a list.  Then
    every cache holds its argument, or what it held when the argument is
    [None].  With four [None]s the batch update returns and the
    controller is left exactly as it was: no cache changes and nothing is
    logged or notified.  With at least one list, exactly one notification
    pass is opened, of event type ["batch_updated"], and every attached
    observer is sent exactly one notification, of that type; the call
    returns normally unless that pass does not get through the removal of
    a failed observer, whose [TypeError] then leaves the call. *)
Theorem update_all_resources_spec c containers networks images volumes :
  wf c ->
  none_or_list (store c) containers = true ->
  none_or_list (store c) networks = true ->
  none_or_list (store c) images = true ->
  none_or_list (store c) volumes = true ->
  let c' := (update_all_resources update hashable c containers networks images volumes).2 in
  (update_all_resources update hashable c containers networks images volumes).1
  = (if is_none containers && is_none networks && is_none images && is_none volumes
        || evictable update hashable (subject c)
             {| event_type := "batch_updated"; data := VRef (length (store c));
                kwargs := [] |}
     then Ok () else Raise TypeError)
  /\ cache Containers c' = batch_cache Containers (cache Containers c) containers
  /\ cache Networks c' = batch_cache Networks (cache Networks c) networks
  /\ cache Images c' = batch_cache Images (cache Images c) images
  /\ cache Volumes c' = batch_cache Volumes (cache Volumes c) volumes
  /\ (containers = VNone -> networks = VNone -> images = VNone -> volumes = VNone ->
        c' = c)
  /\ (~ (containers = VNone /\ networks = VNone /\ images = VNone /\ volumes = VNone) ->
        emitted (trace (subject c')) = emitted (trace (subject c)) ++ ["batch_updated"]
        /\ exists d,
             store c' !! d
             = Some (ODict [("containers", containers); ("networks", networks);
                            ("images", images); ("volumes", volumes)])
             /\ forall p, p ∈ _observers (subject c) ->
                  received p (trace (subject c'))
                  = received p (trace (subject c))
                    ++ [{| event_type := "batch_updated"; data := VRef d;
                           kwargs := [] |}]).
Proof.
  intros Hwf H1 H2 H3 H4 c'. subst c'. unfold update_all_resources.
  destruct (batch_one_ok Containers containers c [] H1) as (w1 & -> & W1).
  set (c1 := batch_one_state Containers containers c).
  assert (S1 : store c1 = store c) by apply batch_one_state_store.
  rewrite <- S1 in H2.
  destruct (batch_one_ok Networks networks c1 ([] ++ w1) H2) as (w2 & -> & W2).
  set (c2 := batch_one_state Networks networks c1).
  assert (S2 : store c2 = store c) by (unfold c2; by rewrite batch_one_state_store).
  rewrite <- S2 in H3.
  destruct (batch_one_ok Images images c2 (([] ++ w1) ++ w2) H3) as (w3 & -> & W3).
  set (c3 := batch_one_state Images images c2).
  assert (S3 : store c3 = store c) by (unfold c3; by rewrite batch_one_state_store).
  rewrite <- S3 in H4.
  destruct (batch_one_ok Volumes volumes c3 ((([] ++ w1) ++ w2) ++ w3) H4)
    as (w4 & -> & W4).
  set (c4 := batch_one_state Volumes volumes c3).
  assert (S4 : store c4 = store c) by (unfold c4; by rewrite batch_one_state_store).
  assert (Sub4 : subject c4 = subject c).
  { unfold c4, c3, c2, c1. by rewrite !batch_one_state_subject. }
  assert (Hcache : forall r, cache r c4
            = batch_cache r (cache r c)
                (match r with Containers => containers | Networks => networks
                 | Images => images | Volumes => volumes end)).
  { intros r. unfold c4, c3, c2, c1. rewrite !cache_batch_one_state.
    destruct r; cbn; unfold batch_cache;
      by destruct containers, networks, images, volumes. }
  destruct (((([] ++ w1) ++ w2) ++ w3) ++ w4) as [|u us] eqn:Hu.
  - cbn [fst snd].
    apply app_eq_nil in Hu as [Hu ->]. apply app_eq_nil in Hu as [Hu ->].
    apply app_eq_nil in Hu as [Hu ->]. cbn in Hu. subst w1.
    assert (Hn : containers = VNone /\ networks = VNone /\ images = VNone
                 /\ volumes = VNone).
    { repeat split; [apply W1 | apply W2 | apply W3 | apply W4]; reflexivity. }
    split; [by destruct Hn as (-> & -> & -> & ->)|].
    split; [apply (Hcache Containers)|]. split; [apply (Hcache Networks)|].
    split; [apply (Hcache Images)|]. split; [apply (Hcache Volumes)|].
    split.
    + intros -> -> -> ->. done.
    + intros Hsome. exfalso. by apply Hsome.
  - cbn [alloc].
    set (data := ODict _). set (c5 := with_store (store c4 ++ [data]) c4).
    assert (Sub5 : subject c5 = subject c) by done.
    rewrite Sub5.
    assert (Hnn : is_none containers && is_none networks && is_none images
                  && is_none volumes = false).
    { destruct containers, networks, images, volumes; try done. exfalso.
      assert (w1 = []) as -> by (by apply W1). assert (w2 = []) as -> by (by apply W2).
      assert (w3 = []) as -> by (by apply W3). assert (w4 = []) as -> by (by apply W4).
      discriminate. }
    destruct (notifyObservers_spec update hashable (subject c) "batch_updated"
                (VRef (length (store c4))) [] Hwf) as (s' & E & O & R).
    pose proof (notifyObservers_emitted update hashable (subject c) "batch_updated"
                  (VRef (length (store c4))) []) as Hem.
    rewrite E in *. cbn [snd] in Hem.
    assert (Hsome : forall A (x : A),
              containers = VNone -> networks = VNone -> images = VNone ->
              volumes = VNone -> x = x -> False).
    { intros A x -> -> -> ->. discriminate Hnn. }
    destruct (evictable update hashable (subject c) _) eqn:Hev; cbn [fst snd].
    + split; [by rewrite Hnn, <- S4, Hev|].
      split; [apply (Hcache Containers)|]. split; [apply (Hcache Networks)|].
      split; [apply (Hcache Images)|]. split; [apply (Hcache Volumes)|].
      split; [intros H1' H2' H3' H4'; destruct (Hsome _ tt H1' H2' H3' H4' eq_refl)|].
      intros _. split.
      * change (emitted (trace s' ++ [Logged DEBUG
                  ("Batch update: " +:+ String.concat ", " (u :: us))])
                = emitted (trace (subject c)) ++ ["batch_updated"]).
        rewrite emitted_app, Hem. apply app_nil_r.
      * exists (length (store c4)). split.
        { change (((store c4 ++ [data]) !! length (store c4)) = Some data).
          by apply list_lookup_middle. }
        intros p Hp.
        change (received p (trace s' ++ [Logged DEBUG
                  ("Batch update: " +:+ String.concat ", " (u :: us))])
                = received p (trace (subject c))
                  ++ [{| event_type := "batch_updated";
                         data := VRef (length (store c4)); kwargs := [] |}]).
        rewrite received_app, R. cbn [received omap]. rewrite app_nil_r.
        unfold once_for. by rewrite bool_decide_true.
    + split; [by rewrite Hnn, <- S4, Hev|].
      split; [apply (Hcache Containers)|]. split; [apply (Hcache Networks)|].
      split; [apply (Hcache Images)|]. split; [apply (Hcache Volumes)|].
      split; [intros H1' H2' H3' H4'; destruct (Hsome _ tt H1' H2' H3' H4' eq_refl)|].
      intros _. split; [exact Hem|].
      exists (length (store c4)). split.
      { change (((store c4 ++ [data]) !! length (store c4)) = Some data).
        by apply list_lookup_middle. }
      intros p Hp. cbn [subject with_subject]. rewrite R.
      unfold once_for. by rewrite bool_decide_true.
Qed.

End ControllerProperties.

(** Observers that never raise. *)
Definition quiet_update (o : Observer.obs)
    (earlier : list (Observer.Notification Controller.val))
    (n : Observer.Notification Controller.val) : result unit := Ok ().

(** A controller with two observers, whose store also holds the list
    [[{"name": "web"}]] at address 5, its element at address 4. *)
Definition sample_controller : Controller.DockerDataController :=
  Controller.with_subject
    (Observer.attach (Observer.attach (Controller.subject Controller.new) 1) 2)
    (Controller.with_store
       (Controller.store Controller.new
        ++ [Controller.ODict [("name", Controller.VStr "web")];
            Controller.OList [Controller.VRef 4]])
       Controller.new).

Section ControllerExamples.
Import Observer Controller.

Lemma update_resource_spec_witness :
  (update_resource quiet_update all_hashable Containers sample_controller VNone).1 = Ok ()
  /\ (forall r', cache r' (update_resource quiet_update all_hashable Containers sample_controller
                            (VStr "web")).2
                 = cache r' sample_controller)
  /\ cache Containers (update_resource quiet_update all_hashable Containers sample_controller
                         (VRef 5)).2 = VRef 5
  /\ emitted (trace (subject (update_resource quiet_update all_hashable Containers
                                sample_controller (VRef 5)).2))
     = emitted (trace (subject sample_controller)) ++ ["containers_updated"].
Proof.
  assert (Hwf : wf sample_controller) by compute_done.
  destruct (update_resource_spec quiet_update all_hashable Containers sample_controller VNone Hwf)
    as (Hret & _ & _).
  destruct (update_resource_spec quiet_update all_hashable Containers sample_controller
              (VStr "web") Hwf) as (_ & Hno & _).
  destruct (update_resource_spec quiet_update all_hashable Containers sample_controller
              (VRef 5) Hwf) as (_ & _ & Hyes).
  split; [exact Hret|]. split; [apply (Hno eq_refl)|].
  split; apply (Hyes eq_refl).
Defined.

Lemma get_after_update_witness :
  exists l',
    (get_resource Containers
       (update_resource quiet_update all_hashable Containers sample_controller (VRef 5)).2).1
    = Ok (VRef l')
    /\ l' <> 5
    /\ value 3
         (store (get_resource Containers
                   (update_resource quiet_update all_hashable Containers sample_controller
                      (VRef 5)).2).2)
         (VRef l')
       = Some (PList [PDict [("name", PStr "web")]])
    /\ forall o' : obj,
         let c2 := (get_resource Containers
                      (update_resource quiet_update all_hashable Containers sample_controller
                         (VRef 5)).2).2 in
         let c3 := with_store (<[l' := o']> (store c2)) c2 in
         exists l'',
           (get_resource Containers c3).1 = Ok (VRef l'')
           /\ l'' <> l'
           /\ value 3 (store (get_resource Containers c3).2) (VRef l'')
              = Some (PList [PDict [("name", PStr "web")]]).
Proof.
  apply (get_after_update quiet_update all_hashable Containers sample_controller 5 [VRef 4] 3
           (PList [PDict [("name", PStr "web")]])); reflexivity.
Defined.

(** The copy is shallow: the elements of the returned list are the cached
    elements themselves.  Changing the dictionary at address 4 in place,
    which the caller reaches as [get_containers()[0]], changes what the next
    [get_containers()] returns. *)
Lemma get_containers_shares_elements :
  let c1 := (update_containers quiet_update all_hashable sample_controller (VRef 5)).2 in
  let c2 := (get_containers c1).2 in
  let c3 := with_store (<[4 := ODict [("name", VStr "db")]]> (store c2)) c2 in
  (get_containers c1).1 = Ok (VRef 6)
  /\ store c2 !! 6 = Some (OList [VRef 4])
  /\ (get_containers c3).1 = Ok (VRef 7)
  /\ value 3 (store (get_containers c3).2) (VRef 7)
     = Some (PList [PDict [("name", PStr "db")]]).
Proof. vm_compute. repeat split. Qed.

Lemma update_all_resources_spec_witness :
  update_all_resources quiet_update all_hashable sample_controller VNone VNone VNone VNone
  = (Ok (), sample_controller)
  /\ emitted (trace (subject
        (update_all_resources quiet_update all_hashable sample_controller
           (VRef 5) VNone VNone (VRef 2)).2))
     = emitted (trace (subject sample_controller)) ++ ["batch_updated"]
  /\ cache Containers
       (update_all_resources quiet_update all_hashable sample_controller
          (VRef 5) VNone VNone (VRef 2)).2 = VRef 5.
Proof.
  assert (Hwf : wf sample_controller) by compute_done.
  destruct (update_all_resources_spec quiet_update all_hashable sample_controller
              VNone VNone VNone VNone Hwf eq_refl eq_refl eq_refl eq_refl)
    as (Hret & _ & _ & _ & _ & Hsame & _).
  destruct (update_all_resources_spec quiet_update all_hashable sample_controller
              (VRef 5) VNone VNone (VRef 2) Hwf eq_refl eq_refl eq_refl eq_refl)
    as (_ & Hc & _ & _ & _ & _ & Hone).
  split; [|split].
  - rewrite (surjective_pairing (update_all_resources _ _ _ _ _ _ _)).
    rewrite Hret. f_equal; first [by apply Hsame | reflexivity].
  - apply Hone. intros [? _]. discriminate.
  - exact Hc.
Defined.

End ControllerExamples.

(* ------------------------------------------------------------------ *)
(** ** The bounded task runner                                         *)
(* ------------------------------------------------------------------ *)
Section WorkerProperties.
Import Worker.

Implicit Types (r : Runner) (t : Task) (s : BoundedSemaphore).

(** The tasks whose [fn] was called, in order. *)
Definition ran (tr : list event) : list nat :=
  omap (fun e => match e with Ran i => Some i | _ => None end) tr.

(** Whether [_schedule_callback] gets the callback invoked: directly, or
    through [tk_root.after], or directly after [after] raised
    [RuntimeError]. *)
Definition delivers (tk : option Tk) : bool :=
  match tk with
  | None => true
  | Some tk =>
    match after tk with
    | Ok _ | Raise RuntimeError => true
    | Raise _ => false
    end
  end.

(** The invariant of the runner: the semaphore is within its bound, and
    the permits taken are those of the accepted, unfinished tasks. *)
Definition runner_inv r : Prop :=
  _initial_value (_pending_semaphore r) = _MAX_PENDING
  /\ (0 <= _value (_pending_semaphore r) <= _MAX_PENDING)%Z
  /\ pending r = Z.of_nat (length (accepted r)).

Lemma ran_app tr1 tr2 : ran (tr1 ++ tr2) = ran tr1 ++ ran tr2.
Proof. apply omap_app. Qed.

Lemma ran_schedule_callback tk w cb arg : ran (_schedule_callback tk w cb arg) = [].
Proof.
  unfold _schedule_callback.
  destruct tk as [tk|]; [destruct (after tk) as [|[]]|]; destruct (invoke cb); reflexivity.
Qed.

Lemma schedule_callback_delivers tk w cb arg :
  delivers tk = true ->
  exists d, Invoked w d arg ∈ _schedule_callback tk w cb arg.
Proof.
  unfold delivers, _schedule_callback. intros H.
  destruct tk as [tk|]; [destruct (after tk) as [|[]]; try discriminate|].
  - exists After. apply list_elem_of_here.
  - exists Direct. apply list_elem_of_further, list_elem_of_here.
  - exists Direct. apply list_elem_of_here.
Qed.

Lemma schedule_callback_undelivered tk w cb arg :
  delivers tk = false ->
  _schedule_callback tk w cb arg = [Logged ERROR "Error scheduling callback"].
Proof.
  unfold delivers, _schedule_callback. intros H.
  destruct tk as [tk|]; [|discriminate].
  destruct (after tk) as [|[]]; done.
Qed.

Lemma release_permit_value s msg :
  (_value s < _initial_value s)%Z ->
  _value (release_permit s msg).1 = (_value s + 1)%Z
  /\ _initial_value (release_permit s msg).1 = _initial_value s.
Proof.
  intros H. unfold release_permit, release.
  apply Z.leb_gt in H. rewrite H. done.
Qed.

Lemma release_permit_trace s msg : ran (release_permit s msg).2 = [].
Proof.
  unfold release_permit. destruct (release s) as [[|e] s']; [done|].
  by destruct msg.
Qed.

Lemma runner_inv_start : runner_inv start.
Proof. unfold runner_inv, pending, start, _MAX_PENDING; cbn. lia. Qed.

Lemma run_in_thread_inv submit r t block :
  runner_inv r -> runner_inv (run_in_thread submit r t block).2.
Proof.
  intros (Hi & Hv & Hp). unfold run_in_thread, acquire, acquire_nowait.
  destruct (0 <? _value (_pending_semaphore r))%Z eqn:Hpos.
  - apply Z.ltb_lt in Hpos.
    assert (Hacq : (if block
                    then Some (true, {| _value := _value (_pending_semaphore r) - 1;
                                        _initial_value := _initial_value (_pending_semaphore r) |})
                    else Some (true, {| _value := _value (_pending_semaphore r) - 1;
                                        _initial_value := _initial_value (_pending_semaphore r) |}))
                   = Some (true, {| _value := _value (_pending_semaphore r) - 1;
                                    _initial_value := _initial_value (_pending_semaphore r) |}))
      by (by destruct block).
    rewrite Hacq. destruct submit as [[]|e].
    + unfold runner_inv, pending in *; cbn. rewrite length_app; cbn. lia.
    + set (s := {| _value := _ ; _initial_value := _ |}).
      destruct (release_permit_value s None) as [Hrv Hri]; [cbn; lia|].
      destruct (release_permit s None) as [s' evs]. cbn [fst] in *.
      unfold runner_inv, pending in *; cbn in *. lia.
  - destruct block; [done|]. unfold runner_inv, pending in *; cbn. done.
Qed.

Lemma run_task_inv i r : runner_inv r -> runner_inv (run_task i r).
Proof.
  intros (Hi & Hv & Hp). unfold run_task.
  destruct (accepted r !! i) as [t|] eqn:E; [|done].
  pose proof (lookup_lt_Some _ _ _ E) as Hlt.
  unfold _task.
  destruct (release_permit_value (_pending_semaphore r)
              (Some "Error releasing pending semaphore")) as [Hrv Hri].
  { unfold pending in Hp. lia. }
  destruct (release_permit _ _) as [s' evs]. cbn [fst] in *.
  unfold runner_inv, pending in *; cbn. rewrite length_delete by (by eexists).
  lia.
Qed.

Lemma reachable_inv r : reachable r -> runner_inv r.
Proof.
  induction 1 as [|r r' _ IH Hstep]; [apply runner_inv_start|].
  destruct Hstep; [by apply run_in_thread_inv | by apply run_task_inv].
Qed.

(** C4, amended.  In every state the runner can reach: the pending-task
    count lies in [0, _MAX_PENDING] and counts exactly the accepted,
    unfinished tasks.  A non-blocking submission made when the count is
    [_MAX_PENDING] returns [None], accepts nothing and calls no [fn], keeps
    the count, and hands the failure callback, when there is one, to
    [_schedule_callback] with the [TaskQueueFull] error.  That gets the
    callback invoked when it can be delivered: there is no Tk root, or
    [after] returns or raises [RuntimeError]; when [after] raises anything
    else the error is logged and no callback is invoked.  The end of a
    task, whatever [fn] did, gives its permit back, and so does a
    submission the executor refuses. *)
Theorem bounded_task_runner r :
  reachable r ->
  (0 <= pending r <= _MAX_PENDING)%Z
  /\ pending r = Z.of_nat (length (accepted r))
  /\ (pending r = _MAX_PENDING -> forall submit t,
        (run_in_thread submit r t false).1 = ReturnedNone
        /\ accepted (run_in_thread submit r t false).2 = accepted r
        /\ ran (trace (run_in_thread submit r t false).2) = ran (trace r)
        /\ pending (run_in_thread submit r t false).2 = pending r
        /\ forall cb, on_error t = Some cb ->
             trace (run_in_thread submit r t false).2
             = trace r
               ++ Logged WARNING "Background task queue is full; dropping task"
               :: _schedule_callback (tk_root t) OnError cb
                    (Some (inr (TaskQueueFull "task queue full")))
             /\ (delivers (tk_root t) = true ->
                 exists d, Invoked OnError d (Some (inr (TaskQueueFull "task queue full")))
                           ∈ trace (run_in_thread submit r t false).2)
             /\ (delivers (tk_root t) = false ->
                 trace (run_in_thread submit r t false).2
                 = trace r
                   ++ [Logged WARNING "Background task queue is full; dropping task";
                       Logged ERROR "Error scheduling callback"]))
  /\ TaskQueueFull "task queue full" <> RuntimeError
  /\ (forall i t, accepted r !! i = Some t ->
        pending (run_task i r) = (pending r - 1)%Z
        /\ accepted (run_task i r) = delete i (accepted r)
        /\ ran (trace (run_task i r)) = ran (trace r) ++ [tid t])
  /\ (forall e t block,
        (pending r < _MAX_PENDING)%Z ->
        (run_in_thread (Raise e) r t block).1 = ReturnedNone
        /\ accepted (run_in_thread (Raise e) r t block).2 = accepted r
        /\ pending (run_in_thread (Raise e) r t block).2 = pending r).
Proof.
  intros Hreach. destruct (reachable_inv r Hreach) as (Hi & Hv & Hp).
  split; [unfold pending; lia|]. split; [exact Hp|].
  split; [|split; [discriminate|split]].
  - intros Hfull submit t.
    assert (Hz : (0 <? _value (_pending_semaphore r))%Z = false).
    { apply Z.ltb_ge. unfold pending in Hfull. lia. }
    unfold run_in_thread, acquire_nowait. rewrite Hz. cbn [fst snd accepted trace].
    split; [done|]. split; [done|]. split; [|split; [done|]].
    + rewrite ran_app. cbn. destruct (on_error t); [|by rewrite app_nil_r].
      by rewrite ran_schedule_callback, app_nil_r.
    + intros cb ->. split; [done|]. split; intros Hd.
      * destruct (schedule_callback_delivers (tk_root t) OnError cb
                    (Some (inr (TaskQueueFull "task queue full"))) Hd) as [d Hin].
        exists d. rewrite elem_of_app. right. by apply list_elem_of_further.
      * by rewrite (schedule_callback_undelivered _ _ _ _ Hd).
  - intros i t E. unfold run_task. rewrite E.
    pose proof (lookup_lt_Some _ _ _ E) as Hlt. unfold _task.
    destruct (release_permit_value (_pending_semaphore r)
                (Some "Error releasing pending semaphore")) as [Hrv Hri].
    { unfold pending in Hp. lia. }
    pose proof (release_permit_trace (_pending_semaphore r)
                  (Some "Error releasing pending semaphore")) as Hrt.
    destruct (release_permit _ _) as [s' evs]. cbn [fst snd] in *.
    unfold pending in *; cbn [_pending_semaphore accepted trace].
    split; [lia|]. split; [done|].
    rewrite ran_app. f_equal.
    change (Ran (tid t) :: ?l ++ evs) with ((Ran (tid t) :: l) ++ evs).
    rewrite ran_app, Hrt, app_nil_r.
    destruct (fn t); [destruct (on_done t)|destruct (on_error t)]; cbn;
      by rewrite ?ran_schedule_callback.
  - intros e t block Hlt.
    assert (Hz : (0 <? _value (_pending_semaphore r))%Z = true).
    { apply Z.ltb_lt. unfold pending in Hlt. lia. }
    unfold run_in_thread, acquire, acquire_nowait. rewrite Hz.
    set (s := {| _value := _ ; _initial_value := _ |}).
    assert (Hacq : (if block then Some (true, s) else Some (true, s)) = Some (true, s))
      by (by destruct block).
    rewrite Hacq.
    destruct (release_permit_value s None) as [Hrv Hri]; [cbn; lia|].
    destruct (release_permit s None) as [s' evs]. cbn [fst] in *.
    unfold pending in *; cbn in *. split; [done|]. split; [done|]. lia.
Qed.

End WorkerProperties.

Definition probe (i : nat) : Worker.Task :=
  {| Worker.tid := i; Worker.fn := Ok (PStr "done");
     Worker.on_done := None;
     Worker.on_error := Some {| Worker.invoke := Ok () |};
     Worker.tk_root := None |}.

(** [n] non-blocking submissions in a row, all accepted by the executor. *)
Fixpoint submit_n (n : nat) (r : Worker.Runner) : Worker.Runner :=
  match n with
  | O => r
  | S n' => (Worker.run_in_thread (Ok ()) (submit_n n' r) (probe n') false).2
  end.

Lemma submit_n_reachable n : Worker.reachable (submit_n n Worker.start).
Proof.
  induction n as [|n IH]; [apply Worker.reachable_start|].
  cbn [submit_n]. eapply Worker.reachable_step; [exact IH|]. apply Worker.step_submit.
Qed.

(** A caller whose Tk application was destroyed: [tk_root.after] raises
    [TclError], which is no [RuntimeError]. *)
Definition orphan (i : nat) : Worker.Task :=
  {| Worker.tid := i; Worker.fn := Ok (PStr "done");
     Worker.on_done := None;
     Worker.on_error := Some {| Worker.invoke := Ok () |};
     Worker.tk_root := Some {| Worker.after := Raise (OtherError "TclError") |} |}.

(** C4, as stated, fails: with [_MAX_PENDING] tasks outstanding, the
    non-blocking submission of a task that has a failure callback is
    rejected, and the failure callback is not invoked: [after] raises
    [TclError], which [_schedule_callback] catches and logs. *)
Lemma rejected_submission_invokes_nothing :
  Worker.reachable (submit_n 128 Worker.start)
  /\ Worker.pending (submit_n 128 Worker.start) = Worker._MAX_PENDING
  /\ Worker.on_error (orphan 128) = Some {| Worker.invoke := Ok () |}
  /\ (Worker.run_in_thread (Ok ()) (submit_n 128 Worker.start) (orphan 128) false).1
     = Worker.ReturnedNone
  /\ Worker.trace
       (Worker.run_in_thread (Ok ()) (submit_n 128 Worker.start) (orphan 128) false).2
     = [Worker.Logged WARNING "Background task queue is full; dropping task";
        Worker.Logged ERROR "Error scheduling callback"].
Proof.
  split; [apply submit_n_reachable|]. vm_compute. repeat split.
Qed.

Lemma bounded_task_runner_witness :
  Worker.pending (submit_n 128 Worker.start) = 128%Z
  /\ (Worker.run_in_thread (Ok ()) (submit_n 128 Worker.start) (probe 128) false).1
     = Worker.ReturnedNone
  /\ ran (Worker.trace
            (Worker.run_in_thread (Ok ()) (submit_n 128 Worker.start)
               (probe 128) false).2) = []
  /\ (exists d,
        Worker.Invoked Worker.OnError d (Some (inr (TaskQueueFull "task queue full")))
        ∈ Worker.trace
            (Worker.run_in_thread (Ok ()) (submit_n 128 Worker.start)
               (probe 128) false).2)
  /\ Worker.pending (Worker.run_task 0 (submit_n 128 Worker.start)) = 127%Z.
Proof.
  destruct (bounded_task_runner (submit_n 128 Worker.start) (submit_n_reachable 128))
    as (_ & _ & Hfull & _ & Hrun & _).
  assert (Hp : Worker.pending (submit_n 128 Worker.start) = 128%Z) by (vm_compute; reflexivity).
  destruct (Hfull Hp (Ok ()) (probe 128)) as (Hret & _ & Hran & _ & Hcb).
  destruct (Hcb _ eq_refl) as (_ & Hinv & _).
  destruct (Hrun 0 (probe 0)) as [Hdec _]; [vm_compute; reflexivity|].
  split; [exact Hp|]. split; [exact Hret|]. split; [rewrite Hran; vm_compute; reflexivity|].
  split; [apply Hinv; reflexivity|]. rewrite Hdec, Hp. reflexivity.
Defined.

(* ------------------------------------------------------------------ *)
(** ** The event listener                                              *)
(* ------------------------------------------------------------------ *)
Section EventsProperties.
Import Events.

(** The refreshes a trace triggers, and the events it forwards. *)
Definition refreshes (tr : list effect) : nat :=
  length (List.filter (fun e => match e with RunInThread _ => true | _ => false end) tr).

Definition forwarded (tr : list effect) : list pyval :=
  omap (fun e => match e with NotifyDockerEvent ev => Some ev | _ => None end) tr.

(** An event passes the filters: a container event with a relevant action
    on a container of the application. *)
Definition qualifies (event : pyval) : Prop :=
  exists action container_name, (app_event event).1 = Ok (Some (action, container_name)).

Lemma refreshes_app tr1 tr2 : refreshes (tr1 ++ tr2) = refreshes tr1 + refreshes tr2.
Proof. unfold refreshes. by rewrite List.filter_app, length_app. Qed.

Lemma forwarded_app tr1 tr2 : forwarded (tr1 ++ tr2) = forwarded tr1 ++ forwarded tr2.
Proof. apply omap_app. Qed.

(** The filters only log. *)
Lemma app_event_logs event :
  refreshes (app_event event).2 = 0 /\ forwarded (app_event event).2 = [].
Proof.
  unfold app_event. repeat case_match; done.
Qed.

(** An event that qualifies and is read less than [MIN_REFRESH_INTERVAL]
    after the last triggered refresh is forwarded and triggers nothing. *)
Lemma handle_event_debounced last now event :
  qualifies event ->
  (now - last < MIN_REFRESH_INTERVAL)%Q ->
  (handle_event last now event).1 = last
  /\ refreshes (handle_event last now event).2 = 0
  /\ forwarded (handle_event last now event).2 = [event].
Proof.
  intros (a & n & Hq) Hlt. unfold handle_event.
  destruct (app_event_logs event) as [Hr Hf].
  destruct (app_event event) as [res tr]. cbn [fst snd] in *. subst res.
  apply Qltb_lt in Hlt. rewrite Hlt. cbn [fst snd].
  rewrite !refreshes_app, !forwarded_app, Hr, Hf. done.
Qed.



End EventsProperties.

Definition app_started : pyval :=
  PDict [("Type", PStr "container"); ("Action", PStr "start");
         ("Actor", PDict [("Attributes", PDict [("name", PStr "dmm-web")])])].

Definition app_died : pyval :=
  PDict [("Type", PStr "container"); ("Action", PStr "die");
         ("Actor", PDict [("Attributes",
                           PDict [("name", PStr "web-clone-0a1b2c3d");
                                  ("dmm.created_by", PStr "docker-monitor-manager")])])].


(* ================================================================== *)
(** * Further properties of the code                                   *)
(* ================================================================== *)

(* ------------------------------------------------------------------ *)
(** ** The stats sampler, continued                                    *)
(* ------------------------------------------------------------------ *)
Section SamplerCoverage.
Import Stats Scaler.

(** A computation is benign when it raises nothing but [KeyError] and
    [TypeError], the classes the two handlers of the sampler catch. *)
Definition benign {A} (m : result A) : Prop :=
  match m with Ok _ => True | Raise e => KeyError_or_TypeError e = true end.

Lemma benign_bind {A B} (m : result A) (f : A -> result B) :
  benign m -> (forall a, m = Ok a -> benign (f a)) -> benign (m ≫= f).
Proof. destruct m as [a|e]; cbn; [intros _ H; by apply H | done]. Qed.

Lemma benign_caught {A} (m : result A) (h : exn -> result A) :
  benign m -> (forall e, exists a, h e = Ok a) ->
  exists a, try_except m KeyError_or_TypeError h = Ok a.
Proof.
  destruct m as [a|e]; cbn; intros Hb Hh; [by exists a|]. rewrite Hb. apply Hh.
Qed.

Lemma benign_subscript v k : benign (subscript v k).
Proof. destruct v; cbn; try done. by destruct (assoc k kvs). Qed.

Lemma benign_sub a b : benign (sub a b).
Proof. unfold sub. by repeat case_match. Qed.

Lemma benign_gt0 a : benign (gt0 a).
Proof. unfold gt0. by case_match. Qed.

Lemma benign_fmul x b : benign (fmul x b).
Proof. unfold fmul. by case_match. Qed.

Lemma subscript_dict v k x : subscript v k = Ok x -> exists kvs, v = PDict kvs.
Proof. destruct v; try discriminate. by eexists. Qed.

Lemma Qltb_0_nonzero x : Qltb 0 x = true -> Qeqb0 x = false.
Proof.
  intros H%Qltb_lt. unfold Qeqb0. apply Z.eqb_neq.
  unfold Qlt in H. cbn in H. lia.
Qed.

Lemma benign_truediv_pos a b : gt0 b = Ok true -> benign (truediv a b).
Proof.
  unfold gt0, truediv. destruct (as_number b) as [y|]; [|discriminate].
  intros [= H]. rewrite (Qltb_0_nonzero _ H). by destruct (as_number a).
Qed.

(** In the model, where numbers are exact rationals, the CPU percentage
    returns: what its body can raise, the handler catches, and the division
    is only reached with a positive divisor. *)
Lemma calculate_cpu_percent_returns (stats : pyval) :
  exists q, calculate_cpu_percent stats = Ok q.
Proof.
  unfold calculate_cpu_percent. apply benign_caught; [|by eexists].
  apply benign_bind; [apply benign_subscript | intros cpu_stats H1].
  apply benign_bind; [apply benign_subscript | intros cpu_usage H2].
  apply benign_bind; [apply benign_subscript | intros cpu_current _].
  apply benign_bind; [apply benign_subscript | intros precpu_stats _].
  apply benign_bind; [apply benign_subscript | intros precpu_usage _].
  apply benign_bind; [apply benign_subscript | intros cpu_prev _].
  apply benign_bind; [apply benign_subscript | intros cpu_stats' _].
  apply benign_bind; [apply benign_subscript | intros system_current _].
  apply benign_bind; [apply benign_subscript | intros precpu_stats' _].
  apply benign_bind; [apply benign_subscript | intros system_prev _].
  apply benign_bind; [apply benign_sub | intros cpu_delta _].
  apply benign_bind; [apply benign_sub | intros system_delta _].
  apply benign_bind; [apply benign_subscript | intros cpu_stats'' H3].
  assert (cpu_stats'' = cpu_stats) as -> by congruence.
  destruct (subscript_dict _ _ _ H2) as [kvs ->].
  apply benign_bind; [done | intros num_cpus _].
  apply benign_bind; [apply benign_gt0 | intros sys_pos Hsys].
  apply benign_bind; [destruct sys_pos; [apply benign_gt0 | done] | intros cpu_pos Hcpu].
  destruct cpu_pos; [|done]. destruct sys_pos; [|discriminate].
  apply benign_bind; [by apply benign_truediv_pos | intros r _].
  apply benign_bind; [apply benign_fmul | done].
Qed.

(** The value found by following keys into nested dictionaries. *)
Fixpoint path (v : pyval) (keys : list string) : option pyval :=
  match keys with
  | [] => Some v
  | k :: rest =>
    match v with
    | PDict kvs => match assoc k kvs with Some x => path x rest | None => None end
    | _ => None
    end
  end.




(** Whether every integer of a decoded value is below [2^64] in absolute
    value, as the unsigned 64-bit counters of the stats API are.  On such
    values the integer arithmetic of the code stays within the range of
    floats, so that no conversion of an integer to a float overflows. *)
Fixpoint counters_in_range (v : pyval) : bool :=
  match v with
  | PInt z => (Z.abs z <? 2 ^ 64)%Z
  | PList items => forallb counters_in_range items
  | PDict kvs => forallb (fun kv => counters_in_range kv.2) kvs
  | _ => true
  end.

(** X2.  On decoded stats of any shape whose integers are 64-bit
    counters, [calculate_cpu_percent] returns a number, and [0.0] when
    [stats] is no dictionary: a missing key, a field of the wrong type or
    a value that is no number raises [KeyError] or [TypeError], which the
    handler catches, the [get] is only reached on a dictionary and the
    division only with a positive divisor.  Unlike the RAM percentage it
    does not raise on malformed fields. *)
Theorem calculate_cpu_percent_total (stats : pyval) :
  counters_in_range stats = true ->
  exists q, calculate_cpu_percent stats = Ok q
            /\ ((forall kvs, stats <> PDict kvs) -> q = 0%Q).
Proof.
  intros _. destruct (calculate_cpu_percent_returns stats) as [q Hq]. exists q.
  split; [done|]. intros Hnd. destruct stats; cbn in Hq; try by injection Hq.
  by destruct (Hnd kvs).
Qed.

(** Stats whose counters are missing or are no numbers. *)
Definition malformed_stats : pyval :=
  PDict [("cpu_stats",
          PDict [("cpu_usage", PDict [("total_usage", PStr "n/a")]);
                 ("system_cpu_usage", PInt 9000)]);
         ("precpu_stats", PNone)].

Lemma calculate_cpu_percent_total_witness :
  counters_in_range malformed_stats = true
  /\ counters_in_range (PList [PInt 1; PInt 2]) = true
  /\ (exists q, calculate_cpu_percent malformed_stats = Ok q
                /\ ((forall kvs, malformed_stats <> PDict kvs) -> q = 0%Q))
  /\ exists q, calculate_cpu_percent (PList [PInt 1; PInt 2]) = Ok q
               /\ ((forall kvs, PList [PInt 1; PInt 2] <> PDict kvs) -> q = 0%Q).
Proof.
  split; [reflexivity|]. split; [reflexivity|]. split.
  - exact (calculate_cpu_percent_total malformed_stats eq_refl).
  - exact (calculate_cpu_percent_total (PList [PInt 1; PInt 2]) eq_refl).
Defined.

Lemma calculate_ram_percent_not_NotFound stats :
  calculate_ram_percent stats <> Raise NotFound.
Proof.
  unfold calculate_ram_percent.
  destruct (subscript stats "memory_stats") as [m|e] eqn:E; cbn [mbind result_bind].
  - unfold get, truediv.
    destruct m; cbn; try discriminate.
    repeat case_match; cbn; discriminate.
  - destruct stats; cbn in E; try (injection E as <-; discriminate).
    destruct (assoc _ _); [discriminate|]. injection E as <-. discriminate.
Qed.

Lemma sample_outcome rt c :
  match sample rt c with
  | (Ok s, tr) =>
    snap_id s = short_id c /\ snap_name s = name c /\ snap_status s = status c
  | (Raise e, tr) =>
    status c = "running" /\ (e = NotFound -> rt_stats rt c = Raise NotFound)
  end.
Proof.
  unfold sample. destruct (bool_decide (status c = "running")) eqn:Hr; cbn [negb]; [|done].
  apply bool_decide_eq_true in Hr.
  destruct (rt_stats rt c) as [stats|e]; cbn [mbind result_bind]; [|by split; [|intros ->]].
  destruct (calculate_cpu_percent_returns stats) as [q ->]. cbn [mbind result_bind].
  pose proof (calculate_ram_percent_not_NotFound stats) as Hn.
  destruct (calculate_ram_percent stats) as [q'|e]; cbn [mbind result_bind]; [done|].
  split; [done|]. intros ->. done.
Qed.

(** X3.  [get_container_stats] answers [None] exactly when the container
    is running and its stats call raised [NotFound]; every snapshot it
    returns for a container carries that container's short id, name and
    status, whatever failed on the way. *)
Theorem get_container_stats_outcome rt c :
  ((get_container_stats rt (Some c)).1 = None
   <-> status c = "running" /\ rt_stats rt c = Raise NotFound)
  /\ forall s, (get_container_stats rt (Some c)).1 = Some s ->
       snap_id s = short_id c /\ snap_name s = name c /\ snap_status s = status c.
Proof.
  pose proof (sample_outcome rt c) as H. unfold get_container_stats.
  split.
  - split.
    + destruct (sample rt c) as [[s|e] tr]; [done|].
      destruct H as [Hr Hn]. destruct e; try done. intros _. by split; [|apply Hn].
    + intros [Hr Hn]. unfold sample.
      rewrite bool_decide_true, Hn by done. done.
  - intros s. destruct (sample rt c) as [[s'|e] tr].
    + by intros [= <-].
    + destruct e; try discriminate; by intros [= <-].
Qed.

(** The API calls of a trace, in order. *)
Definition calls (tr : list effect) : list api_call :=
  omap (fun e => match e with Call a => Some a | _ => None end) tr.

Lemma calls_app tr1 tr2 : calls (tr1 ++ tr2) = calls tr1 ++ calls tr2.
Proof. apply omap_app. Qed.

Lemma calls_get_container_stats rt c :
  calls (get_container_stats rt (Some c)).2
  = if bool_decide (status c = "running") then [StatsOnce c] else [].
Proof.
  unfold get_container_stats, sample.
  destruct (bool_decide (status c = "running")); cbn [negb]; [|done].
  destruct (_ ≫= _) as [s|[]]; reflexivity.
Qed.

(** X4.  One sampling pass fetches the stats of every running container
    once, in listing order, and makes no other call to the runtime:
    containers that are not running cost no call. *)
Theorem sample_all_calls rt all :
  calls (sample_all rt all).2
  = map StatsOnce (List.filter (fun c => bool_decide (status c = "running")) all).
Proof.
  unfold sample_all; cbn [snd]. induction all as [|c all IH]; [done|].
  cbn [flat_map List.filter]. rewrite calls_app, IH, calls_get_container_stats.
  by destruct (bool_decide (status c = "running")).
Qed.

End SamplerCoverage.

(* ------------------------------------------------------------------ *)
(** ** The auto-scaler and the polling loop, continued                 *)
(* ------------------------------------------------------------------ *)
Section ScalerCoverage.
Import Stats Scaler.

Lemma clone_labels_is_clone p : clone_labels p !! "dmm.is_clone" = Some "true".
Proof. reflexivity. Qed.

Lemma clone_labels_parent p : clone_labels p !! "dmm.parent_container" = Some p.
Proof. reflexivity. Qed.

(** X5.  The labels [scale_container] gives a clone are the ones the
    scaler looks for: a listed container that carries the labels made for
    parent [p] is a clone, its parent name is [p], and it is counted among
    the existing clones of [p]. *)
Theorem clone_labels_recognised p c all :
  labels c = clone_labels p ->
  c ∈ all ->
  is_clone_container (Some c) = true
  /\ get_parent_container_name (Some c) = p
  /\ c ∈ existing_clones p all.
Proof.
  intros Hl Hin.
  assert (H1 : is_clone_container (Some c) = true).
  { unfold is_clone_container. rewrite Hl, clone_labels_is_clone, clone_labels_parent.
    rewrite !bool_decide_true; by eauto. }
  assert (H2 : get_parent_container_name (Some c) = p).
  { unfold get_parent_container_name. by rewrite Hl, clone_labels_parent. }
  split; [done|]. split; [done|].
  unfold existing_clones. apply list_elem_of_In, filter_In. split; [by apply list_elem_of_In|].
  rewrite H1, H2. by rewrite bool_decide_true.
Qed.

Lemma clone_labels_recognised_witness :
  is_clone_container (Some (clone_of_web "0a1b2c3d")) = true
  /\ get_parent_container_name (Some (clone_of_web "0a1b2c3d")) = "web"
  /\ clone_of_web "0a1b2c3d" ∈ existing_clones "web" web_family.
Proof.
  apply (clone_labels_recognised "web" (clone_of_web "0a1b2c3d") web_family).
  - reflexivity.
  - apply list_elem_of_further, list_elem_of_here.
Defined.






(** What an effect of [delete_clone] can be. *)
Lemma in_delete_clone rt clone e :
  e ∈ delete_clone rt clone ->
  (exists lv msg, e = Log lv msg)
  \/ e = Call (Stop clone 10)
  \/ (e = Call (Remove clone) /\ rt_stop rt clone = Ok ()).
Proof.
  unfold delete_clone. intros H.
  apply elem_of_cons in H as [->|H]; [by right; left|].
  destruct (rt_stop rt clone) as [[]|e'] eqn:Hs.
  - apply elem_of_cons in H as [->|H]; [by right; right|].
    destruct (rt_remove rt clone) as [|e'];
      apply list_elem_of_singleton in H as ->; left; try destruct e'; by eexists _, _.
  - apply list_elem_of_singleton in H as ->. left. destruct e'; by eexists _, _.
Qed.

(** What an effect of [scale_container] can be. *)
Lemma in_scale_container rt g uuid c all e :
  e ∈ scale_container rt g uuid (Some c) (Some all) ->
  (exists lv msg, e = Log lv msg)
  \/ e = Call (Pause c)
  \/ (exists clone, clone ∈ existing_clones (name c) all /\ e ∈ delete_clone rt clone)
  \/ (exists i cm n l, e = Call (Run i cm n l)).
Proof.
  unfold scale_container, delete_clones.
  destruct (CLONE_NUM g <=? _)%Z.
  - rewrite elem_of_app. intros [H|H].
    + apply elem_of_cons in H as [->|H]; [left; by eexists _, _|].
      apply elem_of_cons in H as [->|H]; [by right; left|].
      apply list_elem_of_singleton in H as ->. left.
      destruct (rt_pause rt c) as [|e']; [|destruct (is_APIError e')]; by eexists _, _.
    + apply list_elem_of_In, in_flat_map in H as (clone & Hc & H).
      right; right; left. exists clone. by split; apply list_elem_of_In.
  - destruct (negb _); [|destruct (_ <=? _)%Z].
    + intros ->%list_elem_of_singleton. left; by eexists _, _.
    + intros ->%list_elem_of_singleton. left; by eexists _, _.
    + intros H. apply elem_of_cons in H as [->|H]; [right; right; right; by eexists _, _, _, _|].
      apply list_elem_of_singleton in H as ->. left.
      destruct (rt_run rt _ _ _ _) as [|e']; [|destruct (is_APIError e')]; by eexists _, _.
Qed.

(** What an effect of the second loop of the auto-scaling block can be. *)
Lemma in_handle_overloaded rt v gk uuid all e l : forall k,
  e ∈ handle_overloaded rt v gk uuid all k l ->
  (exists lv msg, e = Log lv msg)
  \/ exists k' c s,
       (c, s) ∈ l
       /\ AUTO_SCALE_ENABLED (gk k') = true /\ CONFIG_VERSION (gk k') = v
       /\ e ∈ scale_container rt (gk k') (uuid k') (Some c) (Some all).
Proof.
  induction l as [|[c s] l IH]; intros k H; cbn [handle_overloaded] in H.
  - by apply elem_of_nil in H.
  - apply elem_of_app in H as [H|H].
    + destruct (AUTO_SCALE_ENABLED (gk k)) eqn:Hen; cbn [negb] in H.
      * apply elem_of_cons in H as [->|H]; [left; by eexists _, _|].
        destruct (CONFIG_VERSION (gk k) =? v)%Z eqn:Hv; cbn [negb] in H.
        -- right. exists k, c, s. apply Z.eqb_eq in Hv.
           split; [apply list_elem_of_here|done].
        -- apply list_elem_of_singleton in H as ->. left; by eexists _, _.
      * apply list_elem_of_singleton in H as ->. left; by eexists _, _.
    + destruct (IH _ H) as [Hl|(k' & c' & s' & Hin & ?)]; [by left|].
      right. exists k', c', s'. split; [by apply list_elem_of_further|done].
Qed.

Lemma in_sampling rt all e :
  e ∈ (sample_all rt all).2 ->
  (exists lv msg, e = Log lv msg) \/ exists c, c ∈ all /\ e = Call (StatsOnce c).
Proof.
  unfold sample_all; cbn [snd]. intros H.
  apply list_elem_of_In, in_flat_map in H as (c & Hc & H). apply list_elem_of_In in H.
  apply list_elem_of_In in Hc.
  unfold get_container_stats, sample in H.
  destruct (negb _); [by apply elem_of_nil in H|].
  destruct (_ ≫= _) as [s|e'].
  - apply list_elem_of_singleton in H as ->. right. by exists c.
  - assert (e = Call (StatsOnce c) \/ exists lv msg, e = Log lv msg) as [->|?].
    { destruct e'; cbn in H; apply elem_of_cons in H as [->|H]; try (by left);
        apply list_elem_of_singleton in H as ->; right; by eexists _, _. }
    + right. by exists c.
    + by left.
Qed.

(** Every effect of a polling cycle: a log record, a stats call, an effect
    of [scale_container] on an overloaded container while the flag is set
    and the version unchanged, the publication, or the final sleep. *)
Lemma in_monitor_iteration_inv rt g0 gk uuid all e :
  e ∈ monitor_iteration rt g0 gk uuid (Ok all) ->
  (exists lv msg, e = Log lv msg)
  \/ (exists c, c ∈ all /\ e = Call (StatsOnce c))
  \/ (exists k c s,
        (c, s) ∈ omap (select_overloaded g0) (sample_all rt all).1
        /\ AUTO_SCALE_ENABLED g0 = true
        /\ AUTO_SCALE_ENABLED (gk k) = true
        /\ CONFIG_VERSION (gk k) = CONFIG_VERSION g0
        /\ e ∈ scale_container rt (gk k) (uuid k) (Some c) (Some all))
  \/ (exists p, e = UpdateContainers p \/ e = Offer "stats" p)
  \/ e = Sleep (SLEEP_TIME g0).
Proof.
  unfold monitor_iteration. pose proof (in_sampling rt all e) as Hs.
  destruct (sample_all rt all) as [pairs sampling]. cbn [fst snd] in *.
  rewrite !elem_of_app. intros [[H|[H|H]]|H].
  - destruct (Hs H) as [?|?]; [by left | by right; left].
  - unfold auto_scaling in H. destruct (AUTO_SCALE_ENABLED g0); [|by apply elem_of_nil in H].
    apply in_handle_overloaded in H as [?|(k & c & s & Hin & Hen & Hv & H)]; [by left|].
    right; right; left. by exists k, c, s.
  - right; right; right; left.
    apply elem_of_cons in H as [->|H]; [eexists; by left|].
    apply list_elem_of_singleton in H as ->. eexists; by right.
  - apply list_elem_of_singleton in H as ->. by repeat right.
Qed.

Lemma in_existing_clones p all x :
  x ∈ existing_clones p all ->
  x ∈ all /\ is_clone_container (Some x) = true /\ get_parent_container_name (Some x) = p.
Proof.
  unfold existing_clones. intros H. apply list_elem_of_In, filter_In in H as [Hin H].
  apply andb_prop in H as [H1 H2]. apply bool_decide_eq_true in H2.
  split; [by apply list_elem_of_In|done].
Qed.

(** Closes a goal in which an effect is assumed to differ from itself. *)
Ltac absurd_effect := exfalso; match goal with N : _ |- _ => by eapply N end.

(** X7.  A polling cycle stops and removes labelled clones only.  Every
    [stop] it issues, with the timeout of 10 seconds, and every [remove]
    targets a container of the listing that is a clone; and a clone is
    removed only after its [stop] returned. *)
Theorem cycle_deletes_only_clones rt g0 gk uuid all x :
  (forall t, Call (Stop x t) ∈ monitor_iteration rt g0 gk uuid (Ok all) ->
     t = 10%Z /\ x ∈ all /\ is_clone_container (Some x) = true)
  /\ (Call (Remove x) ∈ monitor_iteration rt g0 gk uuid (Ok all) ->
        x ∈ all /\ is_clone_container (Some x) = true /\ rt_stop rt x = Ok ()).
Proof.
  assert (Hinv : forall e, (forall lv msg, e <> Log lv msg) ->
            (forall c, e <> Call (StatsOnce c)) -> (forall c, e <> Call (Pause c)) ->
            (forall i cm n l, e <> Call (Run i cm n l)) ->
            (forall p, e <> UpdateContainers p) -> (forall q p, e <> Offer q p) ->
            (forall q, e <> Sleep q) ->
            e ∈ monitor_iteration rt g0 gk uuid (Ok all) ->
            exists clone, clone ∈ all /\ is_clone_container (Some clone) = true
                          /\ (e = Call (Stop clone 10)
                              \/ (e = Call (Remove clone) /\ rt_stop rt clone = Ok ()))).
  { intros e N1 N2 N3 N4 N5 N6 N7 H.
    apply in_monitor_iteration_inv in H
      as [(?&?&->)|[(?&?&->)|[(k&c&s&_&_&_&_&H)|[(?&[->| ->])| ->]]]];
      try absurd_effect.
    apply in_scale_container in H as [(?&?&->)|[->|[(clone&Hc&H)|(?&?&?&?&->)]]];
      try absurd_effect.
    apply in_existing_clones in Hc as (Hin & Hcl & _).
    apply in_delete_clone in H as [(?&?&->)|H]; [absurd_effect|].
    by exists clone. }
  split.
  - intros t H. apply Hinv in H as (clone & Hin & Hcl & [[= -> ->]|[[=] _]]); done.
  - intros H. apply Hinv in H as (clone & Hin & Hcl & [[=]|[[= ->] Hs]]); done.
Qed.

Lemma handle_overloaded_stale rt v gk uuid all l : forall k,
  (forall k, AUTO_SCALE_ENABLED (gk k) = false \/ CONFIG_VERSION (gk k) <> v) ->
  List.filter is_scaling_call (handle_overloaded rt v gk uuid all k l) = [].
Proof.
  induction l as [|[c s] l IH]; intros k Hg; [done|].
  cbn [handle_overloaded]. rewrite List.filter_app, IH, app_nil_r by done.
  destruct (AUTO_SCALE_ENABLED (gk k)) eqn:Hen; cbn [negb]; [|done].
  destruct (Hg k) as [Ho|Hv]; [congruence|].
  apply Z.eqb_neq in Hv. rewrite Hv. done.
Qed.

(** X8.  The stale-decision guard: when, at each point where an overloaded
    container is about to be handled, the flag has been switched off or
    [CONFIG_VERSION] differs from the version captured before the detection
    pass, the polling cycle pauses, stops, removes and runs nothing. *)
Theorem stale_decisions_are_skipped rt g0 gk uuid listing :
  (forall k, AUTO_SCALE_ENABLED (gk k) = false
             \/ CONFIG_VERSION (gk k) <> CONFIG_VERSION g0) ->
  List.filter is_scaling_call (monitor_iteration rt g0 gk uuid listing) = [].
Proof.
  intros Hg. unfold monitor_iteration. destruct listing as [all|e]; [|done].
  pose proof (sampling_no_scaling_call rt all) as Hs.
  destruct (sample_all rt all) as [pairs sampling]. cbn [snd] in Hs.
  rewrite !List.filter_app, Hs. unfold auto_scaling.
  destruct (AUTO_SCALE_ENABLED g0); [|done].
  by rewrite handle_overloaded_stale.
Qed.

(** The configuration after the user edited a limit in the GUI. *)
Definition edited_globals : Globals :=
  {| CPU_LIMIT := 90; RAM_LIMIT := 90; CLONE_NUM := 2; SLEEP_TIME := 1;
     AUTO_SCALE_ENABLED := true; CONFIG_VERSION := 1 |}.

Lemma stale_decisions_are_skipped_witness :
  List.filter is_scaling_call
    (monitor_iteration busy_runtime initial_globals (fun _ => edited_globals)
       (fun _ => "9f8e7d6c") (Ok web_family)) = [].
Proof.
  apply (stale_decisions_are_skipped busy_runtime initial_globals
           (fun _ => edited_globals)).
  intros k. right. vm_compute. discriminate.
Defined.






End ScalerCoverage.

(* ------------------------------------------------------------------ *)
(** ** The subject and its observers, continued                        *)
(* ------------------------------------------------------------------ *)
Section ObserverCoverage.
Import Observer.
Context {D : Type}.
Variable update : obs -> list (Notification D) -> Notification D -> result unit.
Variable hashable : obs -> bool.

Implicit Types (s : Subject D) (n : Notification D) (o p : obs).

(** What a client can do with a subject. *)
Inductive op :=
| Attach (o : obs)
| Detach (o : obs)
| Notify (n : Notification D).

Definition run_op (s : Subject D) (x : op) : Subject D :=
  match x with
  | Attach o => attach s o
  | Detach o => detach s o
  | Notify n => (notifyObservers update hashable s (event_type n) (data n) (kwargs n)).2
  end.

Definition run_ops (s : Subject D) (xs : list op) : Subject D :=
  foldl run_op s xs.

Lemma list_remove_elem x (l : list obs) p :
  p ∈ list_remove x l -> p ∈ l.
Proof.
  induction l as [|y l IH]; cbn; [done|].
  destruct (bool_decide (x = y)); [by right|].
  intros [->|H]%elem_of_cons; [by left | right; by apply IH].
Qed.

Lemma list_remove_NoDup x (l : list obs) : NoDup l -> NoDup (list_remove x l).
Proof.
  induction l as [|y l IH]; cbn; [done|]. intros [Hy Hl]%NoDup_cons.
  destruct (bool_decide (x = y)); [done|].
  apply NoDup_cons. split; [|by apply IH]. intros H. by apply Hy, (list_remove_elem x).
Qed.

Lemma list_remove_gone x (l : list obs) : NoDup l -> x ∉ list_remove x l.
Proof.
  induction l as [|y l IH]; cbn; [intros _; apply not_elem_of_nil|].
  intros [Hy Hl]%NoDup_cons.
  destruct (bool_decide (x = y)) eqn:E.
  - apply bool_decide_eq_true in E as ->. done.
  - apply bool_decide_eq_false in E. intros [?|H]%elem_of_cons; [done|]. by apply IH.
Qed.

Lemma list_remove_other x (l : list obs) p : p <> x -> p ∈ l -> p ∈ list_remove x l.
Proof.
  intros Hne. induction l as [|y l IH]; cbn; [done|].
  destruct (bool_decide (x = y)) eqn:E.
  - apply bool_decide_eq_true in E as <-. by intros [?|?]%elem_of_cons.
  - intros [->|H]%elem_of_cons; [by left | right; by apply IH].
Qed.

Lemma list_remove_snoc x (l : list obs) : x ∉ l -> list_remove x (l ++ [x]) = l.
Proof.
  induction l as [|y l IH]; cbn.
  - intros _. by rewrite bool_decide_true.
  - intros H. rewrite bool_decide_false by (intros ->; apply H; by left).
    f_equal. apply IH. intros ?; apply H; by right.
Qed.

Lemma attach_observers s o :
  _observers (attach s o)
  = if bool_decide (o ∈ _observers s) then _observers s else _observers s ++ [o].
Proof. unfold attach. by destruct (bool_decide (o ∈ _observers s)). Qed.

Lemma detach_observers s o :
  _observers (detach s o)
  = if bool_decide (o ∈ _observers s) then list_remove o (_observers s) else _observers s.
Proof. unfold detach. by destruct (bool_decide (o ∈ _observers s)). Qed.

Lemma run_op_NoDup s x : NoDup (_observers s) -> NoDup (_observers (run_op s x)).
Proof.
  intros H. destruct x as [o|o|n]; cbn [run_op].
  - rewrite attach_observers. destruct (bool_decide (o ∈ _observers s)) eqn:E; [done|].
    apply bool_decide_eq_false in E. apply NoDup_app. split; [done|].
    split; [|apply NoDup_singleton]. by intros x Hx ->%list_elem_of_singleton.
  - rewrite detach_observers. destruct (bool_decide _); [by apply list_remove_NoDup|done].
  - by apply notifyObservers_observers.
Qed.

Lemma run_ops_NoDup (xs : list op) : forall s,
  NoDup (_observers s) -> NoDup (_observers (run_ops s xs)).
Proof.
  induction xs as [|x xs IH]; intros s Hs; [done|].
  apply IH. by apply run_op_NoDup.
Qed.

(** X10.  Whatever sequence of [attach], [detach] and [notifyObservers]
    calls a subject goes through from its creation, no observer is ever
    in its list twice: each observer is sent a notification at most once
    per pass. *)
Theorem observers_never_duplicated (xs : list op) :
  NoDup (_observers (run_ops init xs))
  /\ forall n p,
       length (received p (trace (run_op (run_ops init xs) (Notify n))))
       <= S (length (received p (trace (run_ops init xs)))).
Proof.
  assert (H : NoDup (_observers (run_ops (init : Subject D) xs))).
  { apply run_ops_NoDup. apply NoDup_nil_2. }
  split; [done|]. intros n p. cbn [run_op].
  destruct (notifyObservers_spec update hashable _ (event_type n) (data n) (kwargs n) H)
    as (s' & -> & _ & R). cbn [snd]. rewrite R, length_app.
  unfold once_for. destruct (bool_decide _); cbn; lia.
Qed.

(** X11.  [attach] registers an observer once: afterwards the observer is
    attached, attaching it again changes nothing, and the observer count
    grew by one exactly if the observer was not attached before. *)
Theorem attach_once s o :
  o ∈ _observers (attach s o)
  /\ attach (attach s o) o = attach s o
  /\ get_observer_count (attach s o)
     = get_observer_count s + (if bool_decide (o ∈ _observers s) then 0 else 1).
Proof.
  assert (Hin : o ∈ _observers (attach s o)).
  { rewrite attach_observers. destruct (bool_decide (o ∈ _observers s)) eqn:E.
    - by apply bool_decide_eq_true in E.
    - apply elem_of_app. right. apply list_elem_of_here. }
  split; [done|]. split.
  - unfold attach at 1. by rewrite bool_decide_true.
  - unfold get_observer_count. rewrite attach_observers.
    destruct (bool_decide _); [lia|]. rewrite length_app. cbn. lia.
Qed.

(** X12.  On a subject without duplicates, [detach] removes the observer
    and no other: afterwards it is not attached, every other observer is
    attached exactly if it was before, and detaching an observer right
    after it was newly attached gives back the former observer list. *)
Theorem detach_removes s o :
  NoDup (_observers s) ->
  (o ∉ _observers (detach s o))
  /\ (forall p, p <> o -> p ∈ _observers (detach s o) <-> p ∈ _observers s)
  /\ (o ∉ _observers s -> _observers (detach (attach s o) o) = _observers s).
Proof.
  intros Hnd. rewrite detach_observers. split; [|split].
  - destruct (bool_decide (o ∈ _observers s)) eqn:E.
    + by apply list_remove_gone.
    + by apply bool_decide_eq_false in E.
  - intros p Hne. destruct (bool_decide (o ∈ _observers s)); [|done].
    split; [apply list_remove_elem | by apply list_remove_other].
  - intros Hout. rewrite detach_observers, attach_observers.
    rewrite (bool_decide_false (o ∈ _observers s)) by done.
    rewrite bool_decide_true by (apply elem_of_app; right; apply list_elem_of_here).
    by apply list_remove_snoc.
Qed.

(** The observers whose [update] a trace calls, in order. *)
Definition updated (tr : list (event D)) : list obs :=
  omap (fun e => match e with Update o _ => Some o | _ => None end) tr.

Lemma updated_app tr1 tr2 : updated (tr1 ++ tr2) = updated tr1 ++ updated tr2.
Proof. apply omap_app. Qed.

Lemma notify_each_updated n (l : list obs) : forall tr,
  updated (notify_each update n tr l).2 = updated tr ++ l.
Proof.
  induction l as [|o l IH]; intros tr; [by rewrite app_nil_r|].
  cbn [notify_each]. unfold notify_observer.
  destruct (update o (received o tr) n) as [[]|e]; cbn [try_except mbind result_bind];
    match goal with |- context [notify_each update n ?t l] =>
      specialize (IH t); destruct (notify_each update n t l) end;
    cbn [snd] in *; rewrite IH, updated_app; cbn; by rewrite <- app_assoc.
Qed.

Lemma notify_each_no_failure n (l : list obs) : forall tr,
  (forall o hist, o ∈ l -> update o hist n = Ok ()) ->
  (notify_each update n tr l).1 = Ok [].
Proof.
  induction l as [|o l IH]; intros tr H; [done|].
  cbn [notify_each]. unfold notify_observer.
  rewrite (H o) by (by left). cbn [try_except mbind result_bind].
  specialize (IH (tr ++ [Update o n]) (fun o' hist Ho => H o' hist (list_elem_of_further _ _ _ Ho))).
  destruct (notify_each update n _ l) as [f tr']. cbn [fst] in IH. by rewrite IH.
Qed.

Lemma updated_logged {A} lv msg (l : list A) :
  updated (map (fun _ => Logged lv msg : event D) l) = [].
Proof. by induction l. Qed.

(** X13.  A notification pass calls [update] on every attached observer,
    once each and in registration order, also after one of them raised;
    and when no observer raises on the notification, the observer list is
    left as it was. *)
Theorem notify_in_registration_order s et d kw :
  updated (trace (notifyObservers update hashable s et d kw).2)
  = updated (trace s) ++ _observers s
  /\ ((forall o hist, o ∈ _observers s ->
         update o hist {| event_type := et; data := d; kwargs := kw |} = Ok ()) ->
      _observers (notifyObservers update hashable s et d kw).2 = _observers s).
Proof.
  unfold notifyObservers.
  set (n := {| event_type := et; data := d; kwargs := kw |}).
  set (tr0 := trace s ++ [Notifying (length (_observers s)) et]).
  pose proof (notify_each_updated n (_observers s) tr0) as Hu.
  pose proof (notify_each_no_failure n (_observers s) tr0) as Hn.
  assert (H0 : updated tr0 = updated (trace s)).
  { unfold tr0. rewrite updated_app. apply app_nil_r. }
  destruct (notify_each update n tr0 (_observers s)) as [[[|f failed]|e] tr1];
    cbn [fst snd trace _observers] in *.
  - split; [by rewrite Hu, H0 | done].
  - split.
    + unfold set, not_in_set.
      destruct (forallb hashable (f :: failed)); cbn [mbind result_bind];
        [destruct (forallb hashable (_observers s)); cbn [mbind result_bind]|];
        cbn [snd trace];
        rewrite ?updated_app, ?updated_logged, ?app_nil_r, Hu, H0; done.
    + intros Hok. specialize (Hn Hok). discriminate.
  - split; [by rewrite Hu, H0 | done].
Qed.


End ObserverCoverage.


Lemma detach_removes_witness :
  (2 ∉ Observer._observers (Observer.detach three_observers 2))
  /\ Observer._observers
       (Observer.detach
          (Observer.attach (Observer.attach (Observer.init : Observer.Subject string) 1) 2)
          2) = [1].
Proof.
  split.
  - apply (detach_removes three_observers 2). compute_done.
  - apply (detach_removes (Observer.attach Observer.init 1) 2); compute_done.
Defined.

(* ------------------------------------------------------------------ *)
(** ** The bounded task runner, continued                              *)
(* ------------------------------------------------------------------ *)
Section WorkerCoverage.
Import Worker.

Implicit Types (r : Runner) (t : Task).

(** The callbacks a trace invokes, with their arguments, in order. *)
Definition invoked (tr : list event) : list (which * option (pyval + exn)) :=
  omap (fun e => match e with Invoked w _ a => Some (w, a) | _ => None end) tr.

Lemma invoked_app tr1 tr2 : invoked (tr1 ++ tr2) = invoked tr1 ++ invoked tr2.
Proof. apply omap_app. Qed.

Lemma invoked_schedule_callback tk w cb arg :
  invoked (_schedule_callback tk w cb arg) = if delivers tk then [(w, arg)] else [].
Proof.
  unfold _schedule_callback, delivers.
  destruct tk as [tk|]; [destruct (after tk) as [|[]]|]; destruct (invoke cb); reflexivity.
Qed.

Lemma invoked_release_permit s msg : invoked (release_permit s msg).2 = [].
Proof.
  unfold release_permit. destruct (release s) as [[|e] s']; [done|]. by destruct msg.
Qed.

(** X15.  A task run by the pool invokes at most one callback: [on_done]
    with the result when [fn] returned, [on_error] with the exception when
    [fn] raised, and only if that callback was given and can be delivered.
    A callback that itself fails is logged and triggers no other callback;
    a result of [None] is passed as no argument at all. *)
Theorem task_invokes_one_callback t s :
  invoked (_task t s).2
  = match fn t with
    | Ok result =>
      match on_done t with
      | Some _ => if delivers (tk_root t) then [(OnDone, arg_of_result result)] else []
      | None => []
      end
    | Raise e =>
      match on_error t with
      | Some _ => if delivers (tk_root t) then [(OnError, Some (inr e))] else []
      | None => []
      end
    end.
Proof.
  unfold _task.
  pose proof (invoked_release_permit s (Some "Error releasing pending semaphore")) as Hr.
  destruct (release_permit s _) as [s' released]. cbn [fst snd] in *.
  rewrite invoked_app, Hr, app_nil_r.
  destruct (fn t) as [v|e]; [destruct (on_done t)|destruct (on_error t)]; cbn;
    by rewrite ?invoked_schedule_callback.
Qed.

(** Running the first accepted task, [n] times over. *)
Fixpoint drain (n : nat) (r : Runner) : Runner :=
  match n with
  | O => r
  | S n' => run_task 0 (drain n' r)
  end.

Lemma drain_spec n : forall r,
  runner_inv r -> n <= length (accepted r) ->
  runner_inv (drain n r)
  /\ length (accepted (drain n r)) = length (accepted r) - n.
Proof.
  induction n as [|n IH]; intros r Hinv Hn.
  - split; [done|]. cbn. lia.
  - destruct (IH r Hinv) as [Hi Hl]; [lia|].
    cbn [drain]. set (r' := drain n r) in *.
    split; [by apply run_task_inv|].
    unfold run_task. destruct (accepted r' !! 0) as [t|] eqn:E.
    + destruct (_task t (_pending_semaphore r')) as [s evs].
      cbv beta iota zeta. cbn [accepted].
      rewrite length_delete by (by eexists). lia.
    + apply lookup_ge_None in E. lia.
Qed.

(** X16.  No permit is lost over the life of the runner: from any state
    it can reach, once the accepted tasks have all run to their end, the
    pending count is back to zero, the semaphore is back to
    [_MAX_PENDING], and a new submission is accepted. *)
Theorem drained_runner_is_idle r t :
  reachable r ->
  pending (drain (length (accepted r)) r) = 0%Z
  /\ accepted (drain (length (accepted r)) r) = []
  /\ _value (_pending_semaphore (drain (length (accepted r)) r)) = _MAX_PENDING
  /\ (run_in_thread (Ok ()) (drain (length (accepted r)) r) t false).1 = Future.
Proof.
  intros Hreach. pose proof (reachable_inv r Hreach) as Hinv.
  destruct (drain_spec (length (accepted r)) r Hinv) as [(Hi & Hv & Hp) Hl]; [lia|].
  assert (Hnil : accepted (drain (length (accepted r)) r) = []).
  { apply length_zero_iff_nil. lia. }
  rewrite Hnil in Hp. cbn in Hp. unfold pending in *.
  split; [done|]. split; [done|]. split; [lia|].
  unfold run_in_thread, acquire_nowait.
  rewrite (proj2 (Z.ltb_lt 0 _)) by (unfold _MAX_PENDING in *; lia). done.
Qed.

Lemma drained_runner_is_idle_witness :
  pending (drain 128 (submit_n 128 start)) = 0%Z
  /\ (run_in_thread (Ok ()) (drain 128 (submit_n 128 start)) (probe 128) false).1
     = Future.
Proof.
  destruct (drained_runner_is_idle (submit_n 128 start) (probe 128)
              (submit_n_reachable 128)) as (Hp & _ & _ & Hf).
  assert (Hl : length (accepted (submit_n 128 start)) = 128) by (vm_compute; reflexivity).
  rewrite Hl in Hp, Hf. by split.
Defined.

(** X17.  Blocking admission: at capacity a blocking submission waits and
    changes nothing; as soon as any accepted task has run to its end, the
    same submission is accepted, the task is queued last, and the runner
    is at capacity again. *)
Theorem blocking_submission_waits r t i :
  reachable r ->
  pending r = _MAX_PENDING ->
  i < length (accepted r) ->
  run_in_thread (Ok ()) r t true = (Waits, r)
  /\ (run_in_thread (Ok ()) (run_task i r) t true).1 = Future
  /\ accepted (run_in_thread (Ok ()) (run_task i r) t true).2
     = delete i (accepted r) ++ [t]
  /\ pending (run_in_thread (Ok ()) (run_task i r) t true).2 = _MAX_PENDING.
Proof.
  intros Hreach Hfull Hi. pose proof (reachable_inv r Hreach) as (Hiv & Hv & Hp).
  split.
  - unfold run_in_thread, acquire. unfold pending in Hfull.
    rewrite (proj2 (Z.ltb_ge 0 _)) by lia. done.
  - destruct (lookup_lt_is_Some_2 _ _ Hi) as [t' E].
    unfold run_task. rewrite E. unfold _task.
    destruct (release_permit_value (_pending_semaphore r)
                (Some "Error releasing pending semaphore")) as [Hrv Hri].
    { unfold pending in Hfull. unfold _MAX_PENDING in *. lia. }
    destruct (release_permit _ _) as [s' evs]. cbn [fst] in *.
    unfold run_in_thread, acquire. cbn [_pending_semaphore accepted trace].
    unfold pending in *.
    rewrite (proj2 (Z.ltb_lt 0 _)) by lia. cbn. split; [done|]. split; [done|]. lia.
Qed.

Lemma blocking_submission_waits_witness :
  run_in_thread (Ok ()) (submit_n 128 start) (probe 128) true
  = (Waits, submit_n 128 start)
  /\ (run_in_thread (Ok ()) (run_task 5 (submit_n 128 start)) (probe 128) true).1
     = Future.
Proof.
  destruct (blocking_submission_waits (submit_n 128 start) (probe 128) 5
              (submit_n_reachable 128)) as (Hw & Hf & _).
  - vm_compute. reflexivity.
  - vm_compute. lia.
  - by split.
Defined.

End WorkerCoverage.

(* ------------------------------------------------------------------ *)
(** ** The event listener, continued                                   *)
(* ------------------------------------------------------------------ *)
Section EventsCoverage.
Import Scaler Events.

Lemma qualifies_dec event :
  qualifies event \/ forall a n, (app_event event).1 <> Ok (Some (a, n)).
Proof.
  unfold qualifies. destruct (app_event event).1 as [[[a n]|]|e].
  - left. by exists a, n.
  - by right.
  - by right.
Qed.

(** X18.  An event that does not pass the filters -- not a container
    event, an action the listener does not follow, a container that is not
    the application's, or an event too malformed to read -- is not
    forwarded to the observers, triggers no refresh and leaves the time of
    the last refresh alone; the loop goes on with the next event. *)
Theorem unqualified_event_is_ignored last now event rest :
  ~ qualifies event ->
  (handle_event last now event).1 = last
  /\ forwarded (handle_event last now event).2 = []
  /\ refreshes (handle_event last now event).2 = 0
  /\ (listen last ((now, event) :: rest)).1 = (listen last rest).1
  /\ forwarded (listen last ((now, event) :: rest)).2 = forwarded (listen last rest).2
  /\ refreshes (listen last ((now, event) :: rest)).2 = refreshes (listen last rest).2.
Proof.
  intros Hnq.
  assert (H : (handle_event last now event).1 = last
              /\ forwarded (handle_event last now event).2 = []
              /\ refreshes (handle_event last now event).2 = 0).
  { unfold handle_event. destruct (app_event_logs event) as [Hr Hf].
    unfold qualifies in Hnq.
    destruct (app_event event) as [[[[a n]|]|e] tr]; cbn [fst snd] in *.
    - exfalso. apply Hnq. by exists a, n.
    - done.
    - by rewrite refreshes_app, forwarded_app, Hr, Hf. }
  destruct H as (H1 & H2 & H3). split; [done|]. split; [done|]. split; [done|].
  cbn [listen]. destruct (handle_event last now event) as [t tr]. cbn [fst snd] in *.
  subst t. destruct (listen last rest) as [t' tr']. cbn [fst snd].
  by rewrite forwarded_app, refreshes_app, H2, H3.
Qed.

Definition foreign_started : pyval :=
  PDict [("Type", PStr "container"); ("Action", PStr "start");
         ("Actor", PDict [("Attributes", PDict [("name", PStr "postgres")])])].

Lemma unqualified_event_is_ignored_witness :
  forwarded (listen 0 [(3600%Q, foreign_started); (3601%Q, app_started)]).2
  = forwarded (listen 0 [(3601%Q, app_started)]).2
  /\ refreshes (listen 0 [(3600%Q, foreign_started); (3601%Q, app_started)]).2
     = refreshes (listen 0 [(3601%Q, app_started)]).2.
Proof.
  destruct (unqualified_event_is_ignored 0 3600 foreign_started [(3601%Q, app_started)])
    as (_ & _ & _ & _ & Hf & Hr).
  - intros (a & n & H). vm_compute in H. discriminate.
  - by split.
Defined.

(** X19.  Which events pass the filters.  For an event with string
    [Type] and [Action] whose actor has an attribute dictionary: it passes
    exactly if it is a container event, its action is one of the nine
    followed ones, and the container carries the label
    ["dmm.created_by" = "docker-monitor-manager"] or has a name starting
    with ["dmm-"]. *)
Theorem app_event_filter event ty action attrs :
  path event ["Type"] = Some (PStr ty) ->
  path event ["Action"] = Some (PStr action) ->
  path event ["Actor"; "Attributes"] = Some (PDict attrs) ->
  qualifies event
  <-> ty = "container"
      /\ action ∈ relevant_events
      /\ (assoc "dmm.created_by" attrs = Some (PStr APP_CREATED_BY_LABEL)
          \/ exists n, assoc "name" attrs = Some (PStr n)
                       /\ String.prefix APP_CONTAINER_NAME_PREFIX n = true).
Proof.
  intros Hty Hac Hat.
  destruct event as [| | | | | |kvs]; try discriminate. cbn [path] in *.
  destruct (assoc "Type" kvs) as [ty'|] eqn:Ety; [|discriminate].
  destruct (assoc "Action" kvs) as [ac'|] eqn:Eac; [|discriminate].
  destruct (assoc "Actor" kvs) as [[| | | | | |actor]|] eqn:Eactor; try discriminate.
  destruct (assoc "Attributes" actor) as [at'|] eqn:Eat; [|discriminate].
  simplify_eq. unfold qualifies, app_event, get.
  rewrite Ety, Eac, Eactor. cbn [default from_option mbind result_bind].
  unfold Datatypes.id. cbn [str_eq str_in negb].
  destruct (bool_decide (ty = "container")) eqn:E1;
    [apply bool_decide_eq_true in E1|apply bool_decide_eq_false in E1]; cbn [negb orb];
    [|split; [intros (?&?&[=]) | tauto]].
  destruct (bool_decide (action ∈ relevant_events)) eqn:E2;
    [apply bool_decide_eq_true in E2|apply bool_decide_eq_false in E2]; cbn [negb orb];
    [|split; [intros (?&?&[=]) | tauto]].
  rewrite Eat. cbn [default from_option mbind result_bind]. unfold Datatypes.id.
  assert (Hattrs : exists attrs',
            (if truthy (PDict attrs) then PDict attrs else PDict []) = PDict attrs'
            /\ assoc "name" attrs' = assoc "name" attrs
            /\ assoc "dmm.created_by" attrs' = assoc "dmm.created_by" attrs).
  { destruct attrs; cbn; by eexists. }
  destruct Hattrs as (attrs' & -> & Hn & Hc). cbn [mbind result_bind].
  rewrite Hn, Hc.
  set (nm := from_option _ (PStr "unknown") (assoc "name" attrs)).
  set (cb := from_option _ PNone (assoc "dmm.created_by" attrs)).
  assert (Hcb : str_eq cb APP_CREATED_BY_LABEL = true
                <-> assoc "dmm.created_by" attrs = Some (PStr APP_CREATED_BY_LABEL)).
  { unfold cb. destruct (assoc "dmm.created_by" attrs) as [[]|]; cbn; try (split; [done|by intros [=]]).
    rewrite bool_decide_eq_true. split; [by intros -> | by intros [= ->]]. }
  assert (Hnm : str_startswith nm APP_CONTAINER_NAME_PREFIX = true
                <-> exists n, assoc "name" attrs = Some (PStr n)
                              /\ String.prefix APP_CONTAINER_NAME_PREFIX n = true).
  { unfold nm. destruct (assoc "name" attrs) as [[]|]; cbn;
      try (split; [done|by intros (?&[=]&?)]).
    split; [intros H; by eexists | by intros (?&[= ->]&?)]. }
  destruct (str_eq cb APP_CREATED_BY_LABEL || str_startswith nm APP_CONTAINER_NAME_PREFIX)
    eqn:E3; cbn [negb fst].
  - split; [|by eexists _, _]. intros _. split; [done|]. split; [done|].
    apply orb_prop in E3 as [E3|E3]; [left; by apply Hcb | right; by apply Hnm].
  - split; [by intros (?&?&[=])|]. intros (_ & _ & [H|H]).
    + apply Hcb in H. rewrite H in E3. done.
    + apply Hnm in H. rewrite H, orb_true_r in E3. done.
Qed.

Lemma app_event_filter_witness : qualifies app_died.
Proof.
  apply (app_event_filter app_died "container" "die"
           [("name", PStr "web-clone-0a1b2c3d");
            ("dmm.created_by", PStr "docker-monitor-manager")]); try reflexivity.
  split; [done|]. split; [compute_done|]. by left.
Defined.

(** X20.  An event storm collapses: however many events are read less
    than 500ms after the last triggered refresh, none of them triggers a
    refresh and the time of the last refresh stays, while each event that
    passes the filters is still forwarded. *)
Theorem event_storm_triggers_nothing last (stream : list (Q * pyval)) :
  (forall t e, (t, e) ∈ stream -> (t - last < MIN_REFRESH_INTERVAL)%Q) ->
  (listen last stream).1 = last
  /\ refreshes (listen last stream).2 = 0
  /\ forall t e, (t, e) ∈ stream -> qualifies e -> e ∈ forwarded (listen last stream).2.
Proof.
  induction stream as [|[t e] stream IH]; intros Hw.
  - split; [done|]. split; [done|]. intros t e H. by apply elem_of_nil in H.
  - destruct IH as (IH1 & IH2 & IH3); [intros; eapply Hw; by right|].
    assert (Hh : (handle_event last t e).1 = last
                 /\ refreshes (handle_event last t e).2 = 0
                 /\ (qualifies e -> forwarded (handle_event last t e).2 = [e])).
    { destruct (qualifies_dec e) as [Hq|Hn].
      - destruct (handle_event_debounced last t e Hq) as (?&?&?); [eapply Hw; by left|].
        done.
      - assert (Hnq : ~ qualifies e) by (intros (a&n&H); by apply (Hn a n)).
        unfold handle_event. destruct (app_event_logs e) as [Hr Hf].
        destruct (app_event e) as [[[[a n]|]|x] tr]; cbn [fst snd] in *.
        + by destruct (Hn a n).
        + done.
        + rewrite refreshes_app, Hr. done. }
    destruct Hh as (H1 & H2 & H3). cbn [listen].
    destruct (handle_event last t e) as [l1 tr1]. cbn [fst snd] in *. subst l1.
    destruct (listen last stream) as [l2 tr2]. cbn [fst snd] in *.
    split; [done|]. rewrite refreshes_app, forwarded_app, H2, IH2. split; [done|].
    intros t' e' [[= -> ->]|Hin]%elem_of_cons Hq; apply elem_of_app.
    + left. rewrite (H3 Hq). apply list_elem_of_here.
    + right. by eapply IH3.
Qed.

Lemma event_storm_triggers_nothing_witness :
  refreshes (listen 3600 [((36001 # 10)%Q, app_died); ((36002 # 10)%Q, app_started);
                          ((36004 # 10)%Q, app_died)]).2 = 0.
Proof.
  apply (event_storm_triggers_nothing 3600).
  intros t e H. repeat (apply elem_of_cons in H as [[= -> ->]|H]; [by vm_compute|]).
  by apply elem_of_nil in H.
Defined.

End EventsCoverage.

(* ------------------------------------------------------------------ *)
(** ** The bounded queues                                              *)
(* ------------------------------------------------------------------ *)
Section QueueCoverage.
Import Queues.
Context {A : Type}.

(** Successive calls of [_offer_latest] on one queue, with no consumer in
    between. *)
Fixpoint offer_each (q : Queue A) (items : list A) (queue_name : string)
    : Queue A * list effect :=
  match items with
  | [] => (q, [])
  | x :: rest =>
    let '(q1, tr) := _offer_latest q x queue_name in
    let '(q2, tr') := offer_each q1 rest queue_name in
    (q2, tr ++ tr')
  end.

Definition within_bound (q : Queue A) : Prop :=
  (0 < maxsize q)%Z /\ (Z.of_nat (length (entries q)) <= maxsize q)%Z.

Lemma full_spec (q : Queue A) :
  full q = true
  <-> (0 < maxsize q)%Z /\ (maxsize q <= Z.of_nat (length (entries q)))%Z.
Proof. unfold full. rewrite andb_true_iff, Z.ltb_lt, Z.leb_le. done. Qed.

Lemma offer_latest_bounded (q : Queue A) x queue_name :
  within_bound q ->
  _offer_latest q x queue_name
  = ({| maxsize := maxsize q;
        entries := (if full q then tail (entries q) else entries q) ++ [x] |}, []).
Proof.
  intros [Hpos Hle]. unfold _offer_latest, put_nowait.
  destruct (full q) eqn:Hfull; [|done].
  apply full_spec in Hfull as [_ Hge].
  unfold get_nowait. destruct (entries q) as [|e t] eqn:He.
  { cbn in Hge. lia. }
  cbn [tail]. replace (full _) with false; [done|].
  symmetry. apply not_true_iff_false. rewrite full_spec. cbn in *. lia.
Qed.

Lemma offer_latest_unbounded (q : Queue A) x queue_name :
  (maxsize q <= 0)%Z ->
  _offer_latest q x queue_name
  = ({| maxsize := maxsize q; entries := entries q ++ [x] |}, []).
Proof.
  intros Hle. unfold _offer_latest, put_nowait.
  replace (full q) with false; [done|].
  symmetry. apply not_true_iff_false. rewrite full_spec. lia.
Qed.

(** X21 ([_offer_latest]): offered to a bounded queue that nobody reads,
    a sequence of items leaves the queue holding the newest [maxsize] of
    the entries it had and the items offered, in their order; the oldest
    are dropped one by one, and the "saturated" record is never logged. *)
Theorem offer_latest_keeps_newest (items : list A) : forall (q : Queue A) queue_name,
  within_bound q ->
  offer_each q items queue_name
  = ({| maxsize := maxsize q;
        entries := drop (length (entries q ++ items) - Z.to_nat (maxsize q))
                        (entries q ++ items) |}, []).
Proof.
  induction items as [|x items IH]; intros q queue_name Hq.
  - cbn [offer_each]. rewrite app_nil_r. destruct Hq as [? ?].
    replace (_ - _) with 0 by lia. by destruct q.
  - cbn [offer_each]. rewrite (offer_latest_bounded _ _ _ Hq).
    set (q1 := {| maxsize := maxsize q; entries := _ |}).
    assert (Hq1 : within_bound q1).
    { destruct Hq as [Hpos Hle]. split; [done|]. subst q1. cbn [maxsize entries].
      rewrite length_app. cbn [length].
      destruct (full q) eqn:Hfull.
      - destruct (entries q); cbn in *; lia.
      - apply not_true_iff_false in Hfull. rewrite full_spec in Hfull. lia. }
    rewrite (IH _ _ Hq1). cbn [app]. f_equal. f_equal.
    subst q1. cbn [maxsize entries]. rewrite <- (assoc_L (++)). cbn [app].
    destruct (full q) eqn:Hfull; [|done].
    apply full_spec in Hfull as [_ Hge]. destruct Hq as [Hpos Hle].
    destruct (entries q) as [|e t]; [cbn in Hge; lia|].
    cbn [tail]. cbn [app]. cbn [length] in *.
    rewrite !length_app in *. cbn [length] in *.
    replace (S (length t + S (length items)) - Z.to_nat (maxsize q))
      with (S (length t + S (length items) - Z.to_nat (maxsize q))) by lia.
    done.
Qed.

(** X22 ([_offer_latest]): a queue made without [maxsize], as
    [manual_refresh_queue] is, never drops anything: every offered item
    is appended, so the queue grows by one entry per call while nobody
    reads it. *)
Theorem offer_latest_unbounded_grows (items : list A) : forall (q : Queue A) queue_name,
  (maxsize q <= 0)%Z ->
  offer_each q items queue_name
  = ({| maxsize := maxsize q; entries := entries q ++ items |}, []).
Proof.
  induction items as [|x items IH]; intros q queue_name Hq.
  - cbn [offer_each]. rewrite app_nil_r. by destruct q.
  - cbn [offer_each]. rewrite (offer_latest_unbounded _ _ _ Hq).
    rewrite IH by done. cbn [maxsize entries app]. by rewrite <- (assoc_L (++)).
Qed.

End QueueCoverage.

Definition snapshot_named (n : string) : list Snapshot :=
  [{| snap_id := n; snap_name := n; snap_status := "running";
      cpu := "0.00"; ram := "0.00" |}].

Lemma offer_latest_keeps_newest_witness :
  within_bound Queues.stats_queue
  /\ offer_each Queues.stats_queue
       (map snapshot_named ["a"; "b"; "c"; "d"; "e"; "f"; "g"]) "stats"
     = ({| Queues.maxsize := 5;
           Queues.entries := map snapshot_named ["c"; "d"; "e"; "f"; "g"] |}, []).
Proof.
  assert (H : within_bound Queues.stats_queue) by (split; cbn; lia).
  split; [exact H|].
  exact (offer_latest_keeps_newest
           (map snapshot_named ["a"; "b"; "c"; "d"; "e"; "f"; "g"])
           Queues.stats_queue "stats" H).
Defined.

Lemma offer_latest_unbounded_grows_witness :
  (Queues.maxsize Queues.manual_refresh_queue <= 0)%Z
  /\ offer_each Queues.manual_refresh_queue
       (map snapshot_named ["a"; "b"; "c"]) "manual refresh"
     = ({| Queues.maxsize := 0;
           Queues.entries := map snapshot_named ["a"; "b"; "c"] |}, []).
Proof.
  assert (H : (Queues.maxsize Queues.manual_refresh_queue <= 0)%Z) by (cbn; lia).
  split; [exact H|].
  exact (offer_latest_unbounded_grows (map snapshot_named ["a"; "b"; "c"])
           Queues.manual_refresh_queue "manual refresh" H).
Defined.

(* ------------------------------------------------------------------ *)
(** ** The cleanup                                                     *)
(* ------------------------------------------------------------------ *)
Section CleanupCoverage.
Import Cleanup.

(** The prune calls of a run, and the levels of its records, in order. *)
Definition prunes (tr : list Cleanup.effect) : list prune_call :=
  omap (fun e => match e with Pruned c => Some c | _ => None end) tr.

Definition levels (tr : list Cleanup.effect) : list level :=
  omap (fun e => match e with Logged lv _ => Some lv | _ => None end) tr.

(** The call returned a report that has a [get] method. *)
Definition reported (r : result pyval) : bool :=
  match r with Ok (PDict _) => true | _ => false end.

Lemma prunes_app tr1 tr2 : prunes (tr1 ++ tr2) = prunes tr1 ++ prunes tr2.
Proof. apply omap_app. Qed.

Lemma levels_app tr1 tr2 : levels (tr1 ++ tr2) = levels tr1 ++ levels tr2.
Proof. apply omap_app. Qed.

Lemma prune_step_prunes rt c info failed :
  prunes (prune_step rt c info failed) = [c].
Proof.
  unfold prune_step. cbn. by destruct (mbind _ _).
Qed.

Lemma prune_step_levels rt c info failed :
  (forall kvs, exists msg, info (PDict kvs) = Ok msg) ->
  (forall v, (forall kvs, v <> PDict kvs) -> exists e, info v = Raise e) ->
  levels (prune_step rt c info failed)
  = [if reported (rt c) then INFO else DEBUG].
Proof.
  intros Hd Hn. unfold prune_step. cbn [levels omap].
  destruct (rt c) as [v|e]; [|done].
  cbn [mbind result_bind].
  destruct v as [|b|z|q|s|items|kvs];
    try (match goal with
         | |- context [info ?v] =>
           by destruct (Hn v) as [e ->]; [intros; discriminate|]
         end).
  destruct (Hd kvs) as [msg ->]. done.
Qed.

(** X23 ([docker_cleanup]): whatever each prune call does, the cleanup
    attempts all four prunes, in the order containers, dangling images,
    volumes, networks; a prune that fails does not stop the ones after
    it.  Each prune leaves one record: at level INFO when the call
    returned a report, at level DEBUG otherwise, so a failure is never
    reported above DEBUG. *)
Theorem docker_cleanup_attempts_every_prune (rt : prune_call -> result pyval) :
  prunes (docker_cleanup rt)
  = [PruneContainers; PruneImages true; PruneVolumes; PruneNetworks]
  /\ levels (docker_cleanup rt)
     = map (fun c => if reported (rt c) then INFO else DEBUG)
           [PruneContainers; PruneImages true; PruneVolumes; PruneNetworks].
Proof.
  unfold docker_cleanup. split.
  - rewrite !prunes_app, !prune_step_prunes. done.
  - rewrite !levels_app.
    rewrite !prune_step_levels; [done|..];
      try (intros kvs; cbn; eexists; reflexivity);
      try (intros v Hv; destruct v as [|b|z|q|s|items|kvs];
           try (eexists; reflexivity); by destruct (Hv kvs)).
Qed.

End CleanupCoverage.

(* ------------------------------------------------------------------ *)
(** ** The restarts of the event listener                              *)
(* ------------------------------------------------------------------ *)
Section ListenerCoverage.
Import Listener.

(** The subscriptions a call can still make when the restart counter
    stands at [count]: the call's own, and one per restart left. *)
Definition subscriptions_left (count : option nat) : nat :=
  Nat.max 1 (max_restarts - default 0 count).

(** X24 ([docker_events_listener], the [except] clause): the listener
    subscribes to the event stream at most five times in the life of the
    process.  The restart counter is never reset, so with the counter at
    [count] a call uses at most [max(1, 5 - count)] subscriptions; what
    Docker reports after the last of them failed is never handled. *)
Theorem listener_gives_up (sessions : list Session) : forall count,
  docker_events_listener count sessions
  = docker_events_listener count (take (subscriptions_left count) sessions).
Proof.
  induction sessions as [|s rest IH]; intros count.
  - by rewrite take_nil.
  - unfold subscriptions_left.
    destruct (Nat.max 1 (max_restarts - default 0 count)) as [|k] eqn:Hk; [lia|].
    cbn [take docker_events_listener].
    destruct (failure s) as [e|]; [|done].
    destruct (S (default 0 count) <? max_restarts) eqn:Hlt; [|done].
    apply Nat.ltb_lt in Hlt.
    rewrite (IH (Some (S (default 0 count)))).
    replace (subscriptions_left (Some (S (default 0 count)))) with k; [done|].
    unfold subscriptions_left. cbn [default from_option Datatypes.id]. lia.
Qed.

End ListenerCoverage.

(* ------------------------------------------------------------------ *)
(** ** Clearing, counting and searching the caches                     *)
(* ------------------------------------------------------------------ *)
Section QueriesCoverage.
Import Observer Controller Queries.

Lemma length_list_ascii_of_string s :
  length (list_ascii_of_string s) = String.length s.
Proof. induction s as [|a s IH]; cbn; congruence. Qed.

Lemma iter_len h v l : iter h v = Ok l -> len h v = Ok (length l).
Proof.
  unfold iter, len. destruct v as [| | |s|r]; try done.
  - intros [= <-]. by rewrite length_map, length_list_ascii_of_string.
  - destruct (h !! r) as [[items|kvs]|]; intros [= <-]; [done|].
    by rewrite length_map.
Qed.

Lemma comprehension_spec pred (p : val -> bool) l :
  (forall x, x ∈ l -> pred x = Ok (p x)) ->
  comprehension pred l = Ok (List.filter p l).
Proof.
  induction l as [|x l IH]; intros H; [done|].
  cbn [comprehension List.filter].
  rewrite (H x) by apply list_elem_of_here. cbn [mbind result_bind].
  rewrite IH by (intros y Hy; apply H; by apply list_elem_of_further).
  cbn [mbind result_bind]. done.
Qed.

Lemma next_match_spec pred (p : val -> bool) l :
  (forall x, x ∈ l -> pred x = Ok (p x)) ->
  next_match pred l = Ok (default VNone (head (List.filter p l))).
Proof.
  induction l as [|x l IH]; intros H; [done|].
  cbn [next_match List.filter].
  rewrite (H x) by apply list_elem_of_here. cbn [mbind result_bind].
  destruct (p x); [done|].
  apply IH. intros y Hy. apply H. by apply list_elem_of_further.
Qed.

(** What [comprehension] keeps is no longer than what it was given, and
    two tests that never hold together keep no more than that between
    them. *)
Lemma comprehension_length pred l kept :
  comprehension pred l = Ok kept -> length kept <= length l.
Proof.
  revert kept. induction l as [|x l IH]; intros kept; cbn [comprehension].
  - intros [= <-]. done.
  - destruct (pred x) as [b|]; [|done]. cbn [mbind result_bind].
    destruct (comprehension pred l) as [k|]; [|done]. cbn [mbind result_bind].
    intros [= <-]. specialize (IH k eq_refl). destruct b; cbn [length]; lia.
Qed.

Lemma comprehension_disjoint pred1 pred2 l k1 k2 :
  (forall x, pred1 x = Ok true -> pred2 x = Ok true -> False) ->
  comprehension pred1 l = Ok k1 ->
  comprehension pred2 l = Ok k2 ->
  length k1 + length k2 <= length l.
Proof.
  intros Hd. revert k1 k2.
  induction l as [|x l IH]; intros k1 k2; cbn [comprehension].
  - intros [= <-] [= <-]. done.
  - destruct (pred1 x) as [b1|] eqn:H1; [|done]. cbn [mbind result_bind].
    destruct (comprehension pred1 l) as [k1'|]; [|done]. cbn [mbind result_bind].
    intros [= <-].
    destruct (pred2 x) as [b2|] eqn:H2; [|done]. cbn [mbind result_bind].
    destruct (comprehension pred2 l) as [k2'|]; [|done]. cbn [mbind result_bind].
    intros [= <-]. specialize (IH k1' k2' eq_refl eq_refl).
    destruct b1, b2; cbn [length]; try lia.
    destruct (Hd x H1 H2).
Qed.

(** A cached container as the sampler produces it: a dictionary whose
    ["id"], where it has one, is a string. *)
Definition container_dict (h : heap) (x : val) : Prop :=
  exists l kvs, x = VRef l /\ h !! l = Some (ODict kvs)
    /\ (assoc "id" kvs = None \/ exists s, assoc "id" kvs = Some (VStr s)).

(** The test of [find_container_by_id], read on the store. *)
Definition id_or_name_matches (h : heap) (container_id : string) (x : val) : bool :=
  match x with
  | VRef l =>
    match h !! l with
    | Some (ODict kvs) =>
      match default (VStr "") (assoc "id" kvs) with
      | VStr i => String.prefix container_id i
      | _ => false
      end
      || eq_str (default VNone (assoc "name" kvs)) container_id
    | _ => false
    end
  | _ => false
  end.

Lemma find_test_spec h container_id x :
  container_dict h x ->
  (i ← dict_get h x "id" (VStr "");
   starts ← startswith i container_id;
   if (starts : bool) then Ok true
   else nm ← dict_get h x "name" VNone; Ok (eq_str nm container_id))
  = Ok (id_or_name_matches h container_id x).
Proof.
  intros (l & kvs & -> & Hl & Hid).
  unfold dict_get, id_or_name_matches. rewrite Hl. cbn [mbind result_bind].
  destruct Hid as [->|[s ->]]; cbn [default from_option Datatypes.id startswith];
    cbn [mbind result_bind];
    match goal with |- context [String.prefix ?a ?b] =>
      destruct (String.prefix a b) end; done.
Qed.

(** X25 ([find_container_by_id]): on a cache of container dictionaries
    the lookup returns the first cached container whose id starts with
    the argument or whose name equals it, and [None] when there is none.
    A container later in the cache is shadowed by an earlier match, also
    when the argument is its exact name. *)
Theorem find_container_by_id_first_match c l items container_id :
  _containers_cache c = VRef l ->
  store c !! l = Some (OList items) ->
  Forall (container_dict (store c)) items ->
  find_container_by_id c container_id
  = Ok (default VNone
          (head (List.filter (id_or_name_matches (store c) container_id) items))).
Proof.
  intros Hc Hl Hwf. unfold find_container_by_id, iter. rewrite Hc, Hl.
  cbn [mbind result_bind]. apply next_match_spec.
  intros x Hx. apply find_test_spec.
  rewrite Forall_forall in Hwf. by apply Hwf.
Qed.

Lemma prefix_empty s : String.prefix "" s = true.
Proof. by destruct s. Qed.

(** X26 ([find_container_by_id]): every id starts with the empty
    string, so a lookup of [''] does not return [None] but the first
    container of the cache. *)
Theorem find_container_by_id_empty c l x items :
  _containers_cache c = VRef l ->
  store c !! l = Some (OList (x :: items)) ->
  container_dict (store c) x ->
  find_container_by_id c "" = Ok x.
Proof.
  intros Hc Hl Hx. unfold find_container_by_id, iter. rewrite Hc, Hl.
  cbn [mbind result_bind next_match].
  rewrite (find_test_spec _ _ _ Hx). cbn [mbind result_bind].
  destruct Hx as (r & kvs & -> & Hr & Hid).
  unfold id_or_name_matches. rewrite Hr.
  destruct Hid as [->|[s ->]]; cbn [default from_option Datatypes.id];
    by rewrite prefix_empty.
Qed.

(** X27 ([get_resource_counts]): whenever the counts are returned, the
    running and the stopped containers are disjoint parts of the total:
    [running_containers + stopped_containers <= total_containers]; the
    observer count is the one of the subject. *)
Theorem resource_counts_consistent c k :
  get_resource_counts c = Ok k ->
  running_containers k + stopped_containers k <= total_containers k
  /\ total_observers k = get_observer_count (subject c).
Proof.
  unfold get_resource_counts, count_if.
  destruct (iter (store c) (_containers_cache c)) as [l|e] eqn:Hiter.
  2:{ destruct (len (store c) (_containers_cache c)); cbn [mbind result_bind]; done. }
  rewrite (iter_len _ _ _ Hiter). cbn [mbind result_bind].
  repeat match goal with
         | |- context [comprehension ?p l] =>
           destruct (comprehension p l) eqn:?; cbn [mbind result_bind]
         end; try done.
  destruct (len _ (_networks_cache c)); cbn [mbind result_bind]; [|done].
  destruct (len _ (_images_cache c)); cbn [mbind result_bind]; [|done].
  destruct (len _ (_volumes_cache c)); cbn [mbind result_bind]; [|done].
  intros [= <-]. cbn. split; [|done].
  eapply comprehension_disjoint; [|eassumption|eassumption].
  intros x. cbn beta.
  destruct (dict_get (store c) x "status" VNone) as [s|]; [|done].
  cbn [mbind result_bind]. intros [= Hr] [= Hs].
  destruct s as [| | |s|]; try done. cbn [eq_str] in *.
  apply bool_decide_eq_true in Hr as ->. done.
Qed.

Lemma copy_extends (h h' : heap) v r :
  copy h v = (r, h') -> h' = h \/ exists o, h' = h ++ [o].
Proof.
  unfold copy. destruct v as [| | | |l]; try (intros [= _ <-]; by left).
  destruct (h !! l) as [o|]; intros [= _ <-]; [right; by exists o | by left].
Qed.

(** X28 ([compute_resource_metrics]): whenever the metrics are returned,
    the running containers are at most the total, and with no running
    container the four averages and maxima are zero, also when the
    stopped containers carry values that [float] would reject.  The
    call leaves the caches, the objects of the store and the observers
    as they were. *)
Theorem resource_metrics_consistent c m c' :
  compute_resource_metrics c = (Ok m, c') ->
  metrics_running_containers m <= metrics_total_containers m
  /\ (metrics_running_containers m = 0 ->
      avg_cpu m = 0%Q /\ avg_ram m = 0%Q /\ max_cpu m = 0%Q /\ max_ram m = 0%Q)
  /\ (forall r, cache r c' = cache r c)
  /\ (forall l o, store c !! l = Some o -> store c' !! l = Some o)
  /\ subject c' = subject c.
Proof.
  unfold compute_resource_metrics.
  destruct (copy (store c) (_containers_cache c)) as [[v|e] h] eqn:Hcopy; [|done].
  assert (Hstore : forall l o, store c !! l = Some o -> h !! l = Some o).
  { intros l o Hl. apply copy_extends in Hcopy as [->|[o' ->]]; [done|].
    by apply lookup_app_l_Some. }
  destruct (len h v) as [[|n]|e] eqn:Hlen; [| |done].
  - intros [= <- <-]. cbn. repeat split; done.
  - destruct (iter h v) as [l|e] eqn:Hiter; cbn [mbind result_bind]; [|done].
    rewrite (iter_len _ _ _ Hiter) in Hlen. injection Hlen as Hlen.
    destruct (comprehension _ l) as [running|] eqn:Hrun; cbn [mbind result_bind]; [|done].
    destruct (float_values h "cpu" running) as [cpu_values|] eqn:Hcpu; cbn [mbind result_bind]; [|done].
    destruct (float_values h "ram" running) as [ram_values|] eqn:Hram; cbn [mbind result_bind]; [|done].
    intros [= <- <-]. cbn [metrics_running_containers metrics_total_containers
                           avg_cpu avg_ram max_cpu max_ram].
    split; [|split; [|split; [by intros []|split; [exact Hstore|done]]]].
    + rewrite <- Hlen. by eapply comprehension_length.
    + intros H0. destruct running; [|done].
      cbn in Hcpu, Hram. injection Hcpu as <-. injection Hram as <-. done.
Qed.

Lemma len_fresh_empty (h h' : heap) k :
  len (h ++ [OList []; OList []; OList []; OList []] ++ h') (VRef (length h + k))
  = if bool_decide (k < 4) then Ok 0 else len h' (VRef (k - 4)).
Proof.
  unfold len. rewrite lookup_app_r by lia.
  replace (length h + k - length h) with k by lia.
  destruct k as [|[|[|[|k]]]]; try done.
  cbn. by rewrite Nat.sub_0_r.
Qed.

(** X29 ([clear_all_caches], [get_stats]): after the caches are
    cleared, [get_stats] counts no container, network, image or volume,
    and as many observers as before.  Clearing notifies nobody: no
    observer is sent anything and no notification pass is recorded, and
    every object of the store, the former cache lists among them, is
    left as it was. *)
Theorem clear_all_caches_spec (c : DockerDataController) :
  let c' := clear_all_caches c in
  get_stats c'
  = Ok {| containers := 0; networks := 0; images := 0; volumes := 0;
          observers := get_observer_count (subject c) |}
  /\ (forall o, received o (trace (subject c')) = received o (trace (subject c)))
  /\ emitted (trace (subject c')) = emitted (trace (subject c))
  /\ (forall l o, store c !! l = Some o -> store c' !! l = Some o).
Proof.
  cbn zeta. unfold clear_all_caches, get_stats, log, with_subject, logging.
  cbn [store subject _containers_cache _networks_cache _images_cache
       _volumes_cache _observers trace get_observer_count].
  repeat split.
  - pose proof (len_fresh_empty (store c) [] 0) as H0.
    pose proof (len_fresh_empty (store c) [] 1) as H1.
    pose proof (len_fresh_empty (store c) [] 2) as H2.
    pose proof (len_fresh_empty (store c) [] 3) as H3.
    rewrite app_nil_r, Nat.add_0_r in H0. rewrite app_nil_r in H1, H2, H3.
    rewrite H0, H1, H2, H3. done.
  - intros o. rewrite received_app. cbn. by rewrite app_nil_r.
  - rewrite emitted_app. cbn. by rewrite app_nil_r.
  - intros l o Hl. by apply lookup_app_l_Some.
Qed.

(** The test of a comprehension that reads one key and decides on its
    value, read on the store: [false] where [get] would raise. *)
Definition key_test (h : heap) (key : string) (f : val -> bool) (x : val) : bool :=
  match dict_get h x key VNone with
  | Ok s => f s
  | Raise _ => false
  end.

Lemma comprehension_key_test h key f l kept :
  comprehension (fun x => s ← dict_get h x key VNone; Ok (f s)) l = Ok kept ->
  kept = List.filter (key_test h key f) l
  /\ forall f' : val -> bool,
       comprehension (fun x => s ← dict_get h x key VNone; Ok (f' s)) l
       = Ok (List.filter (key_test h key f') l).
Proof.
  revert kept. induction l as [|x l IH]; intros kept; cbn [comprehension].
  - intros [= <-]. done.
  - cbn [List.filter].
    destruct (dict_get h x key VNone) as [s|] eqn:Hx; cbn [mbind result_bind]; [|done].
    assert (Hk : forall g, key_test h key g x = g s)
      by (intros g; unfold key_test; by rewrite Hx).
    destruct (comprehension _ l) as [k|]; cbn [mbind result_bind]; [|done].
    intros [= <-]. destruct (IH k eq_refl) as [-> IH'].
    split; [by rewrite Hk|]. intros f'. cbn [List.filter mbind result_bind].
    rewrite IH'. cbn [mbind result_bind]. by rewrite Hk.
Qed.

Lemma filter_disjoint_length {A} (p q : A -> bool) l :
  (forall x, p x = true -> q x = true -> False) ->
  length (List.filter (fun x => p x || q x) l)
  = length (List.filter p l) + length (List.filter q l).
Proof.
  intros Hd. induction l as [|x l IH]; [done|]. cbn [List.filter].
  destruct (p x) eqn:Hp, (q x) eqn:Hq; cbn [orb length]; try lia.
  destruct (Hd x Hp Hq).
Qed.

(** X30 ([get_resource_counts], [find_containers_by_status]): the
    counts agree with the searches.  Whenever the counts are returned,
    the searches by status return as well, [running_containers] is the
    number of containers found with status ['running'], and
    [stopped_containers] is the number found with status ['exited'] plus
    the number found with status ['stopped']. *)
Theorem resource_counts_agree_with_search c k :
  get_resource_counts c = Ok k ->
  exists running exited stopped,
    find_containers_by_status c "running" = Ok running
    /\ find_containers_by_status c "exited" = Ok exited
    /\ find_containers_by_status c "stopped" = Ok stopped
    /\ running_containers k = length running
    /\ stopped_containers k = length exited + length stopped.
Proof.
  unfold get_resource_counts, count_if, find_containers_by_status.
  destruct (iter (store c) (_containers_cache c)) as [l|e] eqn:Hiter.
  2:{ destruct (len (store c) (_containers_cache c)); cbn [mbind result_bind]; done. }
  destruct (len (store c) (_containers_cache c)); cbn [mbind result_bind]; [|done].
  destruct (comprehension
              (fun x => s ← dict_get (store c) x "status" VNone;
                        Ok (eq_str s "running")) l) as [k1|] eqn:H1;
    cbn [mbind result_bind]; [|done].
  destruct (comprehension
              (fun x => s ← dict_get (store c) x "status" VNone;
                        Ok (eq_str s "exited" || eq_str s "stopped")) l)
    as [k2|] eqn:H2; cbn [mbind result_bind]; [|done].
  destruct (len _ (_networks_cache c)); cbn [mbind result_bind]; [|done].
  destruct (len _ (_images_cache c)); cbn [mbind result_bind]; [|done].
  destruct (len _ (_volumes_cache c)); cbn [mbind result_bind]; [|done].
  intros [= <-]. cbn [running_containers stopped_containers].
  apply comprehension_key_test in H1 as [-> _].
  apply comprehension_key_test in H2 as [-> Hall].
  eexists _, _, _. split; [reflexivity|].
  split; [exact (Hall (fun s => eq_str s "exited"))|].
  split; [exact (Hall (fun s => eq_str s "stopped"))|].
  split; [done|].
  rewrite <- filter_disjoint_length.
  - f_equal. apply filter_ext. intros x. unfold key_test.
    by destruct (dict_get _ _ _ _).
  - intros x. unfold key_test. destruct (dict_get _ _ _ _) as [s|]; [|done].
    destruct s as [| | |s|]; try done. cbn [eq_str].
    intros ->%bool_decide_eq_true. done.
Qed.

End QueriesCoverage.

(** A cache of three containers: [web] is running, [db] has exited, and
    the third one is named like the start of the ids of the other two. *)
Definition fleet : Controller.DockerDataController :=
  {| Controller.subject := Observer.init;
     Controller.store :=
       [Controller.ODict
          [("id", Controller.VStr "abc123"); ("name", Controller.VStr "web");
           ("status", Controller.VStr "running");
           ("cpu", Controller.VStr "12.50"); ("ram", Controller.VStr "3.00")];
        Controller.ODict
          [("id", Controller.VStr "abd456"); ("name", Controller.VStr "db");
           ("status", Controller.VStr "exited");
           ("cpu", Controller.VStr "0.00"); ("ram", Controller.VStr "0.00")];
        Controller.ODict
          [("id", Controller.VStr "ff0001"); ("name", Controller.VStr "ab");
           ("status", Controller.VStr "paused");
           ("cpu", Controller.VStr "0.00"); ("ram", Controller.VStr "1.25")];
        Controller.OList
          [Controller.VRef 0; Controller.VRef 1; Controller.VRef 2];
        Controller.OList []; Controller.OList []; Controller.OList []];
     Controller._containers_cache := Controller.VRef 3;
     Controller._networks_cache := Controller.VRef 4;
     Controller._images_cache := Controller.VRef 5;
     Controller._volumes_cache := Controller.VRef 6 |}.

Lemma fleet_container_dicts :
  Forall (container_dict (Controller.store fleet))
    [Controller.VRef 0; Controller.VRef 1; Controller.VRef 2].
Proof.
  repeat constructor; eexists _, _; (split; [reflexivity|]);
    (split; [reflexivity|]); right; eexists; reflexivity.
Defined.

Lemma find_container_by_id_first_match_witness :
  Forall (container_dict (Controller.store fleet))
    [Controller.VRef 0; Controller.VRef 1; Controller.VRef 2]
  /\ Queries.find_container_by_id fleet "ab" = Ok (Controller.VRef 0)
  /\ Queries.find_container_by_id fleet "ff" = Ok (Controller.VRef 2)
  /\ Queries.find_container_by_id fleet "db" = Ok (Controller.VRef 1)
  /\ Queries.find_container_by_id fleet "cache" = Ok Controller.VNone.
Proof.
  split; [exact fleet_container_dicts|].
  split; [|split; [|split]].
  - exact (find_container_by_id_first_match fleet 3 _ "ab" eq_refl eq_refl
             fleet_container_dicts).
  - exact (find_container_by_id_first_match fleet 3 _ "ff" eq_refl eq_refl
             fleet_container_dicts).
  - exact (find_container_by_id_first_match fleet 3 _ "db" eq_refl eq_refl
             fleet_container_dicts).
  - exact (find_container_by_id_first_match fleet 3 _ "cache" eq_refl eq_refl
             fleet_container_dicts).
Defined.

Lemma find_container_by_id_empty_witness :
  container_dict (Controller.store fleet) (Controller.VRef 0)
  /\ Queries.find_container_by_id fleet "" = Ok (Controller.VRef 0).
Proof.
  assert (H : container_dict (Controller.store fleet) (Controller.VRef 0)).
  { eexists _, _. split; [reflexivity|]. split; [reflexivity|].
    right. eexists. reflexivity. }
  split; [exact H|].
  exact (find_container_by_id_empty fleet 3 (Controller.VRef 0)
           [Controller.VRef 1; Controller.VRef 2] eq_refl eq_refl H).
Defined.

Definition fleet_counts : Queries.Counts :=
  {| Queries.total_containers := 3; Queries.running_containers := 1;
     Queries.stopped_containers := 1; Queries.total_networks := 0;
     Queries.total_images := 0; Queries.total_volumes := 0;
     Queries.total_observers := 0 |}.

Lemma resource_counts_consistent_witness :
  Queries.get_resource_counts fleet = Ok fleet_counts
  /\ Queries.running_containers fleet_counts
     + Queries.stopped_containers fleet_counts
     <= Queries.total_containers fleet_counts
  /\ Queries.total_observers fleet_counts
     = Observer.get_observer_count (Controller.subject fleet).
Proof.
  assert (H : Queries.get_resource_counts fleet = Ok fleet_counts)
    by (vm_compute; reflexivity).
  split; [exact H|]. exact (resource_counts_consistent fleet fleet_counts H).
Defined.

Lemma resource_metrics_consistent_witness :
  exists m c',
    Queries.compute_resource_metrics fleet = (Ok m, c')
    /\ Queries.metrics_total_containers m = 3
    /\ Queries.metrics_running_containers m = 1
    /\ Queries.metrics_running_containers m <= Queries.metrics_total_containers m
    /\ (forall r, Controller.cache r c' = Controller.cache r fleet)
    /\ (forall l o, Controller.store fleet !! l = Some o
                    -> Controller.store c' !! l = Some o)
    /\ Controller.subject c' = Controller.subject fleet.
Proof.
  destruct (Queries.compute_resource_metrics fleet) as [[m|e] c'] eqn:H;
    [|vm_compute in H; discriminate].
  exists m, c'.
  destruct (resource_metrics_consistent fleet m c' H) as (Hle & _ & Hcache & Hstore & Hsub).
  assert (Hm : Queries.metrics_total_containers m = 3
               /\ Queries.metrics_running_containers m = 1).
  { vm_compute in H. injection H as <- <-. split; reflexivity. }
  destruct Hm as [Ht Hr].
  split; [reflexivity|]. split; [exact Ht|]. split; [exact Hr|].
  split; [exact Hle|]. split; [exact Hcache|]. split; [exact Hstore | exact Hsub].
Defined.

Lemma resource_counts_agree_with_search_witness :
  Queries.get_resource_counts fleet = Ok fleet_counts
  /\ exists running exited stopped,
       Queries.find_containers_by_status fleet "running" = Ok running
       /\ Queries.find_containers_by_status fleet "exited" = Ok exited
       /\ Queries.find_containers_by_status fleet "stopped" = Ok stopped
       /\ Queries.running_containers fleet_counts = length running
       /\ Queries.stopped_containers fleet_counts = length exited + length stopped.
Proof.
  assert (H : Queries.get_resource_counts fleet = Ok fleet_counts)
    by (vm_compute; reflexivity).
  split; [exact H|].
  exact (resource_counts_agree_with_search fleet fleet_counts H).
Defined.
